(** * ContFramePool: a contiguous frame allocator (cont_frame_pool.C)

    Shallow embedding of the frame pool of the kernel's memory subsystem and
    the properties of its specification.

    Data model.  The kernel is a 32-bit x86 one: [unsigned int] and
    [unsigned long] are both 32 bits wide, [unsigned char] is 8 bits.  Machine
    integers are values of [Z]; every arithmetic result that the C++ code
    stores in an unsigned variable is reduced with [wrap] (or [wrap8] for a
    byte).  Physical memory is a total map from byte addresses to bytes; the
    pool objects themselves live in a separate object store keyed by their
    address ([this]), and the two static members [head] and [tail] are fields
    of the machine state.  Console output is a trace of events; [get_state]
    itself prints a line when it decodes the reserved pattern, so the loops
    that call it carry the console through their calls.

    The definitions come first, function by function in the order of the
    source; the lemmas and the theorems about them follow. *)

From Stdlib Require Import ZArith Lia List Bool String Ascii QArith Qround.
From stdpp Require Import base option list gmap.

Local Open Scope Z_scope.

(** ** Machine integers *)

Definition wrap (x : Z) : Z := x mod 2 ^ 32.
Definition wrap8 (x : Z) : Z := x mod 2 ^ 8.

(** ** Console *)

(** What the code sends to [Console]: a string or a number. *)
Inductive console_event : Set :=
| puts (s : string)
| puti (n : Z).

Definition nl : string := String (ascii_of_nat 10) EmptyString.

(** ** The state codec *)

Module Codec.

(** [enum class FrameState].  It is declared in cont_frame_pool.H, which is
    not among the sources at hand; these are the four values that
    cont_frame_pool.C uses. *)
Inductive FrameState : Set := Free | Used | HoS | Error.

Definition FrameState_eqb (a b : FrameState) : bool :=
  match a, b with
  | Free, Free | Used, Used | HoS, HoS | Error, Error => true
  | _, _ => false
  end.

(** The 2-bit pattern of the comment at the end of [get_state]. *)
Definition encode (s : FrameState) : Z :=
  match s with Free => 0 | Used => 1 | HoS => 2 | Error => 3 end.

(** Physical memory: the byte stored at each address. *)
Definition memory : Type := Z -> Z.

Definition store (m : memory) (a v : Z) : memory :=
  fun x => if x =? a then v else m x.

(** The two bits that [get_state] isolates: [(bitmap[index] >> pos) & 0x3]. *)
Definition field (m : memory) (bitmap frame_no : Z) : Z :=
  let bitmap_index := frame_no / 4 in
  let framePos := (frame_no mod 4) * 2 in
  Z.land (Z.shiftr (m (bitmap + bitmap_index)) framePos) 3.

(** The line that [get_state] prints in the [default] case of its [switch]. *)
Definition invalid_state_line : console_event :=
  puts ("ERROR: Invalid frame state detected!" ++ nl).

(** [get_state], called when the console holds [out]: the state it returns
    and the console after the call.  Only the [default] case prints. *)
Definition get_state (m : memory) (bitmap frame_no : Z) (out : list console_event)
    : FrameState * list console_event :=
  let LSB := field m bitmap frame_no in
  match LSB with
  | 0 => (Free, out)
  | 1 => (Used, out)
  | 2 => (HoS, out)
  | _ => (Error, out ++ [invalid_state_line])
  end.

(** The state that [get_state] returns for a frame. *)
Definition state_at (m : memory) (bitmap frame_no : Z) : FrameState :=
  fst (get_state m bitmap frame_no []).

(** [set_state]: a read-modify-write of the containing byte.  The operands
    are promoted to [int], so [~mask] is the two's complement [Z.lnot]; the
    result is truncated to [unsigned char] on assignment.  The [switch] has
    no case for [Error]. *)
Definition set_state (m : memory) (bitmap frame_no : Z) (s : FrameState) : memory :=
  let bitmap_index := frame_no / 4 in
  let framePos := (frame_no mod 4) * 2 in
  let mask := wrap8 (Z.shiftl 3 framePos) in
  let a := bitmap + bitmap_index in
  match s with
  | Used => store m a (wrap8 (Z.lor (Z.land (m a) (Z.lnot mask)) (Z.shiftl 1 framePos)))
  | Free => store m a (wrap8 (Z.land (m a) (Z.lnot mask)))
  | HoS => store m a (wrap8 (Z.lor (Z.land (m a) (Z.lnot mask)) (Z.shiftl 2 framePos)))
  | Error => m
  end.

End Codec.
Export Codec.

(** The byte that [set_state] writes for the pattern [v] at position [pos]. *)
Definition written (B pos v : Z) : Z :=
  wrap8 (Z.lor (Z.land B (Z.lnot (wrap8 (Z.shiftl 3 pos)))) (Z.shiftl v pos)).

(** ** Pool objects and the machine state *)

(** The data members of [class ContFramePool] (declared in the header too):
    those that cont_frame_pool.C reads and writes.  [next] and [prev] are the
    registry links; a null pointer is [None], any other pointer is the address
    of a pool object. *)
Record ContFramePool : Type := mkPool {
  base_frame_no : Z;
  nframes : Z;
  nFreeFrames : Z;
  info_frame_no : Z;
  bitmap : Z;
  next : option nat;
  prev : option nat
}.

Record machine : Type := mkMachine {
  mem : memory;
  objs : gmap nat ContFramePool;
  head : option nat;
  tail : option nat;
  console : list console_event
}.

(** How a call ends: normally, in a failed [assert], by following a pointer
    to no object, or (in this model only) by running out of the step budget
    given to a loop that the code does not bound. *)
Inductive result (A : Type) : Type :=
| Done (a : A)
| AssertFailed
| BadPointer
| OutOfFuel.
Arguments Done {A} a.
Arguments AssertFailed {A}.
Arguments BadPointer {A}.
Arguments OutOfFuel {A}.

Definition set_nFreeFrames (v : Z) (p : ContFramePool) : ContFramePool :=
  mkPool (base_frame_no p) (nframes p) v (info_frame_no p) (bitmap p) (next p) (prev p).

Definition set_next (v : option nat) (p : ContFramePool) : ContFramePool :=
  mkPool (base_frame_no p) (nframes p) (nFreeFrames p) (info_frame_no p) (bitmap p) v (prev p).

Definition set_prev (v : option nat) (p : ContFramePool) : ContFramePool :=
  mkPool (base_frame_no p) (nframes p) (nFreeFrames p) (info_frame_no p) (bitmap p) (next p) v.

(** A write through a pool pointer: fails where there is no object. *)
Definition update_obj (o : gmap nat ContFramePool) (k : nat)
    (f : ContFramePool -> ContFramePool) : option (gmap nat ContFramePool) :=
  match o !! k with
  | Some p => Some (<[k := f p]> o)
  | None => None
  end.

(** The state of a frame of a pool, and the number of [Free] frames among
    the [k] frames from relative index [i] on. *)
Definition frame_state (st : machine) (p : ContFramePool) (i : Z) : FrameState :=
  state_at (mem st) (bitmap p) i.

Fixpoint count_free (k : nat) (m : memory) (bm i : Z) : Z :=
  match k with
  | O => 0
  | S k' => (if FrameState_eqb (state_at m bm i) Free then 1 else 0)
            + count_free k' m bm (i + 1)
  end.

Definition free_frames (st : machine) (p : ContFramePool) : Z :=
  count_free (Z.to_nat (nframes p)) (mem st) (bitmap p) 0.

(** ** Construction *)

Section Construction.

(** [FRAME_SIZE] is a constant of the header, which is not part of the
    sources at hand: the size of a frame in bytes. *)
Variable FRAME_SIZE : Z.

(** The loop [for (fno = 0; fno < nframes; fno++) set_state(fno, Free)]. *)
Fixpoint init_free (count : nat) (m : memory) (bm fno : Z) : memory :=
  match count with
  | O => m
  | S k => init_free k (set_state m bm fno Free) bm (fno + 1)
  end.

(** The constructor, run on the object at address [this] whose storage holds
    [raw] when the constructor starts.  The code reads two members before it
    assigns them: [nframes] in the [assert], and [bitmap] in the loop that
    frees the frames; [next] and [prev] are not assigned when the registry is
    empty. *)
Definition ContFramePool_ctor (this : nat) (raw : ContFramePool)
    (_base_frame_no _n_frames _info_frame_no : Z) (st : machine) : result machine :=
  if negb (wrap (nframes raw * 2) <=? wrap (FRAME_SIZE * 8)) then AssertFailed else
  let m1 := init_free (Z.to_nat _n_frames) (mem st) (bitmap raw) 0 in
  let bm := if _info_frame_no =? 0
            then wrap (FRAME_SIZE * _base_frame_no)
            else wrap (FRAME_SIZE * _info_frame_no) in
  let m2 := set_state m1 bm _info_frame_no HoS in
  let self := mkPool _base_frame_no _n_frames (wrap (_n_frames - 1)) _info_frame_no bm
                     (next raw) (prev raw) in
  let o1 := <[this := self]> (objs st) in
  match head st with
  | None =>
      Done (mkMachine m2 o1 (Some this) (Some this)
              (console st ++ [puts ("Frame Pool initialized" ++ nl)]))
  | Some _ =>
      match tail st with
      | None => BadPointer
      | Some t =>
          match update_obj o1 t (set_next (Some this)) with
          | None => BadPointer
          | Some o2 =>
              match update_obj o2 this (set_prev (Some t)) with
              | None => BadPointer
              | Some o3 =>
                  match update_obj o3 this (set_next None) with
                  | None => BadPointer
                  | Some o4 =>
                      Done (mkMachine m2 o4 (head st) (Some this)
                              (console st ++ [puts ("Attaching a frame pool" ++ nl);
                                              puts ("Frame Pool initialized" ++ nl)]))
                  end
              end
          end
      end
  end.

(** [needed_info_frames], in [unsigned long] arithmetic. *)
Definition needed_info_frames (_n_frames : Z) : Z :=
  let FRAME_SIZE_BITS := wrap (FRAME_SIZE * 8) in
  let info_frame_required := wrap (_n_frames * 2 + FRAME_SIZE_BITS - 1) / FRAME_SIZE_BITS in
  info_frame_required.

End Construction.

(** The same computation where [unsigned long] has 64 bits, for comparison. *)
Definition needed_info_frames_lp64 (FRAME_SIZE _n_frames : Z) : Z :=
  let FRAME_SIZE_BITS := (FRAME_SIZE * 8) mod 2 ^ 64 in
  ((_n_frames * 2 + FRAME_SIZE_BITS - 1) mod 2 ^ 64) / FRAME_SIZE_BITS.

(** The ceiling of the rational [a / b], for [0 < b]. *)
Definition ceiling_div (a b : Z) : Z := Qceiling (Qmake a (Z.to_pos b)).

(** ** Allocation *)

(** The test [get_state(frame_no) == Used || get_state(frame_no) == HoS] of
    both loops of [get_frames]: the second call is made when the first one
    did not return [Used]. *)
Definition in_use (m : memory) (bm frame_no : Z) (out : list console_event)
    : bool * list console_event :=
  let '(s1, out1) := get_state m bm frame_no out in
  if FrameState_eqb s1 Used then (true, out1)
  else
    let '(s2, out2) := get_state m bm frame_no out1 in
    (FrameState_eqb s2 HoS, out2).

(** The search loop of [get_frames]: skip frames that are [Used] or [HoS].
    The code puts no bound on it; [fuel] is the number of tests the model
    may make. *)
Fixpoint scan (fuel : nat) (m : memory) (bm frame_no : Z) (out : list console_event)
    : option (Z * list console_event) :=
  match fuel with
  | O => None
  | S k =>
      let '(b, out1) := in_use m bm frame_no out in
      if b then scan k m bm (wrap (frame_no + 1)) out1
      else Some (frame_no, out1)
  end.

(** The warning of [get_frames] for a frame that it overwrites. *)
Definition overwrite_warning : console_event :=
  puts ("get_frame(): allocating used or HoS frames" ++ nl).

(** The [for] loop of [get_frames]: [count] more frames become [Used],
    whatever they were; a frame that was in use is reported on the console. *)
Fixpoint mark_used (count : nat) (m : memory) (bm frame_no nfree : Z)
    (out : list console_event) : memory * Z * list console_event :=
  match count with
  | O => (m, nfree, out)
  | S k =>
      let '(b, out1) := in_use m bm frame_no out in
      let out' := if b then out1 ++ [overwrite_warning] else out1 in
      mark_used k (set_state m bm frame_no Used) bm (wrap (frame_no + 1))
                (wrap (nfree - 1)) out'
  end.

Definition get_frames (fuel : nat) (this : nat) (_n_frames : Z) (st : machine)
    : result (Z * machine) :=
  match objs st !! this with
  | None => BadPointer
  | Some p =>
      if negb (0 <? nFreeFrames p) then AssertFailed else
      match scan fuel (mem st) (bitmap p) 0 (console st) with
      | None => OutOfFuel
      | Some (frame_no, out0) =>
          let beginning_frame_no := frame_no in
          let m1 := set_state (mem st) (bitmap p) frame_no HoS in
          let '(m2, nfree, out) :=
            mark_used (Z.to_nat (wrap (_n_frames - 1))) m1 (bitmap p)
                      (wrap (frame_no + 1)) (wrap (nFreeFrames p - 1)) out0 in
          Done (wrap (beginning_frame_no + base_frame_no p),
                mkMachine m2 (<[this := set_nFreeFrames nfree p]> (objs st))
                          (head st) (tail st) out)
      end
  end.

(** ** Reservation *)

(** The loop of [mark_inaccessible]: [fno] runs over absolute frame numbers. *)
Fixpoint mark_range_used (count : nat) (m : memory) (bm base fno : Z) : memory :=
  match count with
  | O => m
  | S k => mark_range_used k (set_state m bm (wrap (fno - base)) Used) bm base (wrap (fno + 1))
  end.

Definition mark_inaccessible (this : nat) (_base_frame_no _n_frames : Z) (st : machine)
    : result machine :=
  match objs st !! this with
  | None => BadPointer
  | Some p =>
      let limit := wrap (_base_frame_no + _n_frames) in
      let m1 := mark_range_used (Z.to_nat (limit - _base_frame_no)) (mem st) (bitmap p)
                                (base_frame_no p) _base_frame_no in
      Done (mkMachine m1 (objs st) (head st) (tail st) (console st))
  end.

(** ** Release *)

(** The test [base_frame_no <= f && f < base_frame_no + nframes]. *)
Definition in_pool (p : ContFramePool) (f : Z) : bool :=
  (base_frame_no p <=? f) && (f <? wrap (base_frame_no p + nframes p)).

(** The inner loop of [release_frames]: free the [Used] frames that follow.
    Each round moves [frame] one step towards [nfr], so [nfr - frame] rounds
    are enough; [count] is that number (see [free_run_spec]). *)
Fixpoint free_run (count : nat) (m : memory) (bm frame nfr nfree : Z)
    (out : list console_event) : memory * Z * Z * list console_event :=
  match count with
  | O => (m, frame, nfree, out)
  | S k =>
      if frame <? nfr then
        let '(s, out1) := get_state m bm frame out in
        if FrameState_eqb s Used
        then free_run k (set_state m bm frame Free) bm (wrap (frame + 1)) nfr
                      (wrap (nfree + 1)) out1
        else (m, frame, nfree, out1)
      else (m, frame, nfree, out)
  end.

(** The four statements that take the pool at [t] out of the list. *)
Definition unlink (t : nat) (o : gmap nat ContFramePool) (hd tl : option nat)
    : option (gmap nat ContFramePool * option nat * option nat) :=
  match o !! t with
  | None => None
  | Some p0 =>
      match (match prev p0 with
             | Some pv => update_obj o pv (set_next (next p0))
             | None => Some o
             end) with
      | None => None
      | Some o1 =>
          match o1 !! t with
          | None => None
          | Some p1 =>
              match (match next p1 with
                     | Some nx => update_obj o1 nx (set_prev (prev p1))
                     | None => Some o1
                     end) with
              | None => None
              | Some o2 =>
                  match o2 !! t with
                  | None => None
                  | Some p2 =>
                      let hd' := if bool_decide (hd = Some t) then next p2 else hd in
                      let tl' := if bool_decide (tl = Some t) then prev p2 else tl in
                      Some (o2, hd', tl')
                  end
              end
          end
      end
  end.

(** The body of the [if] that found the pool [p] at [t]; it ends in [break]. *)
Definition release_at (t : nat) (p : ContFramePool) (_first_frame_no : Z) (st : machine)
    : result machine :=
  let frame := wrap (_first_frame_no - base_frame_no p) in
  let '(s, out0) := get_state (mem st) (bitmap p) frame (console st) in
  if negb (FrameState_eqb s HoS) then
    Done (mkMachine (mem st) (objs st) (head st) (tail st)
            (out0 ++ [puts "release_frames(): first frame not a Head-Of-Sequence"]))
  else
    let out1 := out0 ++ [puts "First Frame Freed: "; puti (wrap (frame + base_frame_no p));
                         puts nl] in
    let m1 := set_state (mem st) (bitmap p) frame Free in
    let frame1 := wrap (frame + 1) in
    let '(m2, frame2, nfree, out1') :=
      free_run (Z.to_nat (nframes p - frame1)) m1 (bitmap p) frame1 (nframes p)
               (wrap (nFreeFrames p + 1)) out1 in
    let out2 := out1' ++ [puts "Last Frame Freed: ";
                          puti (wrap (frame2 + base_frame_no p - 1)); puts nl] in
    let o1 := <[t := set_nFreeFrames nfree p]> (objs st) in
    if nfree =? nframes p then
      match unlink t o1 (head st) (tail st) with
      | None => BadPointer
      | Some (o2, hd', tl') =>
          Done (mkMachine m2 o2 hd' tl'
                  (out2 ++ [puts ("Entire frame pool is now free, removing from list." ++ nl)]))
      end
    else Done (mkMachine m2 o1 (head st) (tail st) out2).

(** The walk over the registry; [fuel] bounds the number of pools visited. *)
Fixpoint release_walk (fuel : nat) (temp : option nat) (_first_frame_no : Z) (st : machine)
    : result machine :=
  match temp with
  | None => Done st
  | Some t =>
      match fuel with
      | O => OutOfFuel
      | S k =>
          match objs st !! t with
          | None => BadPointer
          | Some p =>
              if in_pool p _first_frame_no
              then release_at t p _first_frame_no st
              else release_walk k (next p) _first_frame_no st
          end
      end
  end.

Definition release_frames (fuel : nat) (_first_frame_no : Z) (st : machine) : result machine :=
  release_walk fuel (head st) _first_frame_no st.

(** The same walk without the body: the pool that a lookup by absolute frame
    number finds.  [release_frames] and [check_freed_frames] share it. *)
Fixpoint find_pool (fuel : nat) (temp : option nat) (f : Z) (o : gmap nat ContFramePool)
    : result (option nat) :=
  match temp with
  | None => Done None
  | Some t =>
      match fuel with
      | O => OutOfFuel
      | S k =>
          match o !! t with
          | None => BadPointer
          | Some p => if in_pool p f then Done (Some t) else find_pool k (next p) f o
          end
      end
  end.

(** ** The registry as a list *)

(** [chain o pv l nx]: the objects at the addresses [l] are linked in this
    order; the [prev] of the first one is [pv] and the [next] of the last one
    is [nx]. *)
Definition next_of (l : list nat) (nx : option nat) : option nat :=
  match hd_error l with Some y => Some y | None => nx end.

Definition prev_of (l : list nat) (pv : option nat) : option nat :=
  match last l with Some a => Some a | None => pv end.

Fixpoint chain (o : gmap nat ContFramePool) (pv : option nat) (l : list nat)
    (nx : option nat) : bool :=
  match l with
  | [] => true
  | x :: l' =>
      match o !! x with
      | Some p =>
          bool_decide (prev p = pv) && bool_decide (next p = next_of l' nx)
          && chain o (Some x) l' nx
      | None => false
      end
  end.

(** The doubly linked list from [head] to [tail] holds exactly the pools [l]. *)
Definition is_registry (st : machine) (l : list nat) : bool :=
  bool_decide (NoDup l) && bool_decide (head st = hd_error l)
  && bool_decide (tail st = last l) && chain (objs st) None l None.

(** The first pool of the list [l] whose range contains [f]. *)
Fixpoint owner (o : gmap nat ContFramePool) (l : list nat) (f : Z) : option nat :=
  match l with
  | [] => None
  | x :: l' =>
      match o !! x with
      | Some p => if in_pool p f then Some x else owner o l' f
      | None => None
      end
  end.

(** ** Well-formed pools *)

(** The range [[base_frame_no, base_frame_no + nframes)] of a pool consists
    of frame numbers that an [unsigned long] holds. *)
Definition pool_range_ok (p : ContFramePool) : Prop :=
  0 <= base_frame_no p /\ 0 <= nframes p /\ base_frame_no p + nframes p < 2 ^ 32.

(** No frame of the pool carries the reserved bit pattern. *)
Definition no_error (st : machine) (p : ContFramePool) : Prop :=
  forall i, 0 <= i < nframes p -> frame_state st p i <> Error.

(** ** Example states *)

(** Zeroed memory, no pool constructed yet. *)
Definition boot : machine := mkMachine (fun _ => 0) ∅ None None [].

(** Zeroed storage for a pool object. *)
Definition raw0 : ContFramePool := mkPool 0 0 0 0 0 None None.

(** A pool over the frames 100..109 that keeps its state array in frame 100
    (4096-byte frames): frame 100 is HoS, the other nine are Free. *)
Definition demo_pool : ContFramePool := mkPool 100 10 9 0 409600 None None.

Definition demo : machine :=
  mkMachine (set_state (fun _ => 0) 409600 0 HoS) {[1%nat := demo_pool]}
            (Some 1%nat) (Some 1%nat) [].

(** Sequencing of calls: the next call runs on the result of the previous
    one, a failure ends the run. *)
Definition and_then {A B : Type} (r : result A) (k : A -> result B) : result B :=
  match r with
  | Done a => k a
  | AssertFailed => AssertFailed
  | BadPointer => BadPointer
  | OutOfFuel => OutOfFuel
  end.

(** What an observer sees of the pool at [this]: the states of its frames in
    order, and its free counter. *)
Definition frame_states (st : machine) (p : ContFramePool) (k : nat) : list FrameState :=
  map (fun i => frame_state st p (Z.of_nat i)) (seq 0 k).

Definition pool_view (st : machine) (this : nat) : option (list FrameState * Z) :=
  match objs st !! this with
  | Some p => Some (frame_states st p (Z.to_nat (nframes p)), nFreeFrames p)
  | None => None
  end.

(** The pool of [demo] after three calls: one frame allocated (101), two
    frames allocated (102, 103), the first allocation released. *)
Definition fragmented : result machine :=
  and_then (get_frames 20 1 1 demo) (fun '(_, s1) =>
  and_then (get_frames 20 1 2 s1) (fun '(_, s2) =>
  release_frames 5 101 s2)).

(** Memory as it may be before the kernel has written to it: every byte 0xFF. *)
Definition dirty : machine := mkMachine (fun _ => 255) ∅ None None [].

(** The pool of [demo] after the first two of these calls. *)
Definition two_runs : result machine :=
  and_then (get_frames 20 1 1 demo) (fun '(_, s1) =>
  and_then (get_frames 20 1 2 s1) (fun '(_, s2) => Done s2)).

(** ** The diagnostic checker *)

(** What [check_freed_frames] prints for a frame that is not [Free]. *)
Definition not_freed_report (p : ContFramePool) (frame : Z) : list console_event :=
  [puts ("FRAME NOT FREED PROPERLY" ++ nl); puts "Frame number: ";
   puti (wrap (frame + base_frame_no p)); puts nl].

(** The inner loop [while (frame < end)]: [count] is [end - frame]. *)
Fixpoint check_run (count : nat) (m : memory) (p : ContFramePool) (frame : Z)
    (out : list console_event) : list console_event :=
  match count with
  | O => out
  | S k =>
      let '(s, out1) := get_state m (bitmap p) frame out in
      let out' :=
        if negb (FrameState_eqb s Free)
        then out1 ++ not_freed_report p frame
        else out1 in
      check_run k m p (wrap (frame + 1)) out'
  end.

(** The body of the [if] that found the pool; it ends in [break]. *)
Definition check_at (p : ContFramePool) (_first_frame_no _frame_allocated_size : Z)
    (st : machine) : machine :=
  let frame := wrap (_first_frame_no - base_frame_no p) in
  let end_ := wrap (frame + _frame_allocated_size) in
  mkMachine (mem st) (objs st) (head st) (tail st)
            (check_run (Z.to_nat (end_ - frame)) (mem st) p frame (console st)).

Fixpoint check_walk (fuel : nat) (temp : option nat)
    (_first_frame_no _frame_allocated_size : Z) (st : machine) : result machine :=
  match temp with
  | None => Done st
  | Some t =>
      match fuel with
      | O => OutOfFuel
      | S k =>
          match objs st !! t with
          | None => BadPointer
          | Some p =>
              if in_pool p _first_frame_no
              then Done (check_at p _first_frame_no _frame_allocated_size st)
              else check_walk k (next p) _first_frame_no _frame_allocated_size st
          end
      end
  end.

Definition check_freed_frames (fuel : nat) (_first_frame_no _frame_allocated_size : Z)
    (st : machine) : result machine :=
  check_walk fuel (head st) _first_frame_no _frame_allocated_size st.

(** ** Notions used to state what the operations do *)

(** What a call of [get_state] prints for a frame in the state [s]. *)
Definition error_events (s : FrameState) : list console_event :=
  match s with Error => [invalid_state_line] | _ => [] end.

(** What [check_freed_frames] prints for a frame that is not [Free]: its
    report, after the line of [get_state] when the frame holds the reserved
    pattern. *)
Definition frame_report (p : ContFramePool) (m : memory) (frame : Z)
    : list console_event :=
  error_events (state_at m (bitmap p) frame) ++ not_freed_report p frame.

(** What the test [get_state(f) == Used || get_state(f) == HoS] prints for a
    frame in the state [s]: both calls are made for the reserved pattern. *)
Definition test_events (s : FrameState) : list console_event :=
  match s with Error => [invalid_state_line; invalid_state_line] | _ => [] end.

(** What one round of the [for] loop of [get_frames] prints for a frame that
    was in the state [s]: the warning for a frame in use; for the reserved
    pattern, the line of [get_state] once for each of the two calls. *)
Definition overwrite_events (s : FrameState) : list console_event :=
  match s with
  | Free => []
  | Used | HoS => [overwrite_warning]
  | Error => [invalid_state_line; invalid_state_line]
  end.

(** The frames among [frame .. frame + count - 1] whose state is not [Free]. *)
Definition not_free_frames (m : memory) (bm frame : Z) (count : Z) : list Z :=
  List.filter (fun i => negb (FrameState_eqb (state_at m bm i) Free))
              (seqZ frame count).

(** What the [for] loop of [get_frames] prints for the [count] frames from
    [frame] on, as their states are in [m]. *)
Definition overwrite_trace (m : memory) (bm frame count : Z) : list console_event :=
  flat_map (fun i => overwrite_events (state_at m bm i)) (seqZ frame count).

(** The state arrays of two pools share no byte. *)
Definition arrays_disjoint (p q : ContFramePool) : Prop :=
  bitmap p + (nframes p + 3) / 4 <= bitmap q
  \/ bitmap q + (nframes q + 3) / 4 <= bitmap p.

(** What a pool object holds besides its registry links. *)
Definition payload (p : ContFramePool) : Z * Z * Z * Z * Z :=
  (base_frame_no p, nframes p, nFreeFrames p, info_frame_no p, bitmap p).

(** The pool of [demo] with the reserved pattern 11 in the field of its
    frame 105 (bits 2 and 3 of the second byte of the state array). *)
Definition tainted : machine :=
  mkMachine (store (mem demo) 409601 12) (objs demo) (head demo) (tail demo) [].

(** The pool of [demo] after an allocation of three frames: frame 101 is
    HoS, 102 and 103 are Used, six frames are left. *)
Definition busy_pool : ContFramePool := mkPool 100 10 6 0 409600 None None.

Definition busy : machine :=
  mkMachine (set_state (set_state (set_state (mem demo) 409600 1 HoS) 409600 2 Used)
                       409600 3 Used)
            {[1%nat := busy_pool]} (Some 1%nat) (Some 1%nat) [].

(** The pool of [demo] with a hole: frame 101 is Free, frame 102 is HoS and
    frame 103 is Used; seven frames are Free. *)
Definition gap_pool : ContFramePool := mkPool 100 10 7 0 409600 None None.

Definition gap : machine :=
  mkMachine (set_state (set_state (mem demo) 409600 2 HoS) 409600 3 Used)
            {[1%nat := gap_pool]} (Some 1%nat) (Some 1%nat) [].

(** Two pools, over the frames 100..109 and 200..209, each with its state
    array in its first frame, registered in this order. *)
Definition duo : machine :=
  mkMachine (set_state (set_state (fun _ => 0) 409600 0 HoS) 819200 0 HoS)
            (<[2%nat := mkPool 200 10 9 0 819200 None (Some 1%nat)]>
               {[1%nat := mkPool 100 10 9 0 409600 (Some 2%nat) None]})
            (Some 1%nat) (Some 2%nat) [].
(** ** Bit-level facts about the codec *)

Section CodecFacts.

Lemma frame_pos_cases (f : Z) :
  (f mod 4) * 2 = 0 \/ (f mod 4) * 2 = 2 \/ (f mod 4) * 2 = 4 \/ (f mod 4) * 2 = 6.
Proof. pose proof (Z.mod_pos_bound f 4). lia. Qed.

Lemma testbit_3 (n : Z) : Z.testbit 3 n = (n =? 0) || (n =? 1).
Proof.
  destruct (Z.ltb_spec n 0) as [Hn | Hn].
  - rewrite Z.testbit_neg_r by lia.
    destruct (Z.eqb_spec n 0), (Z.eqb_spec n 1); simpl; lia.
  - destruct (Z.eq_dec n 0) as [-> | H0]; [reflexivity |].
    destruct (Z.eq_dec n 1) as [-> | H1]; [reflexivity |].
    rewrite (Z.bits_above_log2 3 n) by (simpl; lia).
    destruct (Z.eqb_spec n 0), (Z.eqb_spec n 1); simpl; lia.
Qed.

(** The field is determined by two bits of the byte. *)
Lemma land3_bits (x : Z) :
  Z.land x 3 = Z.b2z (Z.testbit x 0) + 2 * Z.b2z (Z.testbit x 1).
Proof.
  change 3 with (Z.ones 2). rewrite Z.land_ones by lia.
  change (2 ^ 2) with (2 * 2).
  rewrite Z.rem_mul_r by lia.
  rewrite <- (Z.bit0_mod x).
  replace (x / 2) with (Z.shiftr x 1) by (rewrite Z.shiftr_div_pow2 by lia; reflexivity).
  rewrite <- (Z.bit0_mod (Z.shiftr x 1)).
  rewrite Z.shiftr_spec by lia. reflexivity.
Qed.

Lemma field_bits (m : memory) (b f : Z) :
  field m b f =
    Z.b2z (Z.testbit (m (b + f / 4)) ((f mod 4) * 2))
    + 2 * Z.b2z (Z.testbit (m (b + f / 4)) ((f mod 4) * 2 + 1)).
Proof.
  unfold field. cbv zeta. rewrite land3_bits.
  pose proof (Z.mod_pos_bound f 4).
  rewrite !Z.shiftr_spec by lia.
  rewrite Z.add_0_l, (Z.add_comm 1). reflexivity.
Qed.

Lemma field_range (m : memory) (b f : Z) : 0 <= field m b f <= 3.
Proof.
  rewrite field_bits.
  destruct (Z.testbit _ _), (Z.testbit _ _); simpl; lia.
Qed.

End CodecFacts.

Section CodecWrite.

Lemma written_bit (B pos v k : Z) :
  pos = 0 \/ pos = 2 \/ pos = 4 \/ pos = 6 ->
  0 <= v < 4 ->
  0 <= k < 8 ->
  Z.testbit (written B pos v) k =
    if (pos <=? k) && (k <? pos + 2) then Z.testbit v (k - pos) else Z.testbit B k.
Proof.
  intros Hpos Hv Hk. unfold written, wrap8.
  rewrite (Z.mod_pow2_bits_low _ 8 k) by lia.
  rewrite Z.lor_spec, Z.land_spec, Z.lnot_spec by lia.
  rewrite Z.shiftl_spec by lia.
  assert (Hm : Z.shiftl 3 pos mod 2 ^ 8 = Z.shiftl 3 pos)
    by (destruct Hpos as [-> | [-> | [-> | ->]]]; reflexivity).
  rewrite Hm, Z.shiftl_spec, testbit_3 by lia.
  destruct (Z.leb_spec pos k), (Z.ltb_spec k (pos + 2)); simpl.
  - assert (Hc : k - pos = 0 \/ k - pos = 1) by lia.
    destruct Hc as [-> | ->]; simpl; rewrite andb_false_r; reflexivity.
  - destruct (Z.eqb_spec (k - pos) 0), (Z.eqb_spec (k - pos) 1); try lia. simpl.
    rewrite andb_true_r.
    assert (Hhi : Z.testbit v (k - pos) = false).
    { destruct (Z.eq_dec v 0) as [-> | Hv0]; [apply Z.bits_0 |].
      apply Z.bits_above_log2; [lia |].
      assert (Z.log2 v < 2) by (apply Z.log2_lt_pow2; simpl; lia). lia. }
    rewrite Hhi. apply orb_false_r.
  - rewrite (Z.testbit_neg_r v) by lia.
    destruct (Z.eqb_spec (k - pos) 0), (Z.eqb_spec (k - pos) 1); try lia. simpl.
    rewrite andb_true_r. apply orb_false_r.
  - lia.
Qed.

End CodecWrite.

Section CodecLaws.

Implicit Types (m : memory) (b f g : Z) (s : FrameState).

Lemma store_same m a v : store m a v a = v.
Proof. unfold store. rewrite Z.eqb_refl. reflexivity. Qed.

Lemma store_other m a v x : x <> a -> store m a v x = m x.
Proof. unfold store. intros H. destruct (Z.eqb_spec x a); [contradiction | reflexivity]. Qed.

Lemma encode_range s : 0 <= encode s < 4.
Proof. destruct s; simpl; lia. Qed.

(** Every case of the [switch] but the missing one stores [written]. *)
Lemma set_state_written m b f s :
  s <> Error ->
  set_state m b f s =
    store m (b + f / 4) (written (m (b + f / 4)) ((f mod 4) * 2) (encode s)).
Proof.
  intros Hs. unfold set_state, written. cbv zeta.
  destruct s; try contradiction; simpl encode; try reflexivity.
  rewrite Z.shiftl_0_l, Z.lor_0_r. reflexivity.
Qed.

Lemma set_state_Error m b f : set_state m b f Error = m.
Proof. reflexivity. Qed.

(** Only the byte that contains the frame's field is written. *)
Lemma set_state_other_byte m b f s a :
  a <> b + f / 4 -> set_state m b f s a = m a.
Proof.
  intros Ha. destruct s; unfold set_state; cbv zeta;
    try reflexivity; apply store_other; assumption.
Qed.

Lemma field_cases m b f :
  field m b f = 0 \/ field m b f = 1 \/ field m b f = 2 \/ field m b f = 3.
Proof. pose proof (field_range m b f). lia. Qed.

Lemma state_at_decode m b f :
  state_at m b f =
    match field m b f with 0 => Free | 1 => Used | 2 => HoS | _ => Error end.
Proof.
  unfold state_at, get_state. cbv zeta.
  destruct (field_cases m b f) as [-> | [-> | [-> | ->]]]; reflexivity.
Qed.

Lemma state_at_encode m b f : encode (state_at m b f) = field m b f.
Proof.
  rewrite state_at_decode.
  destruct (field_cases m b f) as [-> | [-> | [-> | ->]]]; reflexivity.
Qed.

(** A call of [get_state] returns the state of the frame, and prints its
    line when that state is [Error]. *)
Lemma get_state_eq m b f out :
  get_state m b f out = (state_at m b f, out ++ error_events (state_at m b f)).
Proof.
  rewrite state_at_decode. unfold get_state. cbv zeta.
  destruct (field_cases m b f) as [-> | [-> | [-> | ->]]];
    cbn [error_events]; rewrite ?app_nil_r; reflexivity.
Qed.

Lemma get_state_fst m b f out : fst (get_state m b f out) = state_at m b f.
Proof. rewrite get_state_eq. reflexivity. Qed.

Lemma get_state_valid m b f out s :
  state_at m b f = s -> s <> Error -> get_state m b f out = (s, out).
Proof.
  intros <- Hs. rewrite get_state_eq.
  destruct (state_at m b f); try contradiction; cbn [error_events];
    rewrite app_nil_r; reflexivity.
Qed.

Lemma field_set_same m b f s :
  s <> Error -> field (set_state m b f s) b f = encode s.
Proof.
  intros Hs. rewrite field_bits, set_state_written, store_same by assumption.
  pose proof (frame_pos_cases f) as Hpos.
  rewrite !written_bit by (auto using encode_range; lia).
  replace ((f mod 4) * 2 <=? (f mod 4) * 2) with true by (symmetry; apply Z.leb_le; lia).
  replace ((f mod 4) * 2 <? (f mod 4) * 2 + 2) with true by (symmetry; apply Z.ltb_lt; lia).
  replace ((f mod 4) * 2 <=? (f mod 4) * 2 + 1) with true by (symmetry; apply Z.leb_le; lia).
  replace ((f mod 4) * 2 + 1 <? (f mod 4) * 2 + 2) with true by (symmetry; apply Z.ltb_lt; lia).
  simpl andb. cbv iota.
  replace ((f mod 4) * 2 - (f mod 4) * 2) with 0 by lia.
  replace ((f mod 4) * 2 + 1 - (f mod 4) * 2) with 1 by lia.
  destruct s; try contradiction; reflexivity.
Qed.

Lemma field_set_other m b f g s :
  g <> f -> field (set_state m b f s) b g = field m b g.
Proof.
  intros Hne.
  destruct (FrameState_eqb s Error) eqn:Hs.
  { destruct s; try discriminate. reflexivity. }
  assert (Hs' : s <> Error) by (intros ->; discriminate).
  rewrite !field_bits.
  destruct (Z.eq_dec (g / 4) (f / 4)) as [Hq | Hq].
  - rewrite set_state_written by assumption. rewrite Hq, store_same.
    pose proof (frame_pos_cases f) as Hpf. pose proof (frame_pos_cases g) as Hpg.
    assert (Hm : g mod 4 <> f mod 4).
    { intros Hm. apply Hne.
      rewrite (Z.div_mod g 4), (Z.div_mod f 4) by lia. congruence. }
    rewrite !written_bit by (auto using encode_range; lia).
    replace (((f mod 4) * 2 <=? (g mod 4) * 2) && ((g mod 4) * 2 <? (f mod 4) * 2 + 2))
      with false by (symmetry; apply andb_false_iff; rewrite Z.leb_gt, Z.ltb_ge; lia).
    replace (((f mod 4) * 2 <=? (g mod 4) * 2 + 1) && ((g mod 4) * 2 + 1 <? (f mod 4) * 2 + 2))
      with false by (symmetry; apply andb_false_iff; rewrite Z.leb_gt, Z.ltb_ge; lia).
    reflexivity.
  - rewrite set_state_other_byte by lia. reflexivity.
Qed.

Lemma state_at_set_same m b f s :
  s <> Error -> state_at (set_state m b f s) b f = s.
Proof.
  intros Hs. rewrite state_at_decode, field_set_same by assumption.
  destruct s; try contradiction; reflexivity.
Qed.

Lemma state_at_set_other m b f g s :
  g <> f -> state_at (set_state m b f s) b g = state_at m b g.
Proof. intros H. rewrite !state_at_decode, field_set_other by assumption. reflexivity. Qed.

End CodecLaws.

(** ** The codec contract *)

(** C9.  After [set_state f s] with [s] one of Free, Used (allocated) and HoS,
    [get_state f] returns [s] (and prints nothing), the two bits of the frame
    holding the pattern 00, 01 or 10 of the encoding (11 decodes to Error);
    for every other frame [g] of the same array [get_state] returns and
    prints what it did before, and every byte but the one that holds the
    field of [f] is unchanged; the pattern 11 is never written, and
    [set_state] with the Error value leaves the whole array as it was. *)
Theorem set_state_get_state (m : memory) (b f : Z) (s : FrameState) :
  (s <> Error ->
     (forall out, get_state (set_state m b f s) b f out = (s, out))
     /\ field (set_state m b f s) b f = encode s
     /\ field (set_state m b f s) b f <> 3)
  /\ (forall g out, g <> f ->
        get_state (set_state m b f s) b g out = get_state m b g out)
  /\ (forall a, a <> b + f / 4 -> set_state m b f s a = m a)
  /\ (forall g out, encode (fst (get_state m b g out)) = field m b g)
  /\ (encode Free = 0 /\ encode Used = 1 /\ encode HoS = 2 /\ encode Error = 3)
  /\ set_state m b f Error = m.
Proof.
  split; [| split; [| split; [| split; [| split]]]].
  - intros Hs. split; [| split].
    + intros out. apply get_state_valid; [apply state_at_set_same, Hs | exact Hs].
    + apply field_set_same, Hs.
    + rewrite field_set_same by assumption. destruct s; simpl; congruence.
  - intros g out Hg. rewrite !get_state_eq, state_at_set_other by assumption.
    reflexivity.
  - intros a Ha. apply set_state_other_byte, Ha.
  - intros g out. rewrite get_state_fst. apply state_at_encode.
  - repeat split.
  - reflexivity.
Qed.

(** ** Sizing *)

(** [lia] with the word size written out. *)
Ltac word_lia := change (2 ^ 32) with 4294967296 in *; lia.

Section Sizing.

Lemma wrap_small (x : Z) : 0 <= x < 2 ^ 32 -> wrap x = x.
Proof. intros H. unfold wrap. apply Z.mod_small, H. Qed.

Lemma wrap_range (x : Z) : 0 <= wrap x < 2 ^ 32.
Proof. unfold wrap. apply Z.mod_pos_bound. reflexivity. Qed.

Lemma ceiling_div_floor (a b : Z) : 0 < b -> ceiling_div a b = (a + b - 1) / b.
Proof.
  intros Hb. unfold ceiling_div, Qceiling. simpl.
  rewrite Z2Pos.id by assumption.
  Z.div_mod_to_equations. nia.
Qed.

Lemma ceiling_div_least (a b : Z) :
  0 < b -> a <= ceiling_div a b * b /\ (ceiling_div a b - 1) * b < a.
Proof.
  intros Hb. rewrite ceiling_div_floor by assumption.
  Z.div_mod_to_equations. nia.
Qed.

Lemma needed_info_frames_no_wrap (FRAME_SIZE n : Z) :
  0 < FRAME_SIZE ->
  FRAME_SIZE * 8 < 2 ^ 32 ->
  0 <= n ->
  n * 2 + FRAME_SIZE * 8 - 1 < 2 ^ 32 ->
  needed_info_frames FRAME_SIZE n = (n * 2 + FRAME_SIZE * 8 - 1) / (FRAME_SIZE * 8).
Proof.
  intros HF HF' Hn Hfit. unfold needed_info_frames. cbv zeta.
  rewrite (wrap_small (FRAME_SIZE * 8)) by word_lia.
  rewrite wrap_small by word_lia. reflexivity.
Qed.

End Sizing.

(** C10, as the code has it.  As long as [FRAME_SIZE * 8] and
    [n * 2 + FRAME_SIZE * 8 - 1] fit in an [unsigned long],
    [needed_info_frames n] is the ceiling of
    [n * 2 / (FRAME_SIZE * 8)], which is the least number of whole frames
    whose bits hold [n] two-bit states, and the function is monotone on
    that range. *)
Theorem needed_info_frames_ceiling (FRAME_SIZE n : Z) :
  0 < FRAME_SIZE ->
  FRAME_SIZE * 8 < 2 ^ 32 ->
  0 <= n ->
  n * 2 + FRAME_SIZE * 8 - 1 < 2 ^ 32 ->
  needed_info_frames FRAME_SIZE n = ceiling_div (n * 2) (FRAME_SIZE * 8)
  /\ n * 2 <= needed_info_frames FRAME_SIZE n * (FRAME_SIZE * 8)
  /\ (needed_info_frames FRAME_SIZE n - 1) * (FRAME_SIZE * 8) < n * 2
  /\ (forall n', 0 <= n' <= n ->
        needed_info_frames FRAME_SIZE n' <= needed_info_frames FRAME_SIZE n).
Proof.
  intros HF HF' Hn Hfit.
  assert (Hb : 0 < FRAME_SIZE * 8) by lia.
  pose proof (ceiling_div_least (n * 2) (FRAME_SIZE * 8) Hb) as [Hle Hlt].
  rewrite needed_info_frames_no_wrap by assumption.
  rewrite <- ceiling_div_floor by assumption.
  repeat split; try assumption.
  intros n' Hn'.
  rewrite needed_info_frames_no_wrap by word_lia.
  rewrite ceiling_div_floor by assumption.
  apply Z.div_le_mono; lia.
Qed.

Lemma needed_info_frames_ceiling_witness :
  needed_info_frames 4096 16385 = ceiling_div (16385 * 2) (4096 * 8)
  /\ 16385 * 2 <= needed_info_frames 4096 16385 * (4096 * 8)
  /\ (needed_info_frames 4096 16385 - 1) * (4096 * 8) < 16385 * 2
  /\ (forall n', 0 <= n' <= 16385 ->
        needed_info_frames 4096 n' <= needed_info_frames 4096 16385).
Proof.
  apply (needed_info_frames_ceiling 4096 16385);
    [lia | vm_compute; reflexivity | lia | vm_compute; reflexivity].
Defined.

(** C10 as stated fails where the arithmetic wraps around: with 4096-byte
    frames, [2 ^ 31] frames need 131072 info frames, and the code answers 0,
    less than its answer for a single frame.  (With a 64-bit [unsigned long]
    the same happens at [2 ^ 63] frames.) *)
Lemma needed_info_frames_wraps :
  needed_info_frames 4096 (2 ^ 31) = 0
  /\ ceiling_div (2 ^ 31 * 2) (4096 * 8) = 131072
  /\ needed_info_frames 4096 1 = 1
  /\ needed_info_frames_lp64 4096 (2 ^ 63) = 0
  /\ ceiling_div (2 ^ 63 * 2) (4096 * 8) = 2 ^ 49
  /\ needed_info_frames_lp64 4096 1 = 1.
Proof. vm_compute. repeat split. Qed.

(** ** Allocation: the first-fit scan *)

Section Allocation.

Implicit Types (m : memory) (bm : Z).

#[local] Opaque set_state state_at get_state.

Lemma wrap_sub_l (a b : Z) : wrap (wrap a - b) = wrap (a - b).
Proof. unfold wrap. apply Zminus_mod_idemp_l. Qed.

Lemma wrap_add_l (a b : Z) : wrap (wrap a + b) = wrap (a + b).
Proof. unfold wrap. apply Zplus_mod_idemp_l. Qed.

(** The test of the two loops, by the state of the frame: what it yields
    and what it prints. *)
Lemma in_use_eq m bm f out :
  in_use m bm f out =
    (match state_at m bm f with Used | HoS => true | _ => false end,
     out ++ test_events (state_at m bm f)).
Proof.
  unfold in_use. rewrite get_state_eq. cbv beta iota.
  destruct (FrameState_eqb (state_at m bm f) Used) eqn:Hu.
  - destruct (state_at m bm f); try discriminate.
    cbn [error_events test_events]. rewrite !app_nil_r. reflexivity.
  - rewrite get_state_eq. cbv beta iota.
    destruct (state_at m bm f); try discriminate;
      cbn [FrameState_eqb error_events test_events];
      rewrite ?app_nil_r, <- ?app_assoc; reflexivity.
Qed.

(** One round of each loop of [get_frames]. *)
Lemma scan_S k m bm f out :
  scan (S k) m bm f out =
    match state_at m bm f with
    | Used | HoS => scan k m bm (wrap (f + 1)) out
    | s => Some (f, out ++ test_events s)
    end.
Proof.
  cbn [scan]. rewrite in_use_eq.
  destruct (state_at m bm f); cbn [test_events]; rewrite ?app_nil_r; reflexivity.
Qed.

Lemma mark_used_S k m bm f nfree out :
  mark_used (S k) m bm f nfree out =
    mark_used k (set_state m bm f Used) bm (wrap (f + 1)) (wrap (nfree - 1))
              (out ++ overwrite_events (state_at m bm f)).
Proof.
  cbn [mark_used]. rewrite in_use_eq.
  destruct (state_at m bm f); cbn [test_events overwrite_events];
    rewrite ?app_nil_r; reflexivity.
Qed.

(** The scan stops at the first frame that is neither [Used] nor [HoS]. *)
Lemma scan_finds (d : nat) : forall fuel m bm s h out,
  0 <= s -> h < 2 ^ 32 ->
  h = s + Z.of_nat d ->
  (forall i, s <= i < h -> state_at m bm i = Used \/ state_at m bm i = HoS) ->
  state_at m bm h = Free ->
  (d < fuel)%nat ->
  scan fuel m bm s out = Some (h, out).
Proof.
  induction d as [| d IH]; intros fuel m bm s h out Hs Hh Hd Hbusy Hfree Hfuel.
  - destruct fuel as [| k]; [lia |]. rewrite scan_S.
    replace s with h by lia. rewrite Hfree. cbn [test_events].
    rewrite app_nil_r. reflexivity.
  - destruct fuel as [| k]; [lia |]. rewrite scan_S.
    assert (Hs' : wrap (s + 1) = s + 1) by (apply wrap_small; word_lia).
    destruct (Hbusy s ltac:(lia)) as [-> | ->]; rewrite Hs';
      apply IH; try lia; try assumption; intros i Hi; apply Hbusy; lia.
Qed.

(** The marking loop, frame by frame. *)
Lemma mark_used_spec (k : nat) : forall m bm j nfree out m' nfree' out',
  0 <= j -> j + Z.of_nat k <= 2 ^ 32 ->
  0 <= nfree < 2 ^ 32 ->
  mark_used k m bm j nfree out = (m', nfree', out') ->
  (forall i, j <= i < j + Z.of_nat k -> state_at m' bm i = Used)
  /\ (forall i, i < j \/ j + Z.of_nat k <= i -> state_at m' bm i = state_at m bm i)
  /\ nfree' = wrap (nfree - Z.of_nat k)
  /\ ((forall i, j <= i < j + Z.of_nat k -> state_at m bm i = Free) -> out' = out).
Proof.
  induction k as [| k IH]; intros m bm j nfree out m' nfree' out' Hj Hk Hn Hrun.
  - cbn [mark_used] in Hrun. injection Hrun as <- <- <-.
    split; [| split; [| split]].
    + intros i Hi. lia.
    + reflexivity.
    + rewrite Z.sub_0_r. symmetry. apply wrap_small. assumption.
    + reflexivity.
  - rewrite mark_used_S in Hrun.
    destruct (Z.eq_dec (j + 1) (2 ^ 32)) as [Hlast | Hlast].
    + (* the frame marked is the last one an index can name *)
      assert (k = 0%nat) by lia. subst k. cbn [mark_used] in Hrun. injection Hrun as <- <- <-.
      split; [| split; [| split]].
      * intros i Hi. replace i with j by lia. apply state_at_set_same. discriminate.
      * intros i Hi. apply state_at_set_other. lia.
      * reflexivity.
      * intros Hfree. rewrite (Hfree j) by lia. apply app_nil_r.
    + rewrite (wrap_small (j + 1)) in Hrun by word_lia.
      apply IH in Hrun; [| lia | lia | apply wrap_range].
      destruct Hrun as (Hused & Hother & Hcount & Hout).
      split; [| split; [| split]].
      * intros i Hi. destruct (Z.eq_dec i j) as [-> | Hne].
        -- rewrite Hother by lia. apply state_at_set_same. discriminate.
        -- apply Hused. lia.
      * intros i Hi. rewrite Hother by lia. apply state_at_set_other. lia.
      * rewrite Hcount, wrap_sub_l. f_equal. lia.
      * intros Hfree. rewrite Hout.
        -- rewrite (Hfree j) by lia. apply app_nil_r.
        -- intros i Hi. rewrite state_at_set_other by lia. apply Hfree. lia.
Qed.

(** [get_frames] on a pool whose first Free frame [h] begins a run of [n]
    Free frames: the whole effect of the call. *)
Lemma get_frames_run (fuel this : nat) (st : machine) (p : ContFramePool) (n h : Z) :
  objs st !! this = Some p ->
  pool_range_ok p ->
  no_error st p ->
  0 < nFreeFrames p < 2 ^ 32 ->
  1 <= n ->
  0 <= h ->
  h + n <= nframes p ->
  (forall i, 0 <= i < h -> frame_state st p i <> Free) ->
  (forall j, h <= j < h + n -> frame_state st p j = Free) ->
  (Z.to_nat h < fuel)%nat ->
  exists m',
    get_frames fuel this n st =
      Done (h + base_frame_no p,
            mkMachine m' (<[this := set_nFreeFrames (wrap (nFreeFrames p - n)) p]> (objs st))
                      (head st) (tail st) (console st))
    /\ state_at m' (bitmap p) h = HoS
    /\ (forall j, h < j < h + n -> state_at m' (bitmap p) j = Used)
    /\ (forall i, i < h \/ h + n <= i ->
          state_at m' (bitmap p) i = state_at (mem st) (bitmap p) i).
Proof.
  intros Hobj (Hbase & Hnf & Hrange) Hclean Hfree Hn Hh Hfit Hfirst Hrun Hfuel.
  unfold frame_state in *.
  assert (Hscan : scan fuel (mem st) (bitmap p) 0 (console st) = Some (h, console st)).
  { apply (scan_finds (Z.to_nat h)); try lia.
    - intros i Hi. specialize (Hfirst i Hi).
      assert (Hc : state_at (mem st) (bitmap p) i <> Error) by (apply Hclean; lia).
      destruct (state_at (mem st) (bitmap p) i); auto; contradiction.
    - apply Hrun. lia. }
  unfold get_frames. rewrite Hobj.
  replace (0 <? nFreeFrames p) with true by (symmetry; apply Z.ltb_lt; lia).
  cbn [negb]. rewrite Hscan.
  rewrite (wrap_small (n - 1)) by word_lia.
  destruct (mark_used (Z.to_nat (n - 1)) (set_state (mem st) (bitmap p) h HoS)
              (bitmap p) (wrap (h + 1)) (wrap (nFreeFrames p - 1)) (console st))
    as [[m2 nfree] out] eqn:Hmark.
  rewrite (wrap_small (h + 1)) in Hmark by word_lia.
  apply mark_used_spec in Hmark; [| lia | lia | apply wrap_range].
  rewrite Z2Nat.id in Hmark by lia.
  destruct Hmark as (Hused & Hother & Hcount & Hout).
  assert (Hcnt : nfree = wrap (nFreeFrames p - n)).
  { rewrite Hcount, wrap_sub_l. f_equal. lia. }
  assert (Hquiet : out = console st).
  { apply Hout. intros i Hi. rewrite state_at_set_other by lia. apply Hrun. lia. }
  exists m2. rewrite (wrap_small (h + base_frame_no p)) by word_lia.
  rewrite Hcnt, Hquiet. split; [reflexivity |]. split; [| split].
  - rewrite Hother by lia. apply state_at_set_same. discriminate.
  - intros j Hj. apply Hused. lia.
  - intros i Hi. rewrite Hother by lia. apply state_at_set_other. lia.
Qed.

(** C1.  In a pool that counts at least one free frame, whose first Free
    frame [h] begins a run of [n >= 1] Free frames inside the pool,
    [get_frames n] scans from index 0 to [h], leaves [h] HoS and the [n - 1]
    frames after it Used (the only HoS frame of the run is [h]), touches no
    other frame, returns [h + base_frame_no], and takes [n] off
    [nFreeFrames] (in [unsigned long] arithmetic: exactly [n] less whenever
    the counter is at least [n]). *)
Theorem get_frames_first_fit (fuel this : nat) (st : machine) (p : ContFramePool)
    (n h : Z) :
  objs st !! this = Some p ->
  pool_range_ok p ->
  no_error st p ->
  0 < nFreeFrames p < 2 ^ 32 ->
  1 <= n ->
  0 <= h ->
  h + n <= nframes p ->
  (forall i, 0 <= i < h -> frame_state st p i <> Free) ->
  (forall j, h <= j < h + n -> frame_state st p j = Free) ->
  (Z.to_nat h < fuel)%nat ->
  exists st' p',
    get_frames fuel this n st = Done (h + base_frame_no p, st')
    /\ objs st' !! this = Some p'
    /\ frame_state st' p' h = HoS
    /\ (forall j, h < j < h + n -> frame_state st' p' j = Used)
    /\ (forall i, i < h \/ h + n <= i -> frame_state st' p' i = frame_state st p i)
    /\ nFreeFrames p' = wrap (nFreeFrames p - n)
    /\ (n <= nFreeFrames p -> nFreeFrames p' = nFreeFrames p - n)
    /\ base_frame_no p' = base_frame_no p /\ nframes p' = nframes p
    /\ bitmap p' = bitmap p
    /\ head st' = head st /\ tail st' = tail st /\ console st' = console st.
Proof.
  intros Hobj Hok Hclean Hfree Hn Hh Hfit Hfirst Hrun Hfuel.
  destruct (get_frames_run fuel this st p n h) as (m' & Hcall & Hhead & Hused & Hother);
    try assumption.
  eexists. eexists. split; [exact Hcall |].
  split; [cbn [objs]; apply lookup_insert_eq |].
  unfold frame_state.
  cbn [mem objs head tail console set_nFreeFrames nFreeFrames bitmap base_frame_no nframes].
  repeat split; try assumption.
  intros Hle. apply wrap_small. lia.
Qed.

End Allocation.

(** Case analysis on a frame index of a small pool. *)
Ltac frame_cases i H :=
  let Hc := fresh "Hc" in
  assert (Hc : i = 0 \/ i = 1 \/ i = 2 \/ i = 3 \/ i = 4 \/ i = 5 \/ i = 6
               \/ i = 7 \/ i = 8 \/ i = 9) by lia;
  clear H;
  repeat (destruct Hc as [Hc | Hc]; [subst i |]); [.. | subst i].

Lemma get_frames_first_fit_witness :
  exists st', get_frames 20 1 3 demo = Done (101, st').
Proof.
  destruct (get_frames_first_fit 20 1 demo demo_pool 3 1) as (st' & p' & Hrun & _).
  - reflexivity.
  - unfold pool_range_ok. simpl. lia.
  - intros i Hi. simpl in Hi. frame_cases i Hi; vm_compute; discriminate.
  - simpl. lia.
  - lia.
  - lia.
  - simpl. lia.
  - intros i Hi. assert (i = 0) by lia. subst i. vm_compute. discriminate.
  - intros j Hj. assert (Hc : j = 1 \/ j = 2 \/ j = 3) by lia.
    destruct Hc as [-> | [-> | ->]]; vm_compute; reflexivity.
  - simpl. lia.
  - exists st'. exact Hrun.
Defined.

(** ** The registry walk *)

Section RegistryWalk.

Implicit Types (o : gmap nat ContFramePool) (l : list nat) (st : machine).

Lemma is_registry_unpack st l :
  is_registry st l = true ->
  NoDup l /\ head st = hd_error l /\ tail st = last l
  /\ chain (objs st) None l None = true.
Proof.
  unfold is_registry. rewrite !andb_true_iff, !bool_decide_eq_true. tauto.
Qed.

Lemma next_of_None l : next_of l None = hd_error l.
Proof. destruct l; reflexivity. Qed.

Lemma chain_cons o pv x l nx :
  chain o pv (x :: l) nx = true ->
  exists p, o !! x = Some p /\ prev p = pv /\ next p = next_of l nx
            /\ chain o (Some x) l nx = true.
Proof.
  cbn [chain]. destruct (o !! x) as [p |]; [| discriminate].
  rewrite !andb_true_iff, !bool_decide_eq_true. intros [[? ?] ?]. eauto.
Qed.

Lemma in_pool_range (p : ContFramePool) (f : Z) :
  pool_range_ok p ->
  in_pool p f = true <-> base_frame_no p <= f < base_frame_no p + nframes p.
Proof.
  intros (Hb & Hn & Hr). unfold in_pool.
  rewrite wrap_small by word_lia.
  rewrite andb_true_iff, Z.leb_le, Z.ltb_lt. tauto.
Qed.

(** On a well-linked list the lookup visits the pools in order and stops at
    the first one whose range contains the frame. *)
Lemma find_pool_chain l : forall o pv fuel f,
  chain o pv l None = true ->
  (length l <= fuel)%nat ->
  find_pool fuel (hd_error l) f o = Done (owner o l f).
Proof.
  induction l as [| x l IH]; intros o pv fuel f Hch Hfuel.
  - destruct fuel; reflexivity.
  - destruct (chain_cons _ _ _ _ _ Hch) as (p & Hx & _ & Hnext & Hrest).
    rewrite next_of_None in Hnext.
    destruct fuel as [| k]; [simpl in Hfuel; lia |].
    cbn [hd_error find_pool owner]. rewrite Hx.
    destruct (in_pool p f); [reflexivity |].
    rewrite Hnext. apply (IH o (Some x)); [assumption | simpl in Hfuel; lia].
Qed.

(** [release_frames] runs its body on the pool that the lookup finds. *)
Lemma release_walk_chain l : forall st pv fuel f,
  chain (objs st) pv l None = true ->
  (length l <= fuel)%nat ->
  release_walk fuel (hd_error l) f st =
    match owner (objs st) l f with
    | Some t => match objs st !! t with
                | Some p => release_at t p f st
                | None => BadPointer
                end
    | None => Done st
    end.
Proof.
  induction l as [| x l IH]; intros st pv fuel f Hch Hfuel.
  - destruct fuel; reflexivity.
  - destruct (chain_cons _ _ _ _ _ Hch) as (p & Hx & _ & Hnext & Hrest).
    rewrite next_of_None in Hnext.
    destruct fuel as [| k]; [simpl in Hfuel; lia |].
    cbn [hd_error release_walk owner]. rewrite Hx.
    destruct (in_pool p f).
    + rewrite Hx. reflexivity.
    + rewrite Hnext. apply (IH st (Some x)); [assumption | simpl in Hfuel; lia].
Qed.

Lemma owner_Some o l f t :
  owner o l f = Some t ->
  t ∈ l /\ exists p, o !! t = Some p /\ in_pool p f = true.
Proof.
  induction l as [| x l IH]; cbn [owner]; [discriminate |].
  destruct (o !! x) as [p |] eqn:Hx; [| discriminate].
  destruct (in_pool p f) eqn:Hin.
  - intros [= <-]. split; [left | eauto].
  - intros H. destruct (IH H) as [? ?]. split; [right; assumption | assumption].
Qed.

Lemma owner_None o pv l nx f :
  chain o pv l nx = true ->
  (forall t p, t ∈ l -> o !! t = Some p -> in_pool p f = false) ->
  owner o l f = None.
Proof.
  revert pv. induction l as [| x l IH]; intros pv Hch Hout; [reflexivity |].
  destruct (chain_cons _ _ _ _ _ Hch) as (p & Hx & _ & _ & Hrest).
  cbn [owner]. rewrite Hx.
  rewrite (Hout x p) by (try left; assumption).
  apply (IH (Some x)); [assumption |].
  intros t q Ht. apply Hout. right. assumption.
Qed.

End RegistryWalk.

(** ** The test on the first frame of a release *)

Section ReleaseHead.

#[local] Opaque set_state state_at get_state.

(** The first frame is not HoS: the report, after the line of [get_state]
    when the frame holds the reserved pattern. *)
Lemma release_at_not_head (t : nat) (p : ContFramePool) (f : Z) (st : machine) :
  state_at (mem st) (bitmap p) (wrap (f - base_frame_no p)) <> HoS ->
  release_at t p f st =
    Done (mkMachine (mem st) (objs st) (head st) (tail st)
            (console st
             ++ error_events (state_at (mem st) (bitmap p) (wrap (f - base_frame_no p)))
             ++ [puts "release_frames(): first frame not a Head-Of-Sequence"])).
Proof.
  intros Hs. unfold release_at. cbv zeta. rewrite get_state_eq. cbv beta iota.
  destruct (state_at (mem st) (bitmap p) (wrap (f - base_frame_no p)));
    try contradiction; cbn [FrameState_eqb negb]; rewrite <- app_assoc; reflexivity.
Qed.

(** The first frame is HoS: the test prints nothing and the release runs. *)
Lemma release_at_head (t : nat) (p : ContFramePool) (f : Z) (st : machine) :
  state_at (mem st) (bitmap p) (wrap (f - base_frame_no p)) = HoS ->
  release_at t p f st =
    let frame := wrap (f - base_frame_no p) in
    let out1 := console st ++ [puts "First Frame Freed: ";
                               puti (wrap (frame + base_frame_no p)); puts nl] in
    let m1 := set_state (mem st) (bitmap p) frame Free in
    let frame1 := wrap (frame + 1) in
    let '(m2, frame2, nfree, out1') :=
      free_run (Z.to_nat (nframes p - frame1)) m1 (bitmap p) frame1 (nframes p)
               (wrap (nFreeFrames p + 1)) out1 in
    let out2 := out1' ++ [puts "Last Frame Freed: ";
                          puti (wrap (frame2 + base_frame_no p - 1)); puts nl] in
    let o1 := <[t := set_nFreeFrames nfree p]> (objs st) in
    if nfree =? nframes p then
      match unlink t o1 (head st) (tail st) with
      | None => BadPointer
      | Some (o2, hd', tl') =>
          Done (mkMachine m2 o2 hd' tl'
                  (out2 ++ [puts ("Entire frame pool is now free, removing from list." ++ nl)]))
      end
    else Done (mkMachine m2 o1 (head st) (tail st) out2).
Proof.
  intros Hs. unfold release_at. cbv zeta.
  rewrite (get_state_valid _ _ _ _ HoS Hs) by discriminate. reflexivity.
Qed.

End ReleaseHead.

(** C4, as the code has it.  On a well-linked registry: when the pool that
    owns [f] (the first one in registry order whose range contains [f]) does
    not have a HoS frame at relative index [f - base_frame_no],
    [release_frames f] reports it on the console and changes no frame state,
    no pool and no link; the report is the only output when the frame is Free
    or Used, and follows the line that [get_state] prints when the frame
    holds the reserved pattern.  When no pool of the registry contains [f],
    the call changes nothing at all and reports nothing. *)
Theorem release_frames_violation (fuel : nat) (st : machine) (l : list nat) (f : Z) :
  is_registry st l = true ->
  (length l <= fuel)%nat ->
  0 <= f < 2 ^ 32 ->
  (forall t p,
      owner (objs st) l f = Some t ->
      objs st !! t = Some p ->
      0 <= base_frame_no p ->
      frame_state st p (f - base_frame_no p) <> HoS ->
      release_frames fuel f st =
        Done (mkMachine (mem st) (objs st) (head st) (tail st)
                (console st
                 ++ error_events (frame_state st p (f - base_frame_no p))
                 ++ [puts "release_frames(): first frame not a Head-Of-Sequence"])))
  /\ ((forall t p, t ∈ l -> objs st !! t = Some p -> in_pool p f = false) ->
      release_frames fuel f st = Done st).
Proof.
  intros Hreg Hfuel Hf.
  destruct (is_registry_unpack _ _ Hreg) as (_ & Hhead & _ & Hch).
  pose proof (release_walk_chain l st None fuel f Hch Hfuel) as Hwalk.
  rewrite <- Hhead in Hwalk.
  unfold release_frames. rewrite Hwalk.
  split.
  - intros t p Hown Hobj Hbase Hstate. rewrite Hown, Hobj.
    destruct (owner_Some _ _ _ _ Hown) as (_ & q & Hq & Hin).
    assert (q = p) by congruence. subst q.
    unfold in_pool in Hin. apply andb_true_iff in Hin. destruct Hin as [Hle _].
    apply Z.leb_le in Hle.
    unfold frame_state in *.
    rewrite release_at_not_head; rewrite (wrap_small (f - base_frame_no p)) by word_lia;
      [reflexivity | assumption].
  - intros Hout. rewrite (owner_None _ None _ None _ Hch Hout). reflexivity.
Qed.

Lemma release_frames_violation_witness :
  release_frames 5 105 demo =
    Done (mkMachine (mem demo) (objs demo) (head demo) (tail demo)
            (console demo
             ++ [puts "release_frames(): first frame not a Head-Of-Sequence"]))
  /\ release_frames 5 105 tainted =
       Done (mkMachine (mem tainted) (objs tainted) (head tainted) (tail tainted)
               [invalid_state_line;
                puts "release_frames(): first frame not a Head-Of-Sequence"])
  /\ release_frames 5 500 demo = Done demo.
Proof.
  split; [| split].
  - assert (Hreg : is_registry demo [1%nat] = true) by (vm_compute; reflexivity).
    assert (Hfuel : (length [1%nat] <= 5)%nat) by (simpl; lia).
    assert (Hf : 0 <= 105 < 2 ^ 32) by word_lia.
    destruct (release_frames_violation 5 demo [1%nat] 105 Hreg Hfuel Hf) as [Hhead _].
    apply (Hhead 1%nat demo_pool).
    + vm_compute. reflexivity.
    + reflexivity.
    + simpl. lia.
    + vm_compute. discriminate.
  - assert (Hreg : is_registry tainted [1%nat] = true) by (vm_compute; reflexivity).
    assert (Hfuel : (length [1%nat] <= 5)%nat) by (simpl; lia).
    assert (Hf : 0 <= 105 < 2 ^ 32) by word_lia.
    destruct (release_frames_violation 5 tainted [1%nat] 105 Hreg Hfuel Hf) as [Hhead _].
    apply (Hhead 1%nat demo_pool).
    + vm_compute. reflexivity.
    + reflexivity.
    + simpl. lia.
    + vm_compute. discriminate.
  - assert (Hreg : is_registry demo [1%nat] = true) by (vm_compute; reflexivity).
    assert (Hfuel : (length [1%nat] <= 5)%nat) by (simpl; lia).
    assert (Hf : 0 <= 500 < 2 ^ 32) by word_lia.
    destruct (release_frames_violation 5 demo [1%nat] 500 Hreg Hfuel Hf) as [_ Hnone].
    apply Hnone. intros t p Ht Hp.
    apply list_elem_of_singleton in Ht. subst t.
    assert (Hd : objs demo !! 1%nat = Some demo_pool) by reflexivity.
    rewrite Hd in Hp. injection Hp as <-.
    vm_compute. reflexivity.
Defined.

(** C4 as stated fails for a frame that no pool owns: frame 500 is outside
    the only pool (frames 100..109), and [release_frames 500] returns with
    nothing written to the console. *)
Lemma release_frames_unowned_silent :
  in_pool demo_pool 500 = false
  /\ release_frames 5 500 demo = Done demo
  /\ console demo = [].
Proof. vm_compute. repeat split. Qed.

(** ** Splicing a pool out of the list *)

Section Splice.

Implicit Types (o : gmap nat ContFramePool) (l : list nat) (pv nx : option nat).

Lemma chain_ext o o' pv l nx :
  (forall x, x ∈ l -> o !! x = o' !! x) ->
  chain o pv l nx = chain o' pv l nx.
Proof.
  revert pv. induction l as [| x l IH]; intros pv Hsame; [reflexivity |].
  cbn [chain]. rewrite <- (Hsame x) by left.
  destruct (o !! x); [| reflexivity].
  f_equal. apply IH. intros y Hy. apply Hsame. right. assumption.
Qed.

Lemma prev_of_cons x l pv : prev_of (x :: l) pv = prev_of l (Some x).
Proof. unfold prev_of. rewrite last_cons. destruct (last l); reflexivity. Qed.

Lemma chain_app o pv l1 l2 nx :
  chain o pv (l1 ++ l2) nx
  = chain o pv l1 (next_of l2 nx) && chain o (prev_of l1 pv) l2 nx.
Proof.
  revert pv. induction l1 as [| x l1 IH]; intros pv; [reflexivity |].
  cbn [app chain]. destruct (o !! x) as [p |]; [| reflexivity].
  rewrite IH, prev_of_cons.
  replace (next_of (l1 ++ l2) nx) with (next_of l1 (next_of l2 nx))
    by (destruct l1; [destruct l2 |]; reflexivity).
  rewrite !andb_assoc. reflexivity.
Qed.

(** Redirecting the [next] of the last pool of a segment. *)
Lemma chain_set_last_next o pv l a pa nx nx' :
  a ∉ l ->
  o !! a = Some pa ->
  chain o pv (l ++ [a]) nx = true ->
  chain (<[a := set_next nx' pa]> o) pv (l ++ [a]) nx' = true.
Proof.
  intros Ha Hpa. rewrite !chain_app, !andb_true_iff. intros [Hl Hlast].
  split.
  - rewrite <- Hl. symmetry. apply chain_ext.
    intros x Hx. rewrite lookup_insert_ne; [reflexivity |]. intros ->. contradiction.
  - cbn [chain] in *. rewrite Hpa in Hlast. rewrite lookup_insert_eq.
    rewrite !andb_true_iff, !bool_decide_eq_true in *.
    destruct Hlast as [[Hp _] _]. repeat split; assumption || reflexivity.
Qed.

(** Redirecting the [prev] of the first pool of a segment. *)
Lemma chain_set_first_prev o pv b l pb nx pv' :
  b ∉ l ->
  o !! b = Some pb ->
  chain o pv (b :: l) nx = true ->
  chain (<[b := set_prev pv' pb]> o) pv' (b :: l) nx = true.
Proof.
  intros Hb Hpb. cbn [chain]. rewrite Hpb, lookup_insert_eq.
  rewrite !andb_true_iff, !bool_decide_eq_true.
  intros [[_ Hn] Hrest]. repeat split; try assumption.
  rewrite <- Hrest. symmetry. apply chain_ext.
  intros x Hx. rewrite lookup_insert_ne; [reflexivity |]. intros ->. contradiction.
Qed.

(** Storing a pool whose links are unchanged keeps the list as it is. *)
Lemma chain_insert_links o pv l nx t p q :
  o !! t = Some p ->
  next q = next p -> prev q = prev p ->
  chain o pv l nx = true ->
  chain (<[t := q]> o) pv l nx = true.
Proof.
  intros Hp Hn Hv. revert pv. induction l as [| x l IH]; intros pv; [reflexivity |].
  cbn [chain]. destruct (decide (x = t)) as [-> | Hne].
  - rewrite Hp, lookup_insert_eq, Hn, Hv.
    rewrite !andb_true_iff. intros [? ?]. split; [assumption | apply IH; assumption].
  - rewrite lookup_insert_ne by congruence.
    destruct (o !! x); [| discriminate].
    rewrite !andb_true_iff. intros [? ?]. split; [assumption | apply IH; assumption].
Qed.

Lemma prev_of_None l : prev_of l None = last l.
Proof. unfold prev_of. destruct (last l); reflexivity. Qed.

(** The four statements of the unlinking, on a well-linked list. *)
Lemma unlink_spec o l1 t l2 :
  NoDup (l1 ++ t :: l2) ->
  chain o None (l1 ++ t :: l2) None = true ->
  exists o2,
    unlink t o (hd_error (l1 ++ t :: l2)) (last (l1 ++ t :: l2))
      = Some (o2, hd_error (l1 ++ l2), last (l1 ++ l2))
    /\ chain o2 None (l1 ++ l2) None = true
    /\ o2 !! t = o !! t.
Proof.
  intros Hnd Hch.
  apply NoDup_app in Hnd. destruct Hnd as (Hnd1 & Hdisj & Hnd2).
  apply NoDup_cons in Hnd2. destruct Hnd2 as [Ht2 Hnd2].
  assert (Ht1 : t ∉ l1) by (intros Hin; apply (Hdisj t Hin); left).
  assert (Hdisj' : forall x, x ∈ l1 -> x ∉ l2)
    by (intros x Hx Hx2; apply (Hdisj x Hx); right; assumption).
  rewrite chain_app in Hch. apply andb_true_iff in Hch. destruct Hch as [Hl1 Hrest].
  change (next_of (t :: l2) None) with (Some t) in Hl1.
  destruct (chain_cons _ _ _ _ _ Hrest) as (p0 & Hp0 & Hprev & Hnext & Hl2).
  rewrite prev_of_None in Hprev. rewrite next_of_None in Hnext.
  unfold unlink. rewrite Hp0.
  (* temp->prev->next = temp->next *)
  assert (Hstep1 : exists o1,
    match prev p0 with
    | Some pv => update_obj o pv (set_next (next p0))
    | None => Some o
    end = Some o1
    /\ chain o1 None l1 (hd_error l2) = true
    /\ o1 !! t = Some p0
    /\ (forall x, x ∈ l2 -> o1 !! x = o !! x)).
  { rewrite Hprev, Hnext.
    destruct l1 as [| a l1' _] using rev_ind.
    - exists o. repeat split; assumption || reflexivity.
    - rewrite last_snoc.
      apply NoDup_app in Hnd1. destruct Hnd1 as (_ & Ha & _).
      assert (Ha' : a ∉ l1') by (intros Hin; apply (Ha a Hin); left).
      assert (Hpa : exists pa, o !! a = Some pa).
      { rewrite chain_app in Hl1. apply andb_true_iff in Hl1. destruct Hl1 as [_ Hl1].
        destruct (chain_cons _ _ _ _ _ Hl1) as (pa & Hpa & _). eauto. }
      destruct Hpa as [pa Hpa]. unfold update_obj. rewrite Hpa.
      eexists. split; [reflexivity |]. split; [| split].
      + eapply chain_set_last_next; eassumption.
      + rewrite lookup_insert_ne; [assumption |].
        intros ->. apply Ht1. apply elem_of_app. right. left.
      + intros x Hx. rewrite lookup_insert_ne; [reflexivity |].
        intros ->. apply (Hdisj' x); [apply elem_of_app; right; left | assumption]. }
  destruct Hstep1 as (o1 & -> & Hc1 & Ht & Hsame2). rewrite Ht.
  (* temp->next->prev = temp->prev *)
  assert (Hstep2 : exists o2,
    match next p0 with
    | Some nx => update_obj o1 nx (set_prev (prev p0))
    | None => Some o1
    end = Some o2
    /\ chain o2 (last l1) l2 None = true
    /\ o2 !! t = Some p0
    /\ (forall x, x ∈ l1 -> o2 !! x = o1 !! x)).
  { assert (Hl2' : chain o1 (Some t) l2 None = true).
    { rewrite <- Hl2. apply chain_ext. assumption. }
    rewrite Hprev, Hnext.
    destruct l2 as [| b l2'].
    - exists o1. repeat split; assumption || reflexivity.
    - cbn [hd_error].
      apply NoDup_cons in Hnd2. destruct Hnd2 as [Hb _].
      destruct (chain_cons _ _ _ _ _ Hl2') as (pb & Hpb & _).
      unfold update_obj. rewrite Hpb.
      eexists. split; [reflexivity |]. split; [| split].
      + eapply chain_set_first_prev; eassumption.
      + rewrite lookup_insert_ne; [assumption |].
        intros ->. apply Ht2. left.
      + intros x Hx. rewrite lookup_insert_ne; [reflexivity |].
        intros ->. apply (Hdisj' x Hx). left. }
  destruct Hstep2 as (o2 & -> & Hc2 & Ht' & Hsame1). rewrite Ht'.
  exists o2. split; [| split].
  - f_equal. f_equal; [f_equal |].
    + (* head *)
      destruct l1 as [| a0 l1']; cbn [app hd_error].
      * rewrite bool_decide_eq_true_2 by reflexivity. assumption.
      * rewrite bool_decide_eq_false_2; [reflexivity |].
        intros [= ->]. apply Ht1. left.
    + (* tail *)
      rewrite !last_app, last_cons.
      destruct (last l2) as [z |] eqn:Hz.
      * rewrite bool_decide_eq_false_2; [reflexivity |].
        intros [= ->]. apply Ht2. eapply last_Some_elem_of. eassumption.
      * rewrite bool_decide_eq_true_2 by reflexivity. assumption.
  - rewrite chain_app, andb_true_iff, prev_of_None, next_of_None. split; [| assumption].
    rewrite <- Hc1. apply chain_ext. assumption.
  - congruence.
Qed.

End Splice.

(** ** Release and the registry *)

Section ReleaseRegistry.

#[local] Opaque set_state state_at get_state.

Lemma find_pool_in_chain (l : list nat) : forall o pv fuel g x,
  chain o pv l None = true ->
  find_pool fuel (hd_error l) g o = Done (Some x) ->
  x ∈ l.
Proof.
  induction l as [| y l IH]; intros o pv fuel g x Hch Hfind.
  - destruct fuel; discriminate.
  - destruct (chain_cons _ _ _ _ _ Hch) as (p & Hy & _ & Hnext & Hrest).
    rewrite next_of_None in Hnext.
    destruct fuel as [| k]; [discriminate |].
    cbn [hd_error find_pool] in Hfind. rewrite Hy in Hfind.
    destruct (in_pool p g).
    + injection Hfind as ->. left.
    + right. rewrite Hnext in Hfind. eapply IH; eassumption.
Qed.

Lemma NoDup_remove_middle (l1 l2 : list nat) (t : nat) :
  NoDup (l1 ++ t :: l2) -> NoDup (l1 ++ l2) /\ t ∉ l1 ++ l2.
Proof.
  rewrite !NoDup_app, NoDup_cons, not_elem_of_app.
  intros (H1 & Hd & Ht & H2). repeat split; try assumption.
  - intros x Hx Hx2. apply (Hd x Hx). right. assumption.
  - intros Hin. apply (Hd t Hin). left.
Qed.

(** C8.  A [release_frames] call that succeeds (the owning pool has a HoS
    frame at the address) leaves the pool object in the store; when it brings
    [nFreeFrames] up to [nframes], the pool is spliced out of the doubly
    linked list, with [head] and [tail] adjusted, and no later lookup by
    frame number finds it; otherwise the list is as it was. *)
Theorem release_frames_unlink (fuel : nat) (st : machine) (l : list nat) (f : Z)
    (t : nat) (p : ContFramePool) :
  is_registry st l = true ->
  (length l <= fuel)%nat ->
  0 <= f < 2 ^ 32 ->
  owner (objs st) l f = Some t ->
  objs st !! t = Some p ->
  0 <= base_frame_no p ->
  frame_state st p (f - base_frame_no p) = HoS ->
  exists st' p',
    release_frames fuel f st = Done st'
    /\ objs st' !! t = Some p'
    /\ base_frame_no p' = base_frame_no p /\ nframes p' = nframes p
    /\ bitmap p' = bitmap p
    /\ (nFreeFrames p' = nframes p' ->
          (exists l1 l2, l = l1 ++ t :: l2 /\ is_registry st' (l1 ++ l2) = true)
          /\ (forall fuel' g, find_pool fuel' (head st') g (objs st') <> Done (Some t)))
    /\ (nFreeFrames p' <> nframes p' ->
          is_registry st' l = true /\ head st' = head st /\ tail st' = tail st).
Proof.
  intros Hreg Hfuel Hf Hown Hobj Hbase Hstate.
  destruct (is_registry_unpack _ _ Hreg) as (Hnd & Hhead & Htail & Hch).
  pose proof (release_walk_chain l st None fuel f Hch Hfuel) as Hwalk.
  rewrite <- Hhead in Hwalk.
  unfold release_frames. rewrite Hwalk, Hown, Hobj. clear Hwalk.
  destruct (owner_Some _ _ _ _ Hown) as (Hin & q & Hq & Hrange).
  assert (q = p) by congruence. subst q.
  unfold in_pool in Hrange. apply andb_true_iff in Hrange. destruct Hrange as [Hle _].
  apply Z.leb_le in Hle.
  unfold frame_state in *.
  rewrite release_at_head by (rewrite wrap_small by word_lia; exact Hstate).
  cbv zeta. rewrite (wrap_small (f - base_frame_no p)) by word_lia.
  destruct (free_run _ _ _ _ _ _ _) as [[[m2 frame2] nfree] out1'].
  set (o1 := <[t := set_nFreeFrames nfree p]> (objs st)).
  assert (Hch1 : chain o1 None l None = true).
  { eapply chain_insert_links; try eassumption; reflexivity. }
  destruct (nfree =? nframes p) eqn:Hfull.
  - apply Z.eqb_eq in Hfull.
    destruct (list_elem_of_split _ _ Hin) as (l1 & l2 & ->).
    destruct (unlink_spec o1 l1 t l2 Hnd Hch1) as (o2 & Hun & Hch2 & Ht).
    rewrite Hhead, Htail, Hun.
    destruct (NoDup_remove_middle _ _ _ Hnd) as [Hnd' Hgone].
    eexists. exists (set_nFreeFrames nfree p).
    split; [reflexivity |].
    cbn [objs head tail]. split.
    { rewrite Ht. apply lookup_insert_eq. }
    repeat split.
    + exists l1, l2. split; [reflexivity |].
      unfold is_registry. cbn [objs head tail].
      rewrite !andb_true_iff, !bool_decide_eq_true. repeat split; assumption || reflexivity.
    + intros fuel' g Hfind. apply Hgone.
      eapply find_pool_in_chain; eassumption.
    + cbn in H. contradiction.
    + cbn in H. contradiction.
    + cbn in H. contradiction.
  - apply Z.eqb_neq in Hfull.
    eexists. exists (set_nFreeFrames nfree p).
    split; [reflexivity |].
    cbn [objs head tail]. split; [apply lookup_insert_eq |].
    repeat split.
    + cbn in H. contradiction.
    + cbn in H. contradiction.
    + unfold is_registry. cbn [objs head tail].
      rewrite !andb_true_iff, !bool_decide_eq_true. repeat split; assumption.
Qed.

End ReleaseRegistry.

Lemma release_frames_unlink_witness :
  exists st' p', release_frames 5 100 demo = Done st' /\ objs st' !! 1%nat = Some p'.
Proof.
  destruct (release_frames_unlink 5 demo [1%nat] 100 1 demo_pool)
    as (st' & p' & Hrun & Hobj & _).
  - vm_compute. reflexivity.
  - simpl. lia.
  - word_lia.
  - vm_compute. reflexivity.
  - reflexivity.
  - simpl. lia.
  - vm_compute. reflexivity.
  - exists st', p'. split; assumption.
Defined.

(** ** Release: the freeing loop *)

Section FreeRun.

#[local] Opaque set_state state_at get_state.

Lemma FrameState_eqb_eq (a b : FrameState) : FrameState_eqb a b = true <-> a = b.
Proof. destruct a, b; simpl; split; congruence. Qed.

(** One round of the freeing loop: the frame is freed when it is inside
    the pool and [Used]; the loop ends otherwise, after the line of
    [get_state] when the frame tested holds the reserved pattern. *)
Lemma free_run_S k m bm j nfr nfree out :
  free_run (S k) m bm j nfr nfree out =
    if (j <? nfr) && FrameState_eqb (state_at m bm j) Used
    then free_run k (set_state m bm j Free) bm (wrap (j + 1)) nfr (wrap (nfree + 1)) out
    else (m, j, nfree,
          out ++ (if j <? nfr then error_events (state_at m bm j) else [])).
Proof.
  cbn [free_run]. destruct (j <? nfr); cbn [andb]; [| rewrite app_nil_r; reflexivity].
  rewrite get_state_eq. cbv beta iota.
  destruct (state_at m bm j); cbn [FrameState_eqb error_events];
    rewrite ?app_nil_r; reflexivity.
Qed.

(** The loop frees the [Used] frames from [j] on, up to the first frame
    that is not [Used] or to the end of the pool, and counts them; the
    number of rounds the model allows is never the reason why it ends. *)
Lemma free_run_spec (k : nat) : forall m bm j nfr nfree out m' j' nfree' out',
  0 <= j -> nfr < 2 ^ 32 ->
  0 <= nfree < 2 ^ 32 ->
  (Z.to_nat (nfr - j) <= k)%nat ->
  free_run k m bm j nfr nfree out = (m', j', nfree', out') ->
  j <= j'
  /\ (j < j' -> j' <= nfr)
  /\ (forall i, j <= i < j' -> state_at m bm i = Used /\ state_at m' bm i = Free)
  /\ (forall i, i < j \/ j' <= i -> state_at m' bm i = state_at m bm i)
  /\ (j' < nfr -> state_at m' bm j' <> Used)
  /\ nfree' = wrap (nfree + (j' - j)).
Proof.
  induction k as [| k IH]; intros m bm j nfr nfree out m' j' nfree' out' Hj Hnfr Hn Hk Hrun.
  - cbn [free_run] in Hrun. injection Hrun as <- <- <- _.
    repeat split; try lia; try reflexivity.
    rewrite Z.sub_diag, Z.add_0_r. symmetry. apply wrap_small. assumption.
  - rewrite free_run_S in Hrun.
    destruct (Z.ltb_spec j nfr) as [Hlt | Hge]; cbn [andb] in Hrun.
    + destruct (FrameState_eqb (state_at m bm j) Used) eqn:Hused.
      * apply FrameState_eqb_eq in Hused.
        rewrite (wrap_small (j + 1)) in Hrun by word_lia.
        apply IH in Hrun; [| lia | lia | apply wrap_range | lia].
        destruct Hrun as (Hle & Hend & Hfreed & Hother & Hstop & Hcount).
        split; [lia |].
        split; [intros _; destruct (Z.eq_dec j' (j + 1)); [lia | apply Hend; lia] |].
        split; [| split; [| split]].
        -- intros i Hi. destruct (Z.eq_dec i j) as [-> | Hne].
           ++ split; [assumption |]. rewrite Hother by lia.
              apply state_at_set_same. discriminate.
           ++ destruct (Hfreed i ltac:(lia)) as [Hu Hf].
              rewrite state_at_set_other in Hu by assumption. split; assumption.
        -- intros i Hi. rewrite Hother by lia. apply state_at_set_other. lia.
        -- assumption.
        -- rewrite Hcount, wrap_add_l. f_equal. lia.
      * injection Hrun as <- <- <- _.
        repeat split; try lia; try reflexivity.
        -- intros _ Hu. rewrite Hu in Hused. discriminate.
        -- rewrite Z.sub_diag, Z.add_0_r. symmetry. apply wrap_small. assumption.
    + injection Hrun as <- <- <- _.
      repeat split; try lia; try reflexivity.
      rewrite Z.sub_diag, Z.add_0_r. symmetry. apply wrap_small. assumption.
Qed.

End FreeRun.

(** ** The round trip on a pool with a free run *)

Section RoundTrip.

#[local] Opaque set_state state_at get_state.

Lemma owner_insert (o : gmap nat ContFramePool) (l : list nat) (f : Z) (t : nat)
    (p q : ContFramePool) :
  o !! t = Some p ->
  base_frame_no q = base_frame_no p -> nframes q = nframes p ->
  owner (<[t := q]> o) l f = owner o l f.
Proof.
  intros Hp Hb Hn. induction l as [| x l IH]; [reflexivity |].
  cbn [owner]. destruct (decide (x = t)) as [-> | Hne].
  - rewrite lookup_insert_eq, Hp. unfold in_pool. rewrite Hb, Hn, IH. reflexivity.
  - rewrite lookup_insert_ne by congruence. rewrite IH. reflexivity.
Qed.

(** X5.  Where the first Free frame of a registered pool begins a run of [n]
    Free frames and the frame after the run is not [Used], an allocation
    followed by the release of its head frame restores the counter and every
    frame state. *)
Lemma get_frames_release_round_trip (fuel fuel' this : nat) (st : machine)
    (l : list nat) (p : ContFramePool) (n h : Z) :
  is_registry st l = true ->
  (length l <= fuel')%nat ->
  owner (objs st) l (h + base_frame_no p) = Some this ->
  objs st !! this = Some p ->
  pool_range_ok p ->
  no_error st p ->
  0 < nFreeFrames p < 2 ^ 32 ->
  1 <= n ->
  0 <= h ->
  h + n <= nframes p ->
  (forall i, 0 <= i < h -> frame_state st p i <> Free) ->
  (forall j, h <= j < h + n -> frame_state st p j = Free) ->
  (h + n < nframes p -> frame_state st p (h + n) <> Used) ->
  (Z.to_nat h < fuel)%nat ->
  exists st1 st2 p2,
    get_frames fuel this n st = Done (h + base_frame_no p, st1)
    /\ release_frames fuel' (h + base_frame_no p) st1 = Done st2
    /\ objs st2 !! this = Some p2
    /\ nFreeFrames p2 = nFreeFrames p
    /\ bitmap p2 = bitmap p
    /\ (forall i, frame_state st2 p2 i = frame_state st p i).
Proof.
  intros Hreg Hfuel' Hown Hobj Hok Hclean Hfree Hn Hh Hfit Hfirst Hrun Hafter Hfuel.
  destruct (get_frames_run fuel this st p n h) as (m' & Hcall & Hhead & Hused & Hother);
    try assumption.
  destruct Hok as (Hbase & Hnf & Hrange).
  destruct (is_registry_unpack _ _ Hreg) as (Hnd & Hhd & Htl & Hch).
  set (p1 := set_nFreeFrames (wrap (nFreeFrames p - n)) p) in *.
  set (o1 := <[this := p1]> (objs st)) in *.
  set (st1 := mkMachine m' o1 (head st) (tail st) (console st)) in *.
  assert (Hch1 : chain o1 None l None = true)
    by (eapply chain_insert_links; try eassumption; reflexivity).
  assert (Hown1 : owner o1 l (h + base_frame_no p) = Some this)
    by (unfold o1; erewrite owner_insert; try eassumption; reflexivity).
  assert (Hobj1 : o1 !! this = Some p1) by apply lookup_insert_eq.
  pose proof (release_walk_chain l st1 None fuel' (h + base_frame_no p) Hch1 Hfuel')
    as Hwalk.
  change (objs st1) with o1 in Hwalk. rewrite Hown1, Hobj1 in Hwalk.
  unfold frame_state in *.
  rewrite release_at_head in Hwalk
    by (cbn [base_frame_no bitmap p1 set_nFreeFrames mem st1];
        replace (h + base_frame_no p - base_frame_no p) with h by lia;
        rewrite wrap_small by word_lia; exact Hhead).
  cbv zeta in Hwalk.
  cbn [base_frame_no bitmap nframes nFreeFrames p1 set_nFreeFrames mem st1 objs
       head tail console] in Hwalk.
  replace (h + base_frame_no p - base_frame_no p) with h in Hwalk by lia.
  rewrite (wrap_small h) in Hwalk by word_lia.
  rewrite (wrap_small (h + 1)) in Hwalk by word_lia.
  destruct (free_run _ _ _ _ _ _ _) as [[[m2 frame2] nfree] out1'] eqn:Hloop.
  apply free_run_spec in Hloop; [| lia | word_lia | apply wrap_range | lia].
  destruct Hloop as (Hle & Hend & Hfreed & Hrest & Hstop & Hcount).
  assert (Hm1 : forall i, i <> h ->
            state_at (set_state m' (bitmap p) h Free) (bitmap p) i
            = state_at m' (bitmap p) i)
    by (intros i Hi; apply state_at_set_other; assumption).
  assert (Hframe2 : frame2 = h + n).
  { destruct (Z.lt_trichotomy frame2 (h + n)) as [Hlt | [Heq | Hgt]];
      [exfalso | assumption | exfalso].
    - apply Hstop; [lia |]. rewrite Hrest by lia. rewrite Hm1 by lia.
      apply Hused. lia.
    - destruct (Hfreed (h + n) ltac:(lia)) as [Hu _].
      rewrite Hm1 in Hu by lia. rewrite Hother in Hu by lia.
      apply Hafter; [| assumption]. specialize (Hend ltac:(lia)). lia. }
  subst frame2.
  assert (Hnfree : nfree = nFreeFrames p).
  { rewrite Hcount, wrap_add_l, <- Z.add_assoc, wrap_add_l.
    replace (nFreeFrames p - n + (1 + (h + n - (h + 1)))) with (nFreeFrames p) by lia.
    apply wrap_small. lia. }
  assert (Hstates : forall i, state_at m2 (bitmap p) i = state_at (mem st) (bitmap p) i).
  { intros i. destruct (Z.eq_dec i h) as [-> | Hne].
    - rewrite Hrest by lia. rewrite state_at_set_same by discriminate.
      symmetry. apply Hrun. lia.
    - destruct (Z.lt_ge_cases i (h + 1)) as [Hlo | Hhi].
      + rewrite Hrest by lia. rewrite Hm1 by assumption. apply Hother. lia.
      + destruct (Z.lt_ge_cases i (h + n)) as [Hin | Hout].
        * destruct (Hfreed i ltac:(lia)) as [_ ->]. symmetry. apply Hrun. lia.
        * rewrite Hrest by lia. rewrite Hm1 by assumption. apply Hother. lia. }
  rewrite <- Hhd in Hwalk. fold st1 in Hwalk.
  exists st1. unfold release_frames. change (head st1) with (head st). rewrite Hwalk.
  destruct (nfree =? nframes p).
  - assert (Hin : this ∈ l) by (apply (owner_Some _ _ _ _ Hown)).
    destruct (list_elem_of_split _ _ Hin) as (l1 & l2 & ->).
    set (o2 := <[this := set_nFreeFrames nfree p1]> o1).
    assert (Hch2 : chain o2 None (l1 ++ this :: l2) None = true)
      by (eapply chain_insert_links; try eassumption; reflexivity).
    destruct (unlink_spec o2 l1 this l2 Hnd Hch2) as (o3 & Hun & _ & Ht).
    rewrite Hhd, Htl, Hun.
    eexists. exists (set_nFreeFrames nfree p1).
    split; [exact Hcall |]. split; [reflexivity |].
    cbn [objs mem]. split; [rewrite Ht; apply lookup_insert_eq |].
    repeat split; assumption.
  - eexists. exists (set_nFreeFrames nfree p1).
    split; [exact Hcall |]. split; [reflexivity |].
    cbn [objs mem]. split; [apply lookup_insert_eq |].
    repeat split; assumption.
Qed.

End RoundTrip.

(** ** The free counter on the paths that keep it *)

Section FreeCount.

#[local] Opaque set_state state_at get_state.

Implicit Types (m : memory) (bm : Z).

Lemma count_free_ext (k : nat) : forall m m' bm s,
  (forall i, s <= i < s + Z.of_nat k -> state_at m' bm i = state_at m bm i) ->
  count_free k m' bm s = count_free k m bm s.
Proof.
  induction k as [| k IH]; intros m m' bm s Hsame; [reflexivity |].
  cbn [count_free]. rewrite (Hsame s) by lia. f_equal.
  apply IH. intros i Hi. apply Hsame. lia.
Qed.

Lemma count_free_app (a b : nat) : forall m bm s,
  count_free (a + b) m bm s
  = count_free a m bm s + count_free b m bm (s + Z.of_nat a).
Proof.
  induction a as [| a IH]; intros m bm s.
  - cbn [count_free Nat.add]. rewrite Z.add_0_r. reflexivity.
  - cbn [count_free Nat.add]. rewrite IH.
    replace (s + 1 + Z.of_nat a) with (s + Z.of_nat (S a)) by lia. lia.
Qed.

Lemma count_free_all (k : nat) : forall m bm s,
  (forall i, s <= i < s + Z.of_nat k -> state_at m bm i = Free) ->
  count_free k m bm s = Z.of_nat k.
Proof.
  induction k as [| k IH]; intros m bm s Hall; [reflexivity |].
  cbn [count_free]. rewrite (Hall s) by lia. cbn [FrameState_eqb].
  rewrite IH by (intros i Hi; apply Hall; lia). lia.
Qed.

Lemma count_free_none (k : nat) : forall m bm s,
  (forall i, s <= i < s + Z.of_nat k -> state_at m bm i <> Free) ->
  count_free k m bm s = 0.
Proof.
  induction k as [| k IH]; intros m bm s Hnone; [reflexivity |].
  cbn [count_free]. rewrite IH by (intros i Hi; apply Hnone; lia).
  specialize (Hnone s ltac:(lia)).
  destruct (state_at m bm s); cbn [FrameState_eqb]; congruence || reflexivity.
Qed.

Lemma count_free_bound (k : nat) : forall m bm s,
  0 <= count_free k m bm s <= Z.of_nat k.
Proof.
  induction k as [| k IH]; intros m bm s; [simpl; lia |].
  cbn [count_free]. specialize (IH m bm (s + 1)).
  destruct (FrameState_eqb _ _); lia.
Qed.

(** A window [[a, a + c)] of the [N] frames changes from all Free to none
    Free (or back); the frames around it keep their states. *)
Lemma count_free_window (N a c : Z) m m' bm :
  0 <= a -> 0 <= c -> a + c <= N ->
  (forall i, i < a \/ a + c <= i -> state_at m' bm i = state_at m bm i) ->
  count_free (Z.to_nat N) m' bm 0 - count_free (Z.to_nat c) m' bm a
  = count_free (Z.to_nat N) m bm 0 - count_free (Z.to_nat c) m bm a.
Proof.
  intros Ha Hc HN Hsame.
  replace (Z.to_nat N) with (Z.to_nat a + (Z.to_nat c + Z.to_nat (N - a - c)))%nat by lia.
  rewrite !count_free_app, !Z2Nat.id by lia. rewrite !Z.add_0_l.
  rewrite (count_free_ext (Z.to_nat a) m m') by (intros i Hi; apply Hsame; lia).
  rewrite (count_free_ext (Z.to_nat (N - a - c)) m m') by (intros i Hi; apply Hsame; lia).
  lia.
Qed.

(** X6.  An allocation from a free run keeps the counter equal to the number
    of Free frames. *)
Lemma get_frames_keeps_count (fuel this : nat) (st : machine) (p : ContFramePool)
    (n h : Z) :
  objs st !! this = Some p ->
  pool_range_ok p ->
  no_error st p ->
  0 < nFreeFrames p ->
  free_frames st p = nFreeFrames p ->
  1 <= n ->
  0 <= h ->
  h + n <= nframes p ->
  (forall i, 0 <= i < h -> frame_state st p i <> Free) ->
  (forall j, h <= j < h + n -> frame_state st p j = Free) ->
  (Z.to_nat h < fuel)%nat ->
  exists st' p',
    get_frames fuel this n st = Done (h + base_frame_no p, st')
    /\ objs st' !! this = Some p'
    /\ free_frames st' p' = nFreeFrames p'.
Proof.
  intros Hobj Hok Hclean Hpos Hinv Hn Hh Hfit Hfirst Hrun Hfuel.
  pose proof (count_free_bound (Z.to_nat (nframes p)) (mem st) (bitmap p) 0) as Hbound.
  fold (free_frames st p) in Hbound.
  assert (Hnf : 0 < nFreeFrames p < 2 ^ 32).
  { destruct Hok as (? & ? & ?). rewrite Z2Nat.id in Hbound by lia. word_lia. }
  destruct (get_frames_run fuel this st p n h) as (m' & Hcall & Hhead & Hused & Hother);
    try assumption.
  destruct Hok as (Hbase & Hnfr & Hrange).
  eexists. eexists. split; [exact Hcall |].
  split; [cbn [objs]; apply lookup_insert_eq |].
  unfold free_frames, frame_state in *.
  cbn [mem nframes bitmap nFreeFrames set_nFreeFrames].
  pose proof (count_free_window (nframes p) h n (mem st) m' (bitmap p)
                Hh ltac:(lia) Hfit Hother) as Hwin.
  rewrite (count_free_all (Z.to_nat n) (mem st)) in Hwin
    by (intros i Hi; apply Hrun; lia).
  rewrite (count_free_none (Z.to_nat n) m') in Hwin.
  - pose proof (count_free_bound (Z.to_nat (nframes p)) m' (bitmap p) 0).
    rewrite wrap_small by word_lia. lia.
  - intros i Hi. destruct (Z.eq_dec i h) as [-> | Hne].
    + rewrite Hhead. discriminate.
    + rewrite Hused by lia. discriminate.
Qed.

(** X7.  A successful release keeps the counter equal to the number of Free
    frames. *)
Lemma release_frames_keeps_count (fuel : nat) (st : machine) (l : list nat) (f : Z)
    (t : nat) (p : ContFramePool) :
  is_registry st l = true ->
  (length l <= fuel)%nat ->
  owner (objs st) l f = Some t ->
  objs st !! t = Some p ->
  pool_range_ok p ->
  frame_state st p (f - base_frame_no p) = HoS ->
  free_frames st p = nFreeFrames p ->
  exists st' p',
    release_frames fuel f st = Done st'
    /\ objs st' !! t = Some p'
    /\ free_frames st' p' = nFreeFrames p'.
Proof.
  intros Hreg Hfuel Hown Hobj Hok Hstate Hinv.
  destruct (is_registry_unpack _ _ Hreg) as (Hnd & Hhead & Htail & Hch).
  pose proof (release_walk_chain l st None fuel f Hch Hfuel) as Hwalk.
  rewrite <- Hhead in Hwalk.
  unfold release_frames. rewrite Hwalk, Hown, Hobj. clear Hwalk.
  destruct (owner_Some _ _ _ _ Hown) as (Hin & q & Hq & Hrange).
  assert (q = p) by congruence. subst q.
  apply (in_pool_range p f Hok) in Hrange.
  destruct Hok as (Hbase & Hnfr & Hfits).
  pose proof (count_free_bound (Z.to_nat (nframes p)) (mem st) (bitmap p) 0) as Hbound.
  fold (free_frames st p) in Hbound. rewrite Hinv, Z2Nat.id in Hbound by lia.
  unfold free_frames, frame_state in *.
  rewrite release_at_head by (rewrite wrap_small by word_lia; exact Hstate).
  cbv zeta.
  set (h := f - base_frame_no p) in *.
  rewrite (wrap_small h) by (unfold h; word_lia).
  rewrite (wrap_small (h + 1)) by (unfold h; word_lia).
  destruct (free_run _ _ _ _ _ _ _) as [[[m2 frame2] nfree] out1'] eqn:Hloop.
  apply free_run_spec in Hloop;
    [| unfold h; lia | word_lia | apply wrap_range | lia].
  destruct Hloop as (Hle & Hend & Hfreed & Hrest & _ & Hcount).
  assert (Hend' : frame2 <= nframes p).
  { destruct (Z.eq_dec frame2 (h + 1)); [unfold h in *; lia | apply Hend; lia]. }
  assert (Hm1 : forall i, i <> h ->
            state_at (set_state (mem st) (bitmap p) h Free) (bitmap p) i
            = state_at (mem st) (bitmap p) i)
    by (intros i Hi; apply state_at_set_other; assumption).
  assert (Hwin : count_free (Z.to_nat (nframes p)) m2 (bitmap p) 0
                 = nFreeFrames p + (frame2 - h)).
  { pose proof (count_free_window (nframes p) h (frame2 - h) (mem st) m2 (bitmap p))
      as Hw.
    rewrite (count_free_all (Z.to_nat (frame2 - h)) m2) in Hw.
    - rewrite (count_free_none (Z.to_nat (frame2 - h)) (mem st)) in Hw.
      + rewrite Z2Nat.id in Hw by lia. rewrite <- Hinv.
        assert (Hh0 : 0 <= h) by (unfold h; lia).
        assert (Hsame : forall i, i < h \/ h + (frame2 - h) <= i ->
                  state_at m2 (bitmap p) i = state_at (mem st) (bitmap p) i)
          by (intros i Hi; rewrite Hrest by lia; apply Hm1; lia).
        specialize (Hw Hh0 ltac:(lia) ltac:(lia) Hsame). lia.
      + intros i Hi. rewrite Z2Nat.id in Hi by lia.
        destruct (Z.eq_dec i h) as [-> | Hne].
        * rewrite Hstate. discriminate.
        * destruct (Hfreed i ltac:(lia)) as [Hu _].
          rewrite Hm1 in Hu by assumption. rewrite Hu. discriminate.
    - intros i Hi. rewrite Z2Nat.id in Hi by lia.
      destruct (Z.eq_dec i h) as [-> | Hne].
      + rewrite Hrest by lia. apply state_at_set_same. discriminate.
      + apply (Hfreed i). lia. }
  assert (Hnfree : nfree = nFreeFrames p + (frame2 - h)).
  { rewrite Hcount, wrap_add_l.
    pose proof (count_free_bound (Z.to_nat (nframes p)) m2 (bitmap p) 0) as Hb2.
    rewrite Z2Nat.id in Hb2 by lia.
    replace (nFreeFrames p + 1 + (frame2 - (h + 1))) with (nFreeFrames p + (frame2 - h))
      by lia.
    apply wrap_small. word_lia. }
  set (o1 := <[t := set_nFreeFrames nfree p]> (objs st)).
  assert (Hch1 : chain o1 None l None = true)
    by (eapply chain_insert_links; try eassumption; reflexivity).
  destruct (nfree =? nframes p).
  - destruct (list_elem_of_split _ _ Hin) as (l1 & l2 & ->).
    destruct (unlink_spec o1 l1 t l2 Hnd Hch1) as (o2 & Hun & _ & Ht).
    rewrite Hhead, Htail, Hun.
    eexists. exists (set_nFreeFrames nfree p). split; [reflexivity |].
    cbn [objs mem]. split; [rewrite Ht; apply lookup_insert_eq |].
    cbn [nframes bitmap nFreeFrames set_nFreeFrames]. lia.
  - eexists. exists (set_nFreeFrames nfree p). split; [reflexivity |].
    cbn [objs mem]. split; [apply lookup_insert_eq |].
    cbn [nframes bitmap nFreeFrames set_nFreeFrames]. lia.
Qed.

End FreeCount.

(** ** Construction and the registry *)

Section Attach.

#[local] Opaque set_state state_at get_state.

(** X8.  The constructor appends the new pool to a well-linked registry.
    When the registry is empty the code assigns neither [next] nor [prev], so
    the links of the new pool are what its storage held. *)
Lemma ctor_appends (FRAME_SIZE : Z) (this : nat) (raw : ContFramePool)
    (base n info : Z) (st : machine) (l : list nat) :
  is_registry st l = true ->
  this ∉ l ->
  (l = [] -> next raw = None /\ prev raw = None) ->
  wrap (nframes raw * 2) <= wrap (FRAME_SIZE * 8) ->
  exists st',
    ContFramePool_ctor FRAME_SIZE this raw base n info st = Done st'
    /\ is_registry st' (l ++ [this]) = true
    /\ (exists p, objs st' !! this = Some p
                  /\ base_frame_no p = base /\ nframes p = n
                  /\ nFreeFrames p = wrap (n - 1)).
Proof.
  intros Hreg Hfresh Hraw Hassert.
  destruct (is_registry_unpack _ _ Hreg) as (Hnd & Hhead & Htail & Hch).
  unfold ContFramePool_ctor.
  replace (wrap (nframes raw * 2) <=? wrap (FRAME_SIZE * 8)) with true
    by (symmetry; apply Z.leb_le; assumption).
  cbn [negb].
  set (bm := if info =? 0 then wrap (FRAME_SIZE * base) else wrap (FRAME_SIZE * info)).
  set (self := mkPool base n (wrap (n - 1)) info bm (next raw) (prev raw)).
  set (m2 := set_state _ bm info HoS).
  destruct l as [| t0 l0 _] using rev_ind.
  - destruct (Hraw eq_refl) as [Hnx Hpv].
    rewrite Hhead. cbn [hd_error].
    eexists. split; [reflexivity |]. split.
    + unfold is_registry. cbn [objs head tail app chain hd_error].
      rewrite lookup_insert_eq. cbn [prev next self].
      rewrite Hnx, Hpv.
      rewrite !andb_true_iff, !bool_decide_eq_true.
      repeat split; try reflexivity. apply NoDup_singleton.
    + exists self. cbn [objs]. rewrite lookup_insert_eq. repeat split.
  - assert (Hne : t0 <> this).
    { intros ->. apply Hfresh. apply elem_of_app. right. left. }
    assert (Hhd : exists x, head st = Some x).
    { rewrite Hhead. destruct l0; cbn; eauto. }
    destruct Hhd as [x Hx]. rewrite Hx, Htail, last_snoc.
    assert (Hpt : exists pt, objs st !! t0 = Some pt).
    { rewrite chain_app in Hch. apply andb_true_iff in Hch. destruct Hch as [_ Hch].
      destruct (chain_cons _ _ _ _ _ Hch) as (pt & Hpt & _). eauto. }
    destruct Hpt as [pt Hpt].
    unfold update_obj.
    rewrite (lookup_insert_ne (objs st) this t0) by congruence. rewrite Hpt.
    rewrite lookup_insert_ne by congruence. rewrite lookup_insert_eq.
    rewrite lookup_insert_eq.
    eexists. split; [reflexivity |]. split.
    + unfold is_registry. cbn [objs head tail].
      rewrite !andb_true_iff, !bool_decide_eq_true. repeat split.
      * apply NoDup_app. repeat split; try assumption.
        -- intros y Hy Hin. apply list_elem_of_singleton in Hin. subst y. contradiction.
        -- apply NoDup_singleton.
      * rewrite <- Hx, Hhead. destruct l0; reflexivity.
      * rewrite last_snoc. reflexivity.
      * rewrite chain_app, andb_true_iff. split.
        -- change (next_of [this] None) with (Some this).
           erewrite chain_ext.
           ++ eapply (chain_set_last_next (objs st) None l0 t0 pt None (Some this));
                try eassumption.
              apply NoDup_app in Hnd. destruct Hnd as (_ & Hd & _).
              intros Hin. apply (Hd t0 Hin). left.
           ++ intros y Hy. assert (y <> this) by (intros ->; contradiction).
              rewrite !(lookup_insert_ne _ this y) by congruence.
              destruct (decide (y = t0)) as [-> | Hy0].
              ** rewrite !lookup_insert_eq. reflexivity.
              ** rewrite !(lookup_insert_ne _ t0 y) by congruence.
                 rewrite lookup_insert_ne by congruence. reflexivity.
        -- rewrite prev_of_None, last_snoc. cbn [chain].
           rewrite lookup_insert_eq. cbn [prev next set_next set_prev next_of hd_error].
           rewrite !andb_true_iff, !bool_decide_eq_true. repeat split.
    + eexists. cbn [objs]. rewrite lookup_insert_eq. repeat split.
Qed.

Lemma set_state_Free_zero (m : memory) (b f a : Z) :
  m a = 0 -> set_state m b f Free a = 0.
Proof.
  intros Hz. destruct (Z.eq_dec a (b + f / 4)) as [-> | Hne].
  - rewrite set_state_written by discriminate. rewrite store_same.
    unfold written. rewrite Hz, Z.land_0_l. cbn [encode].
    rewrite Z.shiftl_0_l. reflexivity.
  - rewrite set_state_other_byte by assumption. assumption.
Qed.

Lemma init_free_zero (k : nat) : forall (m : memory) (b s : Z),
  (forall a, m a = 0) -> forall a, init_free k m b s a = 0.
Proof.
  induction k as [| k IH]; intros m b s Hz a; cbn [init_free]; [apply Hz |].
  apply IH. intros a'. apply set_state_Free_zero, Hz.
Qed.

Lemma state_at_zero (m : memory) (b f : Z) :
  (forall a, m a = 0) -> state_at m b f = Free.
Proof.
  intros Hz. rewrite state_at_decode. unfold field. cbv zeta.
  rewrite Hz, Z.shiftr_0_l. reflexivity.
Qed.

(** X9.  The first pool, constructed on zeroed memory with the sentinel 0 as
    its info frame: here the constructor does what its comment says. *)
Lemma ctor_on_zeroed_memory (FRAME_SIZE : Z) (this : nat) (raw : ContFramePool)
    (base n : Z) (st : machine) :
  (forall a, mem st a = 0) ->
  head st = None ->
  wrap (nframes raw * 2) <= wrap (FRAME_SIZE * 8) ->
  exists st' p,
    ContFramePool_ctor FRAME_SIZE this raw base n 0 st = Done st'
    /\ objs st' !! this = Some p
    /\ bitmap p = wrap (FRAME_SIZE * base)
    /\ frame_state st' p 0 = HoS
    /\ (forall i, i <> 0 -> frame_state st' p i = Free)
    /\ nFreeFrames p = wrap (n - 1)
    /\ head st' = Some this /\ tail st' = Some this.
Proof.
  intros Hz Hhead Hassert. unfold ContFramePool_ctor.
  replace (wrap (nframes raw * 2) <=? wrap (FRAME_SIZE * 8)) with true
    by (symmetry; apply Z.leb_le; assumption).
  cbn [negb]. rewrite Hhead. rewrite Z.eqb_refl.
  eexists. eexists. split; [reflexivity |].
  cbn [objs]. split; [apply lookup_insert_eq |].
  unfold frame_state. cbn [mem bitmap nFreeFrames head tail].
  repeat split.
  - apply state_at_set_same. discriminate.
  - intros i Hi. rewrite state_at_set_other by assumption.
    apply state_at_zero. apply init_free_zero, Hz.
Qed.

End Attach.

(** ** Where the code departs from its contract *)

(** The example state is what the constructor builds on zeroed memory. *)
Example ctor_on_boot :
  exists s, ContFramePool_ctor 4096 1 raw0 100 10 0 boot = Done s
    /\ objs s = objs demo /\ head s = head demo /\ tail s = tail demo
    /\ pool_view s 1 = pool_view demo 1
    /\ pool_view demo 1 =
         Some ([HoS; Free; Free; Free; Free; Free; Free; Free; Free; Free], 9).
Proof. eexists. split; [reflexivity |]. vm_compute. repeat split. Qed.

Example fragmented_view :
  exists s, fragmented = Done s
    /\ pool_view s 1 =
         Some ([HoS; Free; HoS; Used; Free; Free; Free; Free; Free; Free], 7).
Proof. eexists. split; [vm_compute; reflexivity |]. vm_compute. reflexivity. Qed.

(** C5.  The code has no out-of-space result and no bound at [nframes].
    In the pool HoS, Free, HoS, Used, Free x 6 (seven Free frames, at most
    six of them contiguous) [get_frames 7] returns frame 101 and turns the
    frames 102..107 to Used, two of which belonged to a live allocation.  In
    the pool HoS, HoS, HoS, Used, Free x 6 it returns 104 and writes the
    state of relative index 10, one past the last frame of the pool; the
    counter wraps around to [2 ^ 32 - 1]. *)
Theorem get_frames_no_fit :
  (exists s s',
      fragmented = Done s
      /\ pool_view s 1 =
           Some ([HoS; Free; HoS; Used; Free; Free; Free; Free; Free; Free], 7)
      /\ get_frames 20 1 7 s = Done (101, s')
      /\ pool_view s' 1 =
           Some ([HoS; HoS; Used; Used; Used; Used; Used; Used; Free; Free], 0))
  /\ (exists t t',
        two_runs = Done t
        /\ pool_view t 1 =
             Some ([HoS; HoS; HoS; Used; Free; Free; Free; Free; Free; Free], 6)
        /\ get_frames 20 1 7 t = Done (104, t')
        /\ frame_state t demo_pool 10 = Free
        /\ frame_state t' demo_pool 10 = Used
        /\ pool_view t' 1 =
             Some ([HoS; HoS; HoS; Used; HoS; Used; Used; Used; Used; Used],
                   4294967295)).
Proof.
  split.
  - eexists. eexists. split; [vm_compute; reflexivity |].
    split; [vm_compute; reflexivity |].
    split; [vm_compute; reflexivity |].
    vm_compute. reflexivity.
  - eexists. eexists. split; [vm_compute; reflexivity |].
    split; [vm_compute; reflexivity |].
    split; [vm_compute; reflexivity |].
    vm_compute. repeat split.
Qed.

(** C2.  In the pool HoS, Free, HoS, Used, Free x 6 with 7 frames counted
    free, [get_frames 2] returns 101 and the release of 101 that follows
    frees the frames 101, 102 and 103: the counter ends at 8, not 7, and the
    allocation that held 102 and 103 has lost its frames. *)
Theorem round_trip_fragmented :
  exists s s1 s2,
    fragmented = Done s
    /\ pool_view s 1 =
         Some ([HoS; Free; HoS; Used; Free; Free; Free; Free; Free; Free], 7)
    /\ get_frames 20 1 2 s = Done (101, s1)
    /\ release_frames 5 101 s1 = Done s2
    /\ pool_view s2 1 =
         Some ([HoS; Free; Free; Free; Free; Free; Free; Free; Free; Free], 8).
Proof.
  eexists. eexists. eexists. split; [vm_compute; reflexivity |].
  split; [vm_compute; reflexivity |].
  split; [vm_compute; reflexivity |].
  split; [vm_compute; reflexivity |].
  vm_compute. reflexivity.
Qed.

(** C6.  [mark_inaccessible 103 2] on the fresh pool over 100..109 marks
    both frames Used, none HoS, and leaves the counter at 9. *)
Theorem mark_inaccessible_all_used :
  pool_view demo 1 =
    Some ([HoS; Free; Free; Free; Free; Free; Free; Free; Free; Free], 9)
  /\ exists s,
       mark_inaccessible 1 103 2 demo = Done s
       /\ pool_view s 1 =
            Some ([HoS; Free; Free; Used; Used; Free; Free; Free; Free; Free], 9).
Proof.
  split; [vm_compute; reflexivity |].
  eexists. split; [vm_compute; reflexivity |]. vm_compute. reflexivity.
Qed.

(** C3.  The fresh pool counts its 9 Free frames; after
    [mark_inaccessible 105 3] the counter is still 9 and 6 frames are Free.
    A pool constructed on memory that is not zero counts 9 free frames and
    has none. *)
Theorem free_count_not_invariant :
  free_frames demo demo_pool = nFreeFrames demo_pool
  /\ (exists s p,
        mark_inaccessible 1 105 3 demo = Done s
        /\ objs s !! 1%nat = Some p
        /\ nFreeFrames p = 9 /\ free_frames s p = 6)
  /\ (exists s p,
        ContFramePool_ctor 4096 1 raw0 100 10 0 dirty = Done s
        /\ objs s !! 1%nat = Some p
        /\ nFreeFrames p = 9 /\ free_frames s p = 0).
Proof.
  split; [vm_compute; reflexivity |]. split.
  - eexists. eexists. split; [vm_compute; reflexivity |].
    split; [vm_compute; reflexivity |]. vm_compute. split; reflexivity.
  - eexists. eexists. split; [vm_compute; reflexivity |].
    split; [vm_compute; reflexivity |]. vm_compute. split; reflexivity.
Qed.

(** C7.  Three departures of the constructor, with 4096-byte frames and a
    pool over the frames 100..109.  With the state array in frame 103 and
    zeroed memory, every frame of the pool is Free, frame 103 included: the
    HoS mark went to relative index 103.  On memory that is not zero the
    frames 101..109 are left in the reserved state.  The [assert] tests the
    stale [nframes] member: a stale 20000 stops a 10-frame pool, a stale 0
    lets a 20000-frame pool through. *)
Theorem ctor_departures :
  (exists s p,
      ContFramePool_ctor 4096 1 raw0 100 10 103 boot = Done s
      /\ objs s !! 1%nat = Some p
      /\ pool_view s 1 =
           Some ([Free; Free; Free; Free; Free; Free; Free; Free; Free; Free], 9)
      /\ frame_state s p 103 = HoS)
  /\ (exists s,
        ContFramePool_ctor 4096 1 raw0 100 10 0 dirty = Done s
        /\ pool_view s 1 =
             Some ([HoS; Error; Error; Error; Error; Error; Error; Error; Error; Error],
                   9))
  /\ ContFramePool_ctor 4096 1 (mkPool 0 20000 0 0 0 None None) 100 10 0 boot
     = AssertFailed
  /\ (exists s, ContFramePool_ctor 4096 1 raw0 100 20000 0 boot = Done s).
Proof.
  split; [| split; [| split]].
  - eexists. eexists. split; [vm_compute; reflexivity |].
    split; [vm_compute; reflexivity |]. vm_compute. split; reflexivity.
  - eexists. split; [vm_compute; reflexivity |]. vm_compute. reflexivity.
  - vm_compute. reflexivity.
  - eexists. reflexivity.
Qed.

(** ** The diagnostic checker *)

Section Checker.

#[local] Opaque set_state state_at get_state.

Lemma elem_of_seqZ_range (m n i : Z) : i ∈ seqZ m n <-> m <= i < m + n.
Proof. rewrite elem_of_seqZ. lia. Qed.

(** One round of the loop. *)
Lemma check_run_S k m p frame out :
  check_run (S k) m p frame out =
    check_run k m p (wrap (frame + 1))
      (out ++ (if negb (FrameState_eqb (state_at m (bitmap p) frame) Free)
               then frame_report p m frame else [])).
Proof.
  cbn [check_run]. rewrite get_state_eq. cbv beta iota. unfold frame_report.
  destruct (state_at m (bitmap p) frame); cbn [FrameState_eqb negb error_events];
    rewrite ?app_nil_r, <- ?app_assoc; reflexivity.
Qed.

(** The loop prints one report per frame that is not [Free], in ascending
    order. *)
Lemma check_run_spec (k : nat) : forall m p frame out,
  0 <= frame -> frame + Z.of_nat k <= 2 ^ 32 ->
  check_run k m p frame out
  = out ++ flat_map (frame_report p m)
             (not_free_frames m (bitmap p) frame (Z.of_nat k)).
Proof.
  induction k as [| k IH]; intros m p frame out Hf Hk.
  - cbn [check_run]. unfold not_free_frames. rewrite seqZ_nil by lia.
    cbn. rewrite app_nil_r. reflexivity.
  - rewrite check_run_S. unfold not_free_frames.
    rewrite seqZ_cons by lia. cbn [List.filter].
    replace (Z.pred (Z.of_nat (S k))) with (Z.of_nat k) by lia.
    destruct (Z.eq_dec (frame + 1) (2 ^ 32)) as [Hlast | Hlast].
    + assert (k = 0%nat) by lia. subst k. cbn [check_run].
      rewrite seqZ_nil by lia. cbn [List.filter].
      destruct (negb _); cbn [flat_map]; rewrite ?app_nil_r; reflexivity.
    + rewrite (wrap_small (frame + 1)) by word_lia.
      rewrite IH by lia. unfold not_free_frames.
      replace (Z.succ frame) with (frame + 1) by lia.
      destruct (negb _); cbn [flat_map]; rewrite <- ?app_assoc; reflexivity.
Qed.

Lemma check_walk_chain l : forall st pv fuel f size,
  chain (objs st) pv l None = true ->
  (length l <= fuel)%nat ->
  check_walk fuel (hd_error l) f size st =
    match owner (objs st) l f with
    | Some t => match objs st !! t with
                | Some p => Done (check_at p f size st)
                | None => BadPointer
                end
    | None => Done st
    end.
Proof.
  induction l as [| x l IH]; intros st pv fuel f size Hch Hfuel.
  - destruct fuel; reflexivity.
  - destruct (chain_cons _ _ _ _ _ Hch) as (p & Hx & _ & Hnext & Hrest).
    rewrite next_of_None in Hnext.
    destruct fuel as [| k]; [simpl in Hfuel; lia |].
    cbn [hd_error check_walk owner]. rewrite Hx.
    destruct (in_pool p f).
    + rewrite Hx. reflexivity.
    + rewrite Hnext. apply (IH st (Some x)); [assumption | simpl in Hfuel; lia].
Qed.

Lemma flat_map_report_nil (p : ContFramePool) (m : memory) (l : list Z) :
  flat_map (frame_report p m) l = [] <-> l = [].
Proof.
  destruct l as [| i l]; cbn [flat_map]; split; try congruence.
  unfold frame_report, not_freed_report.
  destruct (error_events _); discriminate.
Qed.

Lemma not_free_frames_nil (m : memory) (bm frame count : Z) :
  not_free_frames m bm frame count = []
  <-> forall i, frame <= i < frame + count -> state_at m bm i = Free.
Proof.
  unfold not_free_frames. split.
  - intros Hnil i Hi.
    destruct (FrameState_eqb (state_at m bm i) Free) eqn:Heq;
      [apply FrameState_eqb_eq; assumption |].
    assert (Hin : In i (List.filter
                          (fun i => negb (FrameState_eqb (state_at m bm i) Free))
                          (seqZ frame count))).
    { apply filter_In. split.
      - apply list_elem_of_In, elem_of_seqZ_range. assumption.
      - rewrite Heq. reflexivity. }
    rewrite Hnil in Hin. destruct Hin.
  - intros Hall.
    destruct (List.filter _ _) as [| x r] eqn:Hf; [reflexivity |].
    assert (Hin : In x (x :: r)) by (left; reflexivity).
    rewrite <- Hf in Hin. apply filter_In in Hin. destruct Hin as [Hin Hx].
    apply list_elem_of_In, elem_of_seqZ_range in Hin.
    rewrite (Hall x Hin) in Hx. discriminate.
Qed.

(** The body run on the pool that owns the frame. *)
Lemma check_at_spec (st : machine) (p : ContFramePool) (f size : Z) :
  in_pool p f = true ->
  0 <= base_frame_no p ->
  0 <= size ->
  f - base_frame_no p + size < 2 ^ 32 ->
  check_at p f size st =
    mkMachine (mem st) (objs st) (head st) (tail st)
      (console st
       ++ flat_map (frame_report p (mem st))
            (not_free_frames (mem st) (bitmap p) (f - base_frame_no p) size)).
Proof.
  intros Hin Hbase Hsize Hfit.
  unfold in_pool in Hin. apply andb_true_iff in Hin. destruct Hin as [Hle _].
  apply Z.leb_le in Hle.
  unfold check_at.
  rewrite (wrap_small (f - base_frame_no p)) by word_lia.
  rewrite (wrap_small (f - base_frame_no p + size)) by word_lia.
  rewrite check_run_spec by lia.
  rewrite Z2Nat.id by lia.
  replace (f - base_frame_no p + size - (f - base_frame_no p)) with size by lia.
  reflexivity.
Qed.

End Checker.

(** X1.  On a well-linked registry, [check_freed_frames f size] inspects the
    [size] frames of the owning pool from relative index [f - base_frame_no]
    on (the end of the pool is no limit) and appends to the console one
    report, carrying the absolute frame number, for each of them that is not
    Free, in ascending order; the report of a frame that holds the reserved
    pattern follows the line that [get_state] prints for it.  Memory, pools
    and links stay as they are. *)
Theorem check_freed_frames_reports (fuel : nat) (st : machine) (l : list nat)
    (f size : Z) (t : nat) (p : ContFramePool) :
  is_registry st l = true ->
  (length l <= fuel)%nat ->
  owner (objs st) l f = Some t ->
  objs st !! t = Some p ->
  0 <= base_frame_no p ->
  0 <= size ->
  f - base_frame_no p + size < 2 ^ 32 ->
  check_freed_frames fuel f size st =
    Done (mkMachine (mem st) (objs st) (head st) (tail st)
            (console st
             ++ flat_map (frame_report p (mem st))
                  (not_free_frames (mem st) (bitmap p) (f - base_frame_no p) size))).
Proof.
  intros Hreg Hfuel Hown Hobj Hbase Hsize Hfit.
  destruct (is_registry_unpack _ _ Hreg) as (_ & Hhead & _ & Hch).
  pose proof (check_walk_chain l st None fuel f size Hch Hfuel) as Hwalk.
  rewrite <- Hhead in Hwalk.
  unfold check_freed_frames. rewrite Hwalk, Hown, Hobj.
  destruct (owner_Some _ _ _ _ Hown) as (_ & q & Hq & Hin).
  assert (q = p) by congruence. subst q.
  rewrite check_at_spec by assumption. reflexivity.
Qed.

Lemma check_freed_frames_reports_witness :
  check_freed_frames 5 100 3 demo =
    Done (mkMachine (mem demo) (objs demo) (head demo) (tail demo)
            (not_freed_report demo_pool 0))
  /\ check_freed_frames 5 104 3 tainted =
       Done (mkMachine (mem tainted) (objs tainted) (head tainted) (tail tainted)
               (invalid_state_line :: not_freed_report demo_pool 5)).
Proof.
  split.
  - rewrite (check_freed_frames_reports 5 demo [1%nat] 100 3 1 demo_pool).
    + vm_compute. reflexivity.
    + vm_compute. reflexivity.
    + simpl. lia.
    + vm_compute. reflexivity.
    + reflexivity.
    + simpl. lia.
    + lia.
    + vm_compute. reflexivity.
  - rewrite (check_freed_frames_reports 5 tainted [1%nat] 104 3 1 demo_pool).
    + vm_compute. reflexivity.
    + vm_compute. reflexivity.
    + simpl. lia.
    + vm_compute. reflexivity.
    + reflexivity.
    + simpl. lia.
    + lia.
    + vm_compute. reflexivity.
Defined.

(** X2.  [check_freed_frames] is silent exactly when there is nothing to
    report: it returns the machine as it was when no pool of the registry
    contains [f], and, when a pool owns [f], if and only if every frame of
    the inspected range is Free. *)
Theorem check_freed_frames_silent (fuel : nat) (st : machine) (l : list nat)
    (f size : Z) :
  is_registry st l = true ->
  (length l <= fuel)%nat ->
  ((forall t p, t ∈ l -> objs st !! t = Some p -> in_pool p f = false) ->
   check_freed_frames fuel f size st = Done st)
  /\ (forall t p,
        owner (objs st) l f = Some t ->
        objs st !! t = Some p ->
        0 <= base_frame_no p ->
        0 <= size ->
        f - base_frame_no p + size < 2 ^ 32 ->
        (check_freed_frames fuel f size st = Done st
         <-> forall i, f - base_frame_no p <= i < f - base_frame_no p + size ->
                       frame_state st p i = Free)).
Proof.
  intros Hreg Hfuel. split.
  - intros Hout.
    destruct (is_registry_unpack _ _ Hreg) as (_ & Hhead & _ & Hch).
    pose proof (check_walk_chain l st None fuel f size Hch Hfuel) as Hwalk.
    rewrite <- Hhead in Hwalk.
    unfold check_freed_frames. rewrite Hwalk.
    rewrite (owner_None _ None _ None _ Hch Hout). reflexivity.
  - intros t p Hown Hobj Hbase Hsize Hfit.
    destruct (is_registry_unpack _ _ Hreg) as (_ & Hhead & _ & Hch).
    pose proof (check_walk_chain l st None fuel f size Hch Hfuel) as Hwalk.
    rewrite <- Hhead in Hwalk.
    unfold check_freed_frames. rewrite Hwalk, Hown, Hobj. clear Hwalk.
    destruct (owner_Some _ _ _ _ Hown) as (_ & q & Hq & Hin).
    assert (q = p) by congruence. subst q.
    rewrite check_at_spec by assumption.
    unfold frame_state. rewrite <- not_free_frames_nil.
    rewrite <- (flat_map_report_nil p (mem st)).
    destruct st as [m o hd tl out]. cbn [mem objs head tail console].
    split.
    + intros [= Heq]. rewrite <- (app_nil_r out) in Heq at 2.
      apply app_inv_head in Heq. assumption.
    + intros ->. rewrite app_nil_r. reflexivity.
Qed.

(** ** The effect of a release *)

Section ReleaseEffect.

#[local] Opaque set_state state_at get_state.

Lemma update_obj_payload (o o' : gmap nat ContFramePool) (k : nat)
    (g : ContFramePool -> ContFramePool) :
  (forall p, payload (g p) = payload p) ->
  update_obj o k g = Some o' ->
  forall x, payload <$> o' !! x = payload <$> o !! x.
Proof.
  intros Hg Hup x. unfold update_obj in Hup.
  destruct (o !! k) as [p |] eqn:Hk; [| discriminate].
  injection Hup as <-.
  destruct (decide (x = k)) as [-> | Hne].
  - rewrite lookup_insert_eq, Hk. cbn. rewrite Hg. reflexivity.
  - rewrite lookup_insert_ne by congruence. reflexivity.
Qed.

(** Unlinking rewrites links only. *)
Lemma unlink_payload (t : nat) (o o2 : gmap nat ContFramePool)
    (hd tl hd' tl' : option nat) :
  unlink t o hd tl = Some (o2, hd', tl') ->
  forall x, payload <$> o2 !! x = payload <$> o !! x.
Proof.
  unfold unlink. intros Hun x.
  destruct (o !! t) as [p0 |]; [| discriminate].
  destruct (match prev p0 with
            | Some pv => update_obj o pv (set_next (next p0))
            | None => Some o
            end) as [o1 |] eqn:H1; [| discriminate].
  destruct (o1 !! t) as [p1 |]; [| discriminate].
  destruct (match next p1 with
            | Some nx => update_obj o1 nx (set_prev (prev p1))
            | None => Some o1
            end) as [o2' |] eqn:H2; [| discriminate].
  destruct (o2' !! t) as [p2 |]; [| discriminate].
  injection Hun as <- _ _.
  assert (E1 : payload <$> o1 !! x = payload <$> o !! x).
  { destruct (prev p0); [| injection H1 as <-; reflexivity].
    eapply update_obj_payload; [| eassumption]. reflexivity. }
  assert (E2 : payload <$> o2' !! x = payload <$> o1 !! x).
  { destruct (next p1); [| injection H2 as <-; reflexivity].
    eapply update_obj_payload; [| eassumption]. reflexivity. }
  congruence.
Qed.

Lemma owner_payload (o o' : gmap nat ContFramePool) (l : list nat) (f : Z) :
  (forall x, payload <$> o' !! x = payload <$> o !! x) ->
  owner o' l f = owner o l f.
Proof.
  intros Hsame. induction l as [| x l IH]; [reflexivity |].
  cbn [owner]. specialize (Hsame x).
  destruct (o' !! x) as [q' |], (o !! x) as [q |]; cbn in Hsame; try discriminate;
    [| reflexivity].
  injection Hsame as Hb Hn _ _ _.
  unfold in_pool. rewrite Hb, Hn, IH. reflexivity.
Qed.

Lemma free_run_spec_le (k : nat) : forall m bm j nfr nfree out m' j' nfree' out',
  0 <= j -> nfr < 2 ^ 32 ->
  free_run k m bm j nfr nfree out = (m', j', nfree', out') -> j <= j'.
Proof.
  induction k as [| k IH]; intros m bm j nfr nfree out m' j' nfree' out' Hj Hnfr Hrun.
  - cbn [free_run] in Hrun. injection Hrun as _ <- _ _. lia.
  - rewrite free_run_S in Hrun.
    destruct (Z.ltb_spec j nfr) as [Hlt | Hge]; cbn [andb] in Hrun;
      [| injection Hrun as _ <- _ _; lia].
    destruct (FrameState_eqb (state_at m bm j) Used);
      [| injection Hrun as _ <- _ _; lia].
    rewrite (wrap_small (j + 1)) in Hrun by word_lia.
    apply IH in Hrun; lia.
Qed.

(** The freeing loop writes only the bytes that hold the frames it frees. *)
Lemma free_run_bytes (k : nat) : forall m bm j nfr nfree out m' j' nfree' out',
  0 <= j -> nfr < 2 ^ 32 ->
  free_run k m bm j nfr nfree out = (m', j', nfree', out') ->
  forall a, (forall i, j <= i < j' -> a <> bm + i / 4) -> m' a = m a.
Proof.
  induction k as [| k IH]; intros m bm j nfr nfree out m' j' nfree' out' Hj Hnfr Hrun a Ha.
  - cbn [free_run] in Hrun. injection Hrun as <- _ _ _. reflexivity.
  - rewrite free_run_S in Hrun.
    destruct (Z.ltb_spec j nfr) as [Hlt | Hge]; cbn [andb] in Hrun;
      [| injection Hrun as <- _ _ _; reflexivity].
    destruct (FrameState_eqb (state_at m bm j) Used);
      [| injection Hrun as <- _ _ _; reflexivity].
    rewrite (wrap_small (j + 1)) in Hrun by word_lia.
    pose proof Hrun as Hrun'.
    apply free_run_spec_le in Hrun'; [| lia | assumption].
    rewrite (IH (set_state m bm j Free) bm (j + 1) nfr (wrap (nfree + 1)) out m' j' nfree'
               out' ltac:(lia) Hnfr Hrun a).
    + apply set_state_other_byte. apply Ha. lia.
    + intros i Hi. apply Ha. lia.
Qed.

(** The whole effect of the body of [release_frames] on the pool that owns
    a HoS frame: the run freed, the bytes written, the counter, the objects
    and the registry. *)
Lemma release_at_effect (st : machine) (l : list nat) (t : nat) (p : ContFramePool)
    (f : Z) :
  is_registry st l = true ->
  t ∈ l ->
  objs st !! t = Some p ->
  pool_range_ok p ->
  in_pool p f = true ->
  state_at (mem st) (bitmap p) (f - base_frame_no p) = HoS ->
  exists m2 j o' hd' tl' out',
    release_at t p f st = Done (mkMachine m2 o' hd' tl' out')
    /\ f - base_frame_no p < j <= nframes p
    /\ (forall i, f - base_frame_no p <= i < j -> state_at m2 (bitmap p) i = Free)
    /\ (forall i, f - base_frame_no p < i < j ->
           state_at (mem st) (bitmap p) i = Used)
    /\ (forall i, i < f - base_frame_no p \/ j <= i ->
           state_at m2 (bitmap p) i = state_at (mem st) (bitmap p) i)
    /\ (j < nframes p -> state_at (mem st) (bitmap p) j <> Used)
    /\ (forall a, (forall i, f - base_frame_no p <= i < j -> a <> bitmap p + i / 4) ->
           m2 a = mem st a)
    /\ o' !! t
        = Some (set_nFreeFrames (wrap (nFreeFrames p + (j - (f - base_frame_no p)))) p)
    /\ (forall x, x <> t -> payload <$> o' !! x = payload <$> objs st !! x)
    /\ (wrap (nFreeFrames p + (j - (f - base_frame_no p))) = nframes p ->
          exists l1 l2, l = l1 ++ t :: l2
            /\ is_registry (mkMachine m2 o' hd' tl' out') (l1 ++ l2) = true)
    /\ (wrap (nFreeFrames p + (j - (f - base_frame_no p))) <> nframes p ->
          is_registry (mkMachine m2 o' hd' tl' out') l = true).
Proof.
  intros Hreg Hin Hobj Hok Hrange Hstate.
  destruct (is_registry_unpack _ _ Hreg) as (Hnd & Hhead & Htail & Hch).
  apply (in_pool_range p f Hok) in Hrange.
  destruct Hok as (Hbase & Hnfr & Hfits).
  rewrite release_at_head by (rewrite wrap_small by word_lia; exact Hstate).
  cbv zeta.
  set (h := f - base_frame_no p) in *.
  assert (Hh : 0 <= h < nframes p) by (unfold h; lia).
  rewrite (wrap_small h) by word_lia.
  rewrite (wrap_small (h + 1)) by word_lia.
  destruct (free_run _ _ _ _ _ _ _) as [[[m2 frame2] nfree] out1'] eqn:Hloop.
  assert (Hbytes : forall a, (forall i, h + 1 <= i < frame2 -> a <> bitmap p + i / 4) ->
            m2 a = set_state (mem st) (bitmap p) h Free a)
    by (eapply free_run_bytes; [| | exact Hloop]; [lia | word_lia]).
  apply free_run_spec in Hloop; [| lia | word_lia | apply wrap_range | lia].
  destruct Hloop as (Hle & Hend & Hfreed & Hrest & Hstop & Hcount).
  assert (Hend' : frame2 <= nframes p).
  { destruct (Z.eq_dec frame2 (h + 1)); [lia | apply Hend; lia]. }
  assert (Hm1 : forall i, i <> h ->
            state_at (set_state (mem st) (bitmap p) h Free) (bitmap p) i
            = state_at (mem st) (bitmap p) i)
    by (intros i Hi; apply state_at_set_other; assumption).
  assert (Hnfree : nfree = wrap (nFreeFrames p + (frame2 - h))).
  { rewrite Hcount, wrap_add_l. f_equal. lia. }
  rewrite Hnfree. clear Hcount Hnfree nfree.
  set (nf' := wrap (nFreeFrames p + (frame2 - h))).
  set (o1 := <[t := set_nFreeFrames nf' p]> (objs st)).
  assert (Hch1 : chain o1 None l None = true)
    by (eapply chain_insert_links; try eassumption; reflexivity).
  assert (Hframes :
    h < frame2 <= nframes p
    /\ (forall i, h <= i < frame2 -> state_at m2 (bitmap p) i = Free)
    /\ (forall i, h < i < frame2 -> state_at (mem st) (bitmap p) i = Used)
    /\ (forall i, i < h \/ frame2 <= i ->
           state_at m2 (bitmap p) i = state_at (mem st) (bitmap p) i)
    /\ (frame2 < nframes p -> state_at (mem st) (bitmap p) frame2 <> Used)
    /\ (forall a, (forall i, h <= i < frame2 -> a <> bitmap p + i / 4) ->
           m2 a = mem st a)).
  { split; [lia |]. split; [| split; [| split; [| split]]].
    - intros i Hi. destruct (Z.eq_dec i h) as [-> | Hne].
      + rewrite Hrest by lia. apply state_at_set_same. discriminate.
      + apply (Hfreed i). lia.
    - intros i Hi. destruct (Hfreed i ltac:(lia)) as [Hu _].
      rewrite Hm1 in Hu by lia. assumption.
    - intros i Hi. rewrite Hrest by lia. apply Hm1. lia.
    - intros Hlt Hu. apply (Hstop Hlt). rewrite Hrest by lia.
      rewrite Hm1 by lia. assumption.
    - intros a Ha. rewrite Hbytes by (intros i Hi; apply Ha; lia).
      apply set_state_other_byte. apply Ha. lia. }
  destruct Hframes as (F1 & F2 & F3 & F4 & F5 & F6).
  destruct (Z.eqb_spec nf' (nframes p)) as [Hfull | Hfull].
  - destruct (list_elem_of_split _ _ Hin) as (l1 & l2 & ->).
    destruct (unlink_spec o1 l1 t l2 Hnd Hch1) as (o2 & Hun & Hch2 & Ht).
    rewrite Hhead, Htail, Hun.
    destruct (NoDup_remove_middle _ _ _ Hnd) as [Hnd' _].
    exists m2, frame2. do 4 eexists. split; [reflexivity |].
    repeat (split; [assumption |]).
    split; [rewrite Ht; apply lookup_insert_eq |].
    split.
    { intros x Hx. rewrite (unlink_payload _ _ _ _ _ _ _ Hun x).
      unfold o1. rewrite lookup_insert_ne by congruence. reflexivity. }
    split.
    + intros _. exists l1, l2. split; [reflexivity |].
      unfold is_registry. cbn [objs head tail].
      rewrite !andb_true_iff, !bool_decide_eq_true.
      repeat split; assumption || reflexivity.
    + intros Hne. contradiction.
  - exists m2, frame2. do 4 eexists. split; [reflexivity |].
    repeat (split; [assumption |]).
    split; [apply lookup_insert_eq |].
    split.
    { intros x Hx. unfold o1. rewrite lookup_insert_ne by congruence. reflexivity. }
    split.
    + intros Heq. contradiction.
    + intros _. unfold is_registry. cbn [objs head tail].
      rewrite !andb_true_iff, !bool_decide_eq_true. repeat split; assumption.
Qed.

End ReleaseEffect.

(** ** Facts about the example state, for the witnesses *)

Lemma demo_registry : is_registry demo [1%nat] = true.
Proof. vm_compute. reflexivity. Qed.

Lemma demo_object : objs demo !! 1%nat = Some demo_pool.
Proof. reflexivity. Qed.

Lemma demo_range_ok : pool_range_ok demo_pool.
Proof. unfold pool_range_ok. simpl. word_lia. Qed.

Lemma demo_owner (f : Z) : 100 <= f < 110 -> owner (objs demo) [1%nat] f = Some 1%nat.
Proof.
  intros Hf. cbn [owner]. rewrite demo_object.
  replace (in_pool demo_pool f) with true; [reflexivity |].
  symmetry. apply (in_pool_range _ _ demo_range_ok). simpl. lia.
Qed.

Lemma demo_frames (i : Z) :
  frame_state demo demo_pool i = if i =? 0 then HoS else Free.
Proof.
  unfold frame_state, demo. cbn [mem bitmap demo_pool].
  destruct (Z.eqb_spec i 0) as [-> | Hne].
  - apply state_at_set_same. discriminate.
  - rewrite state_at_set_other by assumption.
    apply state_at_zero. reflexivity.
Qed.

Lemma demo_no_error : no_error demo demo_pool.
Proof. intros i _. rewrite demo_frames. destruct (i =? 0); discriminate. Qed.

Lemma demo_only_owner (f : Z) (x : nat) (q : ContFramePool) :
  x ∈ [1%nat] -> x <> 1%nat -> objs demo !! x = Some q -> in_pool q f = false.
Proof. intros Hx Hne. apply list_elem_of_singleton in Hx. contradiction. Qed.

(** ** Properties of a release *)

Section ReleaseProperties.

#[local] Opaque set_state state_at get_state.

Lemma set_nFreeFrames_payload (v : Z) (p : ContFramePool) :
  base_frame_no (set_nFreeFrames v p) = base_frame_no p
  /\ nframes (set_nFreeFrames v p) = nframes p
  /\ bitmap (set_nFreeFrames v p) = bitmap p.
Proof. repeat split. Qed.

(** The owner of a frame depends on the ranges of the pools only. *)
Lemma owner_ranges (o o' : gmap nat ContFramePool) (l : list nat) (f : Z) :
  (forall x, (fun p => (base_frame_no p, nframes p)) <$> o' !! x
             = (fun p => (base_frame_no p, nframes p)) <$> o !! x) ->
  owner o' l f = owner o l f.
Proof.
  intros Hsame. induction l as [| x l IH]; [reflexivity |].
  cbn [owner]. specialize (Hsame x).
  destruct (o' !! x) as [q' |], (o !! x) as [q |]; cbn in Hsame; try discriminate;
    [| reflexivity].
  injection Hsame as Hb Hn.
  unfold in_pool. rewrite Hb, Hn, IH. reflexivity.
Qed.

Lemma payload_ranges (q q' : option ContFramePool) :
  payload <$> q' = payload <$> q ->
  (fun p => (base_frame_no p, nframes p)) <$> q'
  = (fun p => (base_frame_no p, nframes p)) <$> q.
Proof.
  destruct q' as [a |], q as [b |]; cbn; try discriminate; [| reflexivity].
  unfold payload. intros [= -> -> _ _ _]. reflexivity.
Qed.

End ReleaseProperties.

(** X4.  A successful [release_frames f] frees exactly one run: the HoS
    frame at [f - base_frame_no] and the Used frames that follow it, up to
    the first frame that is not Used or to the end of the pool.  Every other
    frame keeps its state, the counter grows by the length of the run (in
    [unsigned long] arithmetic), and range and state array of the pool stay
    as they are. *)
Theorem release_frames_frees_run (fuel : nat) (st : machine) (l : list nat) (f : Z)
    (t : nat) (p : ContFramePool) :
  is_registry st l = true ->
  (length l <= fuel)%nat ->
  owner (objs st) l f = Some t ->
  objs st !! t = Some p ->
  pool_range_ok p ->
  frame_state st p (f - base_frame_no p) = HoS ->
  exists st' p' j,
    release_frames fuel f st = Done st'
    /\ objs st' !! t = Some p'
    /\ f - base_frame_no p < j <= nframes p
    /\ (forall i, f - base_frame_no p <= i < j -> frame_state st' p' i = Free)
    /\ (forall i, f - base_frame_no p < i < j -> frame_state st p i = Used)
    /\ (j < nframes p -> frame_state st p j <> Used)
    /\ (forall i, i < f - base_frame_no p \/ j <= i ->
          frame_state st' p' i = frame_state st p i)
    /\ nFreeFrames p' = wrap (nFreeFrames p + (j - (f - base_frame_no p)))
    /\ base_frame_no p' = base_frame_no p /\ nframes p' = nframes p
    /\ bitmap p' = bitmap p.
Proof.
  intros Hreg Hfuel Hown Hobj Hok Hstate.
  destruct (is_registry_unpack _ _ Hreg) as (_ & Hhead & _ & Hch).
  pose proof (release_walk_chain l st None fuel f Hch Hfuel) as Hwalk.
  rewrite <- Hhead in Hwalk.
  unfold release_frames. rewrite Hwalk, Hown, Hobj. clear Hwalk.
  destruct (owner_Some _ _ _ _ Hown) as (Hin & q & Hq & Hrange).
  assert (q = p) by congruence. subst q.
  destruct (release_at_effect st l t p f Hreg Hin Hobj Hok Hrange Hstate)
    as (m2 & j & o' & hd' & tl' & out' & Hrun & Hj & Hfree & Hused & Hother
        & Hstop & _ & Hobj' & _).
  rewrite Hrun. eexists. eexists. exists j.
  split; [reflexivity |]. split; [exact Hobj' |].
  unfold frame_state. cbn [mem bitmap set_nFreeFrames nFreeFrames base_frame_no nframes].
  repeat split; try assumption; lia.
Qed.

Lemma release_frames_frees_run_witness :
  exists st' p' j,
    release_frames 5 100 demo = Done st' /\ objs st' !! 1%nat = Some p'
    /\ 0 < j <= 10 /\ nFreeFrames p' = wrap (9 + j).
Proof.
  destruct (release_frames_frees_run 5 demo [1%nat] 100 1 demo_pool)
    as (st' & p' & j & Hrun & Hobj & Hj & _ & _ & _ & _ & Hcount & _).
  - exact demo_registry.
  - simpl. lia.
  - apply demo_owner. lia.
  - exact demo_object.
  - exact demo_range_ok.
  - rewrite demo_frames. reflexivity.
  - exists st', p', j. simpl in Hj, Hcount.
    replace (j - (100 - 100)) with j in Hcount by lia.
    repeat split; (assumption || lia).
Defined.

Section ReleaseAgain.

#[local] Opaque set_state state_at get_state.

Lemma in_pool_payload (q q' : ContFramePool) (f : Z) :
  payload q' = payload q -> in_pool q' f = in_pool q f.
Proof. unfold payload, in_pool. intros [= -> -> _ _ _]. reflexivity. Qed.

(** After the effect of [release_at]: what a lookup of the same frame number
    finds in the new state. *)
Lemma owner_after_release (st : machine) (l : list nat) (t : nat) (p : ContFramePool)
    (f : Z) (o' : gmap nat ContFramePool) (v : Z) :
  objs st !! t = Some p ->
  o' !! t = Some (set_nFreeFrames v p) ->
  (forall x, x <> t -> payload <$> o' !! x = payload <$> objs st !! x) ->
  forall l', owner o' l' f = owner (objs st) l' f.
Proof.
  intros Hobj Hobj' Hpay l'. apply owner_ranges. intros x.
  destruct (decide (x = t)) as [-> | Hne].
  - rewrite Hobj', Hobj. reflexivity.
  - apply payload_ranges, Hpay, Hne.
Qed.

(** Where the released pool was the only one to contain [f], no pool of the
    registry that is left after a retirement contains it. *)
Lemma no_owner_after_retire (st : machine) (l1 l2 : list nat) (t : nat) (f : Z)
    (o' : gmap nat ContFramePool) :
  NoDup (l1 ++ t :: l2) ->
  (forall x q, x ∈ l1 ++ t :: l2 -> x <> t -> objs st !! x = Some q ->
               in_pool q f = false) ->
  (forall x, x <> t -> payload <$> o' !! x = payload <$> objs st !! x) ->
  forall x q', x ∈ l1 ++ l2 -> o' !! x = Some q' -> in_pool q' f = false.
Proof.
  intros Hnd Honly Hpay x q' Hx Hq'.
  destruct (NoDup_remove_middle _ _ _ Hnd) as [_ Hgone].
  assert (Hne : x <> t) by (intros ->; contradiction).
  specialize (Hpay x Hne). rewrite Hq' in Hpay.
  destruct (objs st !! x) as [q |] eqn:Hq; [| discriminate].
  change (Some (payload q') = Some (payload q)) in Hpay.
  rewrite (in_pool_payload q q' f) by congruence.
  apply (Honly x q); try assumption.
  apply elem_of_app in Hx. apply elem_of_app.
  destruct Hx; [left | right; right]; assumption.
Qed.

End ReleaseAgain.

(** X15.  A second release of the same frame number is harmless.  After a
    successful [release_frames f] on a registry in which one pool only
    contains [f], [release_frames f] again changes no byte of memory, no pool
    and no link.  What it prints is decided by the counter that the first
    release left: when the pool is not entirely free it is still registered,
    the frame is found Free, and the call prints the not-a-head report and
    nothing else; when the first release retired the pool, no pool contains
    [f] any more and the call prints nothing. *)
Theorem release_frames_twice (fuel : nat) (st : machine) (l : list nat) (f : Z)
    (t : nat) (p : ContFramePool) :
  is_registry st l = true ->
  (length l <= fuel)%nat ->
  owner (objs st) l f = Some t ->
  objs st !! t = Some p ->
  pool_range_ok p ->
  frame_state st p (f - base_frame_no p) = HoS ->
  (forall x q, x ∈ l -> x <> t -> objs st !! x = Some q -> in_pool q f = false) ->
  exists st' st'' p',
    release_frames fuel f st = Done st'
    /\ objs st' !! t = Some p'
    /\ nframes p' = nframes p
    /\ release_frames fuel f st' = Done st''
    /\ mem st'' = mem st' /\ objs st'' = objs st'
    /\ head st'' = head st' /\ tail st'' = tail st'
    /\ (nFreeFrames p' <> nframes p' ->
          is_registry st' l = true
          /\ frame_state st' p' (f - base_frame_no p) = Free
          /\ console st'' =
               console st'
               ++ [puts "release_frames(): first frame not a Head-Of-Sequence"])
    /\ (nFreeFrames p' = nframes p' ->
          (exists l1 l2, l = l1 ++ t :: l2 /\ is_registry st' (l1 ++ l2) = true)
          /\ console st'' = console st').
Proof.
  intros Hreg Hfuel Hown Hobj Hok Hstate Honly.
  destruct (is_registry_unpack _ _ Hreg) as (Hnd & Hhead & _ & Hch).
  pose proof (release_walk_chain l st None fuel f Hch Hfuel) as Hwalk.
  rewrite <- Hhead in Hwalk.
  unfold release_frames at 1. rewrite Hwalk, Hown, Hobj. clear Hwalk.
  destruct (owner_Some _ _ _ _ Hown) as (Hin & q & Hq & Hrange).
  assert (q = p) by congruence. subst q.
  destruct (release_at_effect st l t p f Hreg Hin Hobj Hok Hrange Hstate)
    as (m2 & j & o' & hd' & tl' & out' & Hrun & Hj & Hfree & _ & _
        & _ & _ & Hobj' & Hpay & Hfull & Hpart).
  rewrite Hrun.
  set (st' := mkMachine m2 o' hd' tl' out') in *.
  set (v := wrap (nFreeFrames p + (j - (f - base_frame_no p)))) in *.
  destruct (Z.eq_dec v (nframes p)) as [Heq | Hne].
  - destruct (Hfull Heq) as (l1 & l2 & Hl & Hreg').
    destruct (is_registry_unpack _ _ Hreg') as (_ & Hhead' & _ & Hch').
    assert (Hlen : (length (l1 ++ l2) <= fuel)%nat).
    { rewrite Hl in Hfuel. rewrite length_app in *. cbn [length] in Hfuel. lia. }
    pose proof (release_walk_chain (l1 ++ l2) st' None fuel f Hch' Hlen) as Hwalk.
    rewrite <- Hhead' in Hwalk.
    assert (Hnone : owner (objs st') (l1 ++ l2) f = None).
    { apply (owner_None _ None _ None f Hch').
      apply (no_owner_after_retire st l1 l2 t f o'); try assumption.
      - rewrite <- Hl. exact Hnd.
      - rewrite <- Hl. exact Honly. }
    exists st', st', (set_nFreeFrames v p).
    split; [reflexivity |]. split; [exact Hobj' |]. split; [reflexivity |].
    split; [unfold release_frames; rewrite Hwalk, Hnone; reflexivity |].
    do 4 (split; [reflexivity |]). split.
    + intros Hc. cbn [set_nFreeFrames nFreeFrames nframes] in Hc. contradiction.
    + intros _. split; [exists l1, l2; split; assumption | reflexivity].
  - specialize (Hpart Hne).
    destruct (is_registry_unpack _ _ Hpart) as (_ & Hhead' & _ & Hch').
    pose proof (release_walk_chain l st' None fuel f Hch' Hfuel) as Hwalk.
    rewrite <- Hhead' in Hwalk.
    pose proof Hok as (Hbase & Hnfr & Hfits).
    pose proof (proj1 (in_pool_range p f Hok) Hrange) as Hrange'.
    assert (Hnow : state_at m2 (bitmap p) (f - base_frame_no p) = Free)
      by (apply Hfree; lia).
    assert (Hagain : release_frames fuel f st' =
              Done (mkMachine m2 o' hd' tl'
                      (out' ++ [puts "release_frames(): first frame not a Head-Of-Sequence"]))).
    { unfold release_frames. rewrite Hwalk.
      change (objs st') with o'.
      rewrite (owner_after_release st l t p f o' _ Hobj Hobj' Hpay l), Hown, Hobj'.
      rewrite release_at_not_head;
        cbn [base_frame_no bitmap set_nFreeFrames mem st'];
        rewrite (wrap_small (f - base_frame_no p)) by word_lia;
        rewrite Hnow; [reflexivity | discriminate]. }
    exists st', (mkMachine m2 o' hd' tl'
                   (out' ++ [puts "release_frames(): first frame not a Head-Of-Sequence"])),
           (set_nFreeFrames v p).
    split; [reflexivity |]. split; [exact Hobj' |]. split; [reflexivity |].
    split; [exact Hagain |].
    do 4 (split; [reflexivity |]). split.
    + intros _. split; [exact Hpart |]. split; [exact Hnow | reflexivity].
    + intros Hc. cbn [set_nFreeFrames nFreeFrames nframes] in Hc. contradiction.
Qed.

Lemma release_frames_twice_witness :
  (exists st' st'',
     release_frames 5 101 busy = Done st'
     /\ release_frames 5 101 st' = Done st''
     /\ mem st'' = mem st' /\ objs st'' = objs st'
     /\ console st'' =
          console st' ++ [puts "release_frames(): first frame not a Head-Of-Sequence"])
  /\ (exists st' st'',
        release_frames 5 100 demo = Done st'
        /\ release_frames 5 100 st' = Done st''
        /\ mem st'' = mem st' /\ objs st'' = objs st'
        /\ console st'' = console st').
Proof.
  split.
  - destruct (release_frames_twice 5 busy [1%nat] 101 1 busy_pool)
      as (st' & st'' & p' & H1 & Hp' & _ & H2 & Hm & Ho & _ & _ & Hpart & _).
    + vm_compute. reflexivity.
    + simpl. lia.
    + vm_compute. reflexivity.
    + reflexivity.
    + unfold pool_range_ok. simpl. lia.
    + vm_compute. reflexivity.
    + intros x q Hx Hne. apply list_elem_of_singleton in Hx. contradiction.
    + exists st', st''. repeat split; try assumption.
      apply Hpart.
      pose proof H1 as Hc. vm_compute in Hc. injection Hc as <-.
      vm_compute in Hp'. injection Hp' as <-. simpl. lia.
  - destruct (release_frames_twice 5 demo [1%nat] 100 1 demo_pool)
      as (st' & st'' & p' & H1 & Hp' & _ & H2 & Hm & Ho & _ & _ & _ & Hfull).
    + exact demo_registry.
    + simpl. lia.
    + apply demo_owner. lia.
    + exact demo_object.
    + exact demo_range_ok.
    + rewrite demo_frames. reflexivity.
    + intros x q. apply demo_only_owner.
    + exists st', st''. repeat split; try assumption.
      apply Hfull.
      pose proof H1 as Hc. vm_compute in Hc. injection Hc as <-.
      vm_compute in Hp'. injection Hp' as <-. reflexivity.
Defined.

(** X3.  After a successful [release_frames f], on a registry in which one
    pool only contains [f], the freed run is the head and the Used frames
    that follow it, up to the first frame that is not Used or to the end of
    the pool; [check_freed_frames] over that run (or any initial part of it)
    finds every frame Free and returns the machine unchanged.  Where the
    pool is still registered and the frame after the run is not Free, a
    check that reaches beyond the run does report. *)
Theorem release_then_check_silent (fuel : nat) (st : machine) (l : list nat) (f : Z)
    (t : nat) (p : ContFramePool) :
  is_registry st l = true ->
  (length l <= fuel)%nat ->
  owner (objs st) l f = Some t ->
  objs st !! t = Some p ->
  pool_range_ok p ->
  frame_state st p (f - base_frame_no p) = HoS ->
  (forall x q, x ∈ l -> x <> t -> objs st !! x = Some q -> in_pool q f = false) ->
  exists st' p' j,
    release_frames fuel f st = Done st'
    /\ objs st' !! t = Some p'
    /\ nframes p' = nframes p
    /\ f - base_frame_no p < j <= nframes p
    /\ (forall i, f - base_frame_no p < i < j -> frame_state st p i = Used)
    /\ (j < nframes p -> frame_state st p j <> Used)
    /\ (forall i, f - base_frame_no p <= i < j -> frame_state st' p' i = Free)
    /\ (forall size, 0 <= size <= j - (f - base_frame_no p) ->
          check_freed_frames fuel f size st' = Done st')
    /\ (nFreeFrames p' <> nframes p' ->
        j < nframes p ->
        frame_state st p j <> Free ->
        forall size, j - (f - base_frame_no p) < size ->
          f - base_frame_no p + size < 2 ^ 32 ->
          check_freed_frames fuel f size st' <> Done st').
Proof.
  intros Hreg Hfuel Hown Hobj Hok Hstate Honly.
  destruct (is_registry_unpack _ _ Hreg) as (Hnd & Hhead & _ & Hch).
  pose proof (release_walk_chain l st None fuel f Hch Hfuel) as Hwalk.
  rewrite <- Hhead in Hwalk.
  unfold release_frames at 1. rewrite Hwalk, Hown, Hobj. clear Hwalk.
  destruct (owner_Some _ _ _ _ Hown) as (Hin & q & Hq & Hrange).
  assert (q = p) by congruence. subst q.
  destruct (release_at_effect st l t p f Hreg Hin Hobj Hok Hrange Hstate)
    as (m2 & j & o' & hd' & tl' & out' & Hrun & Hj & Hfree & Hused & Hother
        & Hstop & _ & Hobj' & Hpay & Hfull & Hpart).
  rewrite Hrun.
  set (st' := mkMachine m2 o' hd' tl' out') in *.
  set (v := wrap (nFreeFrames p + (j - (f - base_frame_no p)))) in *.
  pose proof Hok as (Hbase & Hnfr & Hfits).
  pose proof (proj1 (in_pool_range p f Hok) Hrange) as Hrange'.
  assert (Hreg' : v <> nframes p -> forall size,
            0 <= size -> f - base_frame_no p + size < 2 ^ 32 ->
            check_freed_frames fuel f size st' =
              Done (mkMachine m2 o' hd' tl'
                      (out' ++ flat_map (frame_report p m2)
                                 (not_free_frames m2 (bitmap p)
                                    (f - base_frame_no p) size)))).
  { intros Hne size Hsize Hfit. specialize (Hpart Hne).
    destruct (is_registry_unpack _ _ Hpart) as (_ & Hhead' & _ & Hch').
    pose proof (check_walk_chain l st' None fuel f size Hch' Hfuel) as Hwalk.
    rewrite <- Hhead' in Hwalk.
    unfold check_freed_frames. rewrite Hwalk.
    change (objs st') with o'.
    rewrite (owner_after_release st l t p f o' _ Hobj Hobj' Hpay l), Hown, Hobj'.
    rewrite check_at_spec; cbn [base_frame_no bitmap set_nFreeFrames];
      [reflexivity | exact Hrange | lia | lia | assumption]. }
  exists st', (set_nFreeFrames v p), j.
  split; [reflexivity |]. split; [exact Hobj' |]. split; [reflexivity |].
  split; [exact Hj |]. split; [exact Hused |]. split; [exact Hstop |].
  split; [exact Hfree |]. split.
  - intros size Hsize.
    destruct (Z.eq_dec v (nframes p)) as [Heq | Hne].
    + destruct (Hfull Heq) as (l1 & l2 & Hl & Hreg2).
      destruct (is_registry_unpack _ _ Hreg2) as (_ & Hhead' & _ & Hch').
      assert (Hlen : (length (l1 ++ l2) <= fuel)%nat).
      { rewrite Hl in Hfuel. rewrite length_app in *. cbn [length] in Hfuel. lia. }
      pose proof (check_walk_chain (l1 ++ l2) st' None fuel f size Hch' Hlen) as Hwalk.
      rewrite <- Hhead' in Hwalk.
      unfold check_freed_frames. rewrite Hwalk.
      rewrite (owner_None _ None _ None f Hch'); [reflexivity |].
      apply (no_owner_after_retire st l1 l2 t f o'); try assumption.
      * rewrite <- Hl. exact Hnd.
      * rewrite <- Hl. exact Honly.
    + rewrite (Hreg' Hne size) by word_lia.
      replace (not_free_frames m2 (bitmap p) (f - base_frame_no p) size)
        with (@nil Z).
      * cbn [flat_map]. rewrite app_nil_r. reflexivity.
      * symmetry. apply not_free_frames_nil. intros i Hi. apply Hfree. lia.
  - intros Hne Hjlt Hnf size Hsize Hfit Habs.
    cbn [set_nFreeFrames nFreeFrames nframes] in Hne.
    rewrite (Hreg' Hne size) in Habs by lia.
    injection Habs as Habs. rewrite <- (app_nil_r out') in Habs at 2.
    apply app_inv_head in Habs.
    apply flat_map_report_nil in Habs.
    rewrite not_free_frames_nil in Habs.
    apply Hnf. unfold frame_state. rewrite <- (Hother j) by lia.
    apply Habs. lia.
Qed.

Lemma release_then_check_silent_witness :
  exists st', release_frames 5 101 busy = Done st'
    /\ is_registry st' [1%nat] = true
    /\ check_freed_frames 5 101 3 st' = Done st'.
Proof.
  destruct (release_then_check_silent 5 busy [1%nat] 101 1 busy_pool)
    as (st' & p' & j & Hrun & _ & _ & Hj & _ & Hstop & _ & Hcheck & _).
  - vm_compute. reflexivity.
  - simpl. lia.
  - vm_compute. reflexivity.
  - reflexivity.
  - unfold pool_range_ok. simpl. lia.
  - vm_compute. reflexivity.
  - intros x q Hx Hne. apply list_elem_of_singleton in Hx. contradiction.
  - exists st'. split; [assumption |]. split.
    + pose proof Hrun as Hc. vm_compute in Hc. injection Hc as <-.
      vm_compute. reflexivity.
    + apply Hcheck. simpl in Hj |- *.
      assert (Hc : j = 2 \/ j = 3 \/ 4 <= j) by lia.
      destruct Hc as [-> | [-> | Hc]]; [| | lia];
        exfalso; apply Hstop; simpl; try lia; vm_compute; reflexivity.
Defined.

(** ** The effect of an allocation, whatever the frames after the head hold *)

Lemma state_at_byte (m m' : memory) (b f : Z) :
  m' (b + f / 4) = m (b + f / 4) -> state_at m' b f = state_at m b f.
Proof. intros H. rewrite !state_at_decode. unfold field. cbv zeta. rewrite H. reflexivity. Qed.

Section AllocationEffect.

#[local] Opaque set_state state_at get_state.

Implicit Types (m : memory) (bm : Z).

Lemma scan_stops (d : nat) : forall fuel m bm s h out,
  0 <= s -> h < 2 ^ 32 ->
  h = s + Z.of_nat d ->
  (forall i, s <= i < h -> state_at m bm i = Used \/ state_at m bm i = HoS) ->
  state_at m bm h <> Used -> state_at m bm h <> HoS ->
  (d < fuel)%nat ->
  scan fuel m bm s out = Some (h, out ++ test_events (state_at m bm h)).
Proof.
  induction d as [| d IH]; intros fuel m bm s h out Hs Hh Hd Hbusy Hu Hhos Hfuel.
  - destruct fuel as [| k]; [lia |]. rewrite scan_S.
    replace s with h by lia.
    destruct (state_at m bm h); congruence.
  - destruct fuel as [| k]; [lia |]. rewrite scan_S.
    assert (Hs' : wrap (s + 1) = s + 1) by (apply wrap_small; word_lia).
    destruct (Hbusy s ltac:(lia)) as [-> | ->]; rewrite Hs';
      apply IH; try lia; try assumption; intros i Hi; apply Hbusy; lia.
Qed.

Lemma overwrite_trace_ext (k : nat) : forall m m' bm s,
  (forall i, s <= i < s + Z.of_nat k -> state_at m' bm i = state_at m bm i) ->
  overwrite_trace m' bm s (Z.of_nat k) = overwrite_trace m bm s (Z.of_nat k).
Proof.
  unfold overwrite_trace.
  induction k as [| k IH]; intros m m' bm s Hsame; [reflexivity |].
  rewrite seqZ_cons by lia. cbn [flat_map].
  replace (Z.pred (Z.of_nat (S k))) with (Z.of_nat k) by lia.
  rewrite (Hsame s) by lia. f_equal.
  apply IH. intros i Hi. apply Hsame. lia.
Qed.

(** The marking loop: the bytes it writes and what it prints. *)
Lemma mark_used_trace (k : nat) : forall m bm j nfree out m' nfree' out',
  0 <= j -> j + Z.of_nat k <= 2 ^ 32 ->
  mark_used k m bm j nfree out = (m', nfree', out') ->
  (forall a, (forall i, j <= i < j + Z.of_nat k -> a <> bm + i / 4) -> m' a = m a)
  /\ out' = out ++ overwrite_trace m bm j (Z.of_nat k).
Proof.
  induction k as [| k IH]; intros m bm j nfree out m' nfree' out' Hj Hk Hrun.
  - cbn [mark_used] in Hrun. injection Hrun as <- _ <-.
    split; [reflexivity |]. cbn. rewrite app_nil_r. reflexivity.
  - rewrite mark_used_S in Hrun.
    assert (Hcons : overwrite_trace m bm j (Z.of_nat (S k))
                    = overwrite_events (state_at m bm j)
                      ++ overwrite_trace m bm (j + 1) (Z.of_nat k)).
    { unfold overwrite_trace. rewrite seqZ_cons by lia. cbn [flat_map].
      replace (Z.pred (Z.of_nat (S k))) with (Z.of_nat k) by lia.
      replace (Z.succ j) with (j + 1) by lia. reflexivity. }
    destruct (Z.eq_dec (j + 1) (2 ^ 32)) as [Hlast | Hlast].
    + assert (k = 0%nat) by lia. subst k. cbn [mark_used] in Hrun.
      injection Hrun as <- _ <-. split.
      * intros a Ha. apply set_state_other_byte. apply Ha. lia.
      * rewrite Hcons. cbn. rewrite app_nil_r. reflexivity.
    + rewrite (wrap_small (j + 1)) in Hrun by word_lia.
      apply IH in Hrun; [| lia | lia].
      destruct Hrun as [Hbytes Hout]. split.
      * intros a Ha. rewrite Hbytes by (intros i Hi; apply Ha; lia).
        apply set_state_other_byte. apply Ha. lia.
      * rewrite Hout, Hcons.
        rewrite (overwrite_trace_ext k m (set_state m bm j Used))
          by (intros i Hi; apply state_at_set_other; lia).
        rewrite <- app_assoc. reflexivity.
Qed.

(** [get_frames n] on a pool whose first frame that is not in use is [h]:
    the whole effect, with no assumption on the frames after [h]. *)
Lemma get_frames_effect (fuel this : nat) (st : machine) (p : ContFramePool) (n h : Z) :
  objs st !! this = Some p ->
  0 < nFreeFrames p ->
  1 <= n ->
  0 <= h ->
  h + n <= 2 ^ 32 ->
  (forall i, 0 <= i < h -> frame_state st p i = Used \/ frame_state st p i = HoS) ->
  frame_state st p h <> Used -> frame_state st p h <> HoS ->
  (Z.to_nat h < fuel)%nat ->
  exists m',
    get_frames fuel this n st =
      Done (wrap (h + base_frame_no p),
            mkMachine m' (<[this := set_nFreeFrames (wrap (nFreeFrames p - n)) p]> (objs st))
              (head st) (tail st)
              (console st
               ++ test_events (state_at (mem st) (bitmap p) h)
               ++ overwrite_trace (mem st) (bitmap p) (h + 1) (n - 1)))
    /\ state_at m' (bitmap p) h = HoS
    /\ (forall j, h < j < h + n -> state_at m' (bitmap p) j = Used)
    /\ (forall i, i < h \/ h + n <= i ->
          state_at m' (bitmap p) i = state_at (mem st) (bitmap p) i)
    /\ (forall a, (forall i, h <= i < h + n -> a <> bitmap p + i / 4) ->
          m' a = mem st a).
Proof.
  intros Hobj Hfree Hn Hh Hfit Hbusy Hu Hhos Hfuel.
  unfold frame_state in *.
  assert (Hscan : scan fuel (mem st) (bitmap p) 0 (console st)
                  = Some (h, console st ++ test_events (state_at (mem st) (bitmap p) h)))
    by (apply (scan_stops (Z.to_nat h)); try lia; try assumption; word_lia).
  unfold get_frames. rewrite Hobj.
  replace (0 <? nFreeFrames p) with true by (symmetry; apply Z.ltb_lt; lia).
  cbn [negb]. rewrite Hscan.
  rewrite (wrap_small (n - 1)) by word_lia.
  set (m1 := set_state (mem st) (bitmap p) h HoS).
  set (out0 := console st ++ test_events (state_at (mem st) (bitmap p) h)).
  assert (Hm1 : forall i, i <> h -> state_at m1 (bitmap p) i
                                   = state_at (mem st) (bitmap p) i)
    by (intros i Hi; apply state_at_set_other; assumption).
  destruct (mark_used (Z.to_nat (n - 1)) m1 (bitmap p) (wrap (h + 1))
              (wrap (nFreeFrames p - 1)) out0)
    as [[m2 nfree] out] eqn:Hmark.
  destruct (Z.eq_dec (h + 1) (2 ^ 32)) as [Hlast | Hlast].
  - (* the head is the last frame an index can name: nothing follows it *)
    assert (n = 1) by lia. subst n.
    cbn [Z.sub Z.to_nat Z.pos_sub mark_used] in Hmark. injection Hmark as <- <- <-.
    exists m1. unfold out0.
    replace (overwrite_trace (mem st) (bitmap p) (h + 1) (1 - 1)) with (@nil console_event)
      by reflexivity.
    rewrite app_nil_r.
    split; [reflexivity |]. split; [| split; [| split]].
    + apply state_at_set_same. discriminate.
    + intros j Hj. lia.
    + intros i Hi. apply Hm1. lia.
    + intros a Ha. apply set_state_other_byte. apply Ha. lia.
  - rewrite (wrap_small (h + 1)) in Hmark by word_lia.
    pose proof Hmark as Htrace.
    apply mark_used_trace in Htrace; [| lia | lia].
    apply mark_used_spec in Hmark; [| lia | lia | apply wrap_range].
    rewrite Z2Nat.id in Hmark, Htrace by lia.
    destruct Hmark as (Hused & Hother & Hcount & _).
    destruct Htrace as (Hbytes & Hout).
    assert (Hcnt : nfree = wrap (nFreeFrames p - n)).
    { rewrite Hcount, wrap_sub_l. f_equal. lia. }
    rewrite <- (Z2Nat.id (n - 1)) in Hout by lia.
    rewrite (overwrite_trace_ext _ (mem st) m1) in Hout
      by (intros i Hi; apply Hm1; lia).
    rewrite Z2Nat.id in Hout by lia.
    exists m2. rewrite Hcnt, Hout. unfold out0. rewrite <- app_assoc.
    split; [reflexivity |]. split; [| split; [| split]].
    + rewrite Hother by lia. apply state_at_set_same. discriminate.
    + intros j Hj. apply Hused. lia.
    + intros i Hi. rewrite Hother by lia. apply Hm1. lia.
    + intros a Ha. rewrite Hbytes by (intros i Hi; apply Ha; lia).
      apply set_state_other_byte. apply Ha. lia.
Qed.

End AllocationEffect.

(** X11.  [get_frames n] neither checks the frames after the head nor the
    end of the pool.  Where [h] is the first frame that is not in use, the
    call returns [h + base_frame_no], leaves [h] HoS and the [n - 1] frames
    after it Used whatever they were, takes [n] off the counter in
    [unsigned long] arithmetic, and keeps every other frame and the registry
    links.  On the console it leaves, in the order of the frames from [h]
    on: for a frame after [h] that was in use, one warning; for a frame that
    held the reserved pattern ([h] itself or a frame after it), the line of
    [get_state] twice, once for each call in the test; for a Free frame,
    nothing. *)
Theorem get_frames_overwrites (fuel this : nat) (st : machine) (p : ContFramePool)
    (n h : Z) :
  objs st !! this = Some p ->
  0 < nFreeFrames p ->
  1 <= n ->
  0 <= h ->
  h + n <= 2 ^ 32 ->
  (forall i, 0 <= i < h -> frame_state st p i = Used \/ frame_state st p i = HoS) ->
  frame_state st p h <> Used -> frame_state st p h <> HoS ->
  (Z.to_nat h < fuel)%nat ->
  exists st' p',
    get_frames fuel this n st = Done (wrap (h + base_frame_no p), st')
    /\ objs st' !! this = Some p'
    /\ frame_state st' p' h = HoS
    /\ (forall j, h < j < h + n -> frame_state st' p' j = Used)
    /\ (forall i, i < h \/ h + n <= i -> frame_state st' p' i = frame_state st p i)
    /\ nFreeFrames p' = wrap (nFreeFrames p - n)
    /\ console st' =
         console st
         ++ test_events (frame_state st p h)
         ++ overwrite_trace (mem st) (bitmap p) (h + 1) (n - 1)
    /\ head st' = head st /\ tail st' = tail st.
Proof.
  intros Hobj Hfree Hn Hh Hfit Hbusy Hu Hhos Hfuel.
  destruct (get_frames_effect fuel this st p n h)
    as (m' & Hcall & Hhead & Hused & Hother & _); try assumption.
  eexists. eexists. split; [exact Hcall |].
  split; [cbn [objs]; apply lookup_insert_eq |].
  unfold frame_state.
  cbn [mem objs head tail console set_nFreeFrames nFreeFrames bitmap].
  repeat split; assumption.
Qed.

Lemma get_frames_overwrites_witness :
  (exists st' p',
     get_frames 20 1 3 gap = Done (101, st')
     /\ objs st' !! 1%nat = Some p'
     /\ frame_state st' p' 2 = Used /\ frame_state st' p' 3 = Used
     /\ nFreeFrames p' = 4
     /\ console st' = [overwrite_warning; overwrite_warning])
  /\ (exists st',
        get_frames 20 1 5 tainted = Done (101, st')
        /\ console st' = [invalid_state_line; invalid_state_line]).
Proof.
  split.
  - destruct (get_frames_overwrites 20 1 gap gap_pool 3 1)
      as (st' & p' & Hcall & Hobj & _ & Hused & _ & Hcount & Hout & _).
    + reflexivity.
    + simpl. lia.
    + lia.
    + lia.
    + word_lia.
    + intros i Hi. assert (i = 0) by lia. subst i. right. vm_compute. reflexivity.
    + vm_compute. discriminate.
    + vm_compute. discriminate.
    + simpl. lia.
    + exists st', p'. split; [exact Hcall |]. split; [exact Hobj |].
      split; [apply Hused; lia |]. split; [apply Hused; lia |].
      split; [exact Hcount |]. exact Hout.
  - destruct (get_frames_overwrites 20 1 tainted demo_pool 5 1)
      as (st' & p' & Hcall & _ & _ & _ & _ & _ & Hout & _).
    + reflexivity.
    + simpl. lia.
    + lia.
    + lia.
    + word_lia.
    + intros i Hi. assert (i = 0) by lia. subst i. right. vm_compute. reflexivity.
    + vm_compute. discriminate.
    + vm_compute. discriminate.
    + simpl. lia.
    + exists st'. split; [exact Hcall |]. exact Hout.
Defined.

(** ** Pools with separate state arrays *)

Section Isolation.

#[local] Opaque set_state state_at get_state.

Lemma arrays_disjoint_bytes (p q : ContFramePool) (i g : Z) :
  arrays_disjoint p q ->
  0 <= i < nframes p -> 0 <= g < nframes q ->
  bitmap q + g / 4 <> bitmap p + i / 4.
Proof.
  unfold arrays_disjoint. intros Hd Hi Hg.
  assert (0 <= i / 4 < (nframes p + 3) / 4) by (Z.div_mod_to_equations; lia).
  assert (0 <= g / 4 < (nframes q + 3) / 4) by (Z.div_mod_to_equations; lia).
  lia.
Qed.

End Isolation.

(** X12.  A release stays inside the state array of the pool it releases
    from.  Where another pool keeps its state array in bytes of its own, a
    successful [release_frames] leaves that pool's frame states, range,
    counter and state array as they were (its links may change when the
    released pool is retired). *)
Theorem release_frames_keeps_other_pools (fuel : nat) (st : machine) (l : list nat)
    (f : Z) (t u : nat) (p q : ContFramePool) :
  is_registry st l = true ->
  (length l <= fuel)%nat ->
  owner (objs st) l f = Some t ->
  objs st !! t = Some p ->
  pool_range_ok p ->
  frame_state st p (f - base_frame_no p) = HoS ->
  u <> t ->
  objs st !! u = Some q ->
  arrays_disjoint p q ->
  exists st' q',
    release_frames fuel f st = Done st'
    /\ objs st' !! u = Some q'
    /\ payload q' = payload q
    /\ (forall g, 0 <= g < nframes q -> frame_state st' q' g = frame_state st q g).
Proof.
  intros Hreg Hfuel Hown Hobj Hok Hstate Hne Hobju Hdisj.
  destruct (is_registry_unpack _ _ Hreg) as (_ & Hhead & _ & Hch).
  pose proof (release_walk_chain l st None fuel f Hch Hfuel) as Hwalk.
  rewrite <- Hhead in Hwalk.
  unfold release_frames. rewrite Hwalk, Hown, Hobj. clear Hwalk.
  destruct (owner_Some _ _ _ _ Hown) as (Hin & p0 & Hq & Hrange).
  assert (p0 = p) by congruence. subst p0.
  destruct (release_at_effect st l t p f Hreg Hin Hobj Hok Hrange Hstate)
    as (m2 & j & o' & hd' & tl' & out' & Hrun & Hj & _ & _ & _
        & _ & Hbytes & _ & Hpay & _).
  rewrite Hrun.
  specialize (Hpay u Hne). rewrite Hobju in Hpay.
  destruct (o' !! u) as [q' |] eqn:Hq'; [| discriminate].
  change (Some (payload q') = Some (payload q)) in Hpay.
  assert (Hpq : payload q' = payload q) by congruence.
  eexists. exists q'. split; [reflexivity |].
  cbn [objs]. split; [assumption |]. split; [assumption |].
  intros g Hg. unfold frame_state. cbn [mem].
  assert (Hbm : bitmap q' = bitmap q) by (unfold payload in Hpq; congruence).
  rewrite Hbm. apply state_at_byte. apply Hbytes.
  intros i Hi. apply arrays_disjoint_bytes; try assumption.
  apply (in_pool_range p f Hok) in Hrange. lia.
Qed.

Lemma duo_registry : is_registry duo [1%nat; 2%nat] = true.
Proof. vm_compute. reflexivity. Qed.

Lemma release_frames_keeps_other_pools_witness :
  exists st' q',
    release_frames 5 100 duo = Done st'
    /\ objs st' !! 2%nat = Some q'
    /\ payload q' = payload (mkPool 200 10 9 0 819200 None (Some 1%nat)).
Proof.
  destruct (release_frames_keeps_other_pools 5 duo [1%nat; 2%nat] 100 1 2
              (mkPool 100 10 9 0 409600 (Some 2%nat) None)
              (mkPool 200 10 9 0 819200 None (Some 1%nat)))
    as (st' & q' & Hrun & Hobj & Hpay & _).
  - exact duo_registry.
  - simpl. lia.
  - vm_compute. reflexivity.
  - reflexivity.
  - unfold pool_range_ok. simpl. word_lia.
  - vm_compute. reflexivity.
  - discriminate.
  - reflexivity.
  - unfold arrays_disjoint. simpl. left. vm_compute. discriminate.
  - exists st', q'. repeat split; assumption.
Defined.

(** X13.  An allocation that stays inside its pool stays inside that pool's
    state array.  Where the first frame [h] that is not in use leaves room
    for [n] frames before the end of the pool and another pool keeps its
    state array in bytes of its own, [get_frames n] leaves that pool's object
    and all its frame states as they were. *)
Theorem get_frames_keeps_other_pools (fuel this u : nat) (st : machine)
    (p q : ContFramePool) (n h : Z) :
  objs st !! this = Some p ->
  pool_range_ok p ->
  0 < nFreeFrames p ->
  1 <= n ->
  0 <= h ->
  h + n <= nframes p ->
  (forall i, 0 <= i < h -> frame_state st p i = Used \/ frame_state st p i = HoS) ->
  frame_state st p h <> Used -> frame_state st p h <> HoS ->
  (Z.to_nat h < fuel)%nat ->
  u <> this ->
  objs st !! u = Some q ->
  arrays_disjoint p q ->
  exists st',
    get_frames fuel this n st = Done (h + base_frame_no p, st')
    /\ objs st' !! u = Some q
    /\ (forall g, 0 <= g < nframes q -> frame_state st' q g = frame_state st q g).
Proof.
  intros Hobj (Hbase & Hnfr & Hfits) Hfree Hn Hh Hfit Hbusy Hu Hhos Hfuel
         Hne Hobju Hdisj.
  destruct (get_frames_effect fuel this st p n h)
    as (m' & Hcall & _ & _ & _ & Hbytes); try assumption; [word_lia |].
  rewrite (wrap_small (h + base_frame_no p)) in Hcall by word_lia.
  eexists. split; [exact Hcall |].
  cbn [objs]. split; [rewrite lookup_insert_ne by congruence; assumption |].
  intros g Hg. unfold frame_state. cbn [mem].
  apply state_at_byte. apply Hbytes.
  intros i Hi. apply arrays_disjoint_bytes; try assumption. lia.
Qed.

Lemma get_frames_keeps_other_pools_witness :
  exists st',
    get_frames 20 1 3 duo = Done (101, st')
    /\ objs st' !! 2%nat = Some (mkPool 200 10 9 0 819200 None (Some 1%nat)).
Proof.
  destruct (get_frames_keeps_other_pools 20 1 2 duo
              (mkPool 100 10 9 0 409600 (Some 2%nat) None)
              (mkPool 200 10 9 0 819200 None (Some 1%nat)) 3 1)
    as (st' & Hcall & Hobj & _).
  - reflexivity.
  - unfold pool_range_ok. simpl. word_lia.
  - simpl. lia.
  - lia.
  - lia.
  - simpl. lia.
  - intros i Hi. assert (i = 0) by lia. subst i. right. vm_compute. reflexivity.
  - vm_compute. discriminate.
  - vm_compute. discriminate.
  - simpl. lia.
  - discriminate.
  - reflexivity.
  - unfold arrays_disjoint. simpl. left. vm_compute. discriminate.
  - exists st'. split; assumption.
Defined.

(** ** Reservation as the code does it *)

Section Reservation.

#[local] Opaque set_state state_at get_state.

Lemma mark_range_used_spec (k : nat) : forall (m : memory) (bm base fno : Z),
  0 <= base <= fno -> fno + Z.of_nat k < 2 ^ 32 ->
  (forall i, fno - base <= i < fno - base + Z.of_nat k ->
     state_at (mark_range_used k m bm base fno) bm i = Used)
  /\ (forall i, i < fno - base \/ fno - base + Z.of_nat k <= i ->
        state_at (mark_range_used k m bm base fno) bm i = state_at m bm i).
Proof.
  induction k as [| k IH]; intros m bm base fno Hb Hk.
  - cbn [mark_range_used]. split; [intros i Hi; lia | reflexivity].
  - cbn [mark_range_used].
    rewrite (wrap_small (fno - base)) by word_lia.
    rewrite (wrap_small (fno + 1)) by word_lia.
    destruct (IH (set_state m bm (fno - base) Used) bm base (fno + 1)
                 ltac:(lia) ltac:(lia)) as [Hused Hother].
    split.
    + intros i Hi. destruct (Z.eq_dec i (fno - base)) as [-> | Hne].
      * rewrite Hother by lia. apply state_at_set_same. discriminate.
      * apply Hused. lia.
    + intros i Hi. rewrite Hother by lia. apply state_at_set_other. lia.
Qed.

End Reservation.

(** The loop of [mark_inaccessible] run from the call. *)
Lemma mark_inaccessible_run (this : nat) (st : machine) (p : ContFramePool)
    (first n : Z) :
  objs st !! this = Some p ->
  0 <= base_frame_no p <= first ->
  0 <= n ->
  first + n < 2 ^ 32 ->
  exists m',
    mark_inaccessible this first n st =
      Done (mkMachine m' (objs st) (head st) (tail st) (console st))
    /\ (forall i, first - base_frame_no p <= i < first - base_frame_no p + n ->
          state_at m' (bitmap p) i = Used)
    /\ (forall i, i < first - base_frame_no p \/ first - base_frame_no p + n <= i ->
          state_at m' (bitmap p) i = state_at (mem st) (bitmap p) i).
Proof.
  intros Hobj Hbase Hn Hfit.
  unfold mark_inaccessible. rewrite Hobj.
  rewrite (wrap_small (first + n)) by word_lia.
  replace (first + n - first) with n by lia.
  eexists. split; [reflexivity |].
  destruct (mark_range_used_spec (Z.to_nat n) (mem st) (bitmap p) (base_frame_no p) first)
    as [Hused Hother]; [lia | lia |].
  rewrite Z2Nat.id in Hused, Hother by lia.
  split; assumption.
Qed.

(** X10.  What [mark_inaccessible first n] does: every frame of the range,
    the first one included, becomes Used; no frame outside the range changes;
    counter, pool objects, registry and console stay as they are.  The range
    is taken relative to [base_frame_no] and is not compared with the size of
    the pool. *)
Theorem mark_inaccessible_effect (this : nat) (st : machine) (p : ContFramePool)
    (first n : Z) :
  objs st !! this = Some p ->
  0 <= base_frame_no p <= first ->
  0 <= n ->
  first + n < 2 ^ 32 ->
  exists st',
    mark_inaccessible this first n st = Done st'
    /\ (forall i, first - base_frame_no p <= i < first - base_frame_no p + n ->
          frame_state st' p i = Used)
    /\ (forall i, i < first - base_frame_no p \/ first - base_frame_no p + n <= i ->
          frame_state st' p i = frame_state st p i)
    /\ objs st' = objs st /\ head st' = head st /\ tail st' = tail st
    /\ console st' = console st.
Proof.
  intros Hobj Hbase Hn Hfit.
  destruct (mark_inaccessible_run this st p first n Hobj Hbase Hn Hfit)
    as (m' & Hcall & Hused & Hother).
  eexists. split; [exact Hcall |].
  unfold frame_state. cbn [mem objs head tail console].
  repeat split; assumption.
Qed.

Lemma mark_inaccessible_effect_witness :
  exists st',
    mark_inaccessible 1 103 2 demo = Done st'
    /\ frame_state st' demo_pool 3 = Used
    /\ frame_state st' demo_pool 4 = Used
    /\ objs st' = objs demo.
Proof.
  destruct (mark_inaccessible_effect 1 demo demo_pool 103 2)
    as (st' & Hcall & Hused & _ & Hobjs & _).
  - exact demo_object.
  - simpl. lia.
  - lia.
  - word_lia.
  - exists st'. split; [exact Hcall |].
    repeat split; try assumption; apply Hused; simpl; lia.
Defined.

(** X18.  A range reserved with [mark_inaccessible] cannot be released.
    After [mark_inaccessible first n] with [n >= 1] on the pool that owns
    [first], [release_frames first] prints the not-a-head report and changes
    nothing else: the reserved frames stay Used. *)
Theorem reserved_range_not_releasable (fuel this : nat) (st : machine) (l : list nat)
    (p : ContFramePool) (first n : Z) :
  is_registry st l = true ->
  (length l <= fuel)%nat ->
  owner (objs st) l first = Some this ->
  objs st !! this = Some p ->
  0 <= base_frame_no p ->
  1 <= n ->
  first + n < 2 ^ 32 ->
  exists st',
    mark_inaccessible this first n st = Done st'
    /\ release_frames fuel first st' =
         Done (mkMachine (mem st') (objs st') (head st') (tail st')
                 (console st'
                  ++ [puts "release_frames(): first frame not a Head-Of-Sequence"])).
Proof.
  intros Hreg Hfuel Hown Hobj Hbase Hn Hfit.
  destruct (owner_Some _ _ _ _ Hown) as (_ & q & Hq & Hin).
  assert (q = p) by congruence. subst q.
  unfold in_pool in Hin. apply andb_true_iff in Hin. destruct Hin as [Hle _].
  apply Z.leb_le in Hle.
  destruct (mark_inaccessible_run this st p first n)
    as (m' & Hcall & Hused & _); try assumption; try lia.
  eexists. split; [exact Hcall |].
  set (st' := mkMachine m' (objs st) (head st) (tail st) (console st)).
  destruct (is_registry_unpack _ _ Hreg) as (_ & Hhead & _ & Hch).
  pose proof (release_walk_chain l st' None fuel first Hch Hfuel) as Hwalk.
  rewrite <- Hhead in Hwalk.
  unfold release_frames. change (head st') with (head st). rewrite Hwalk.
  change (objs st') with (objs st). rewrite Hown, Hobj.
  rewrite release_at_not_head;
    rewrite (wrap_small (first - base_frame_no p)) by word_lia;
    change (mem st') with m'; rewrite Hused by lia;
    [reflexivity | discriminate].
Qed.

Lemma reserved_range_not_releasable_witness :
  exists st',
    mark_inaccessible 1 103 2 demo = Done st'
    /\ release_frames 5 103 st' =
         Done (mkMachine (mem st') (objs st') (head st') (tail st')
                 (console st'
                  ++ [puts "release_frames(): first frame not a Head-Of-Sequence"])).
Proof.
  apply (reserved_range_not_releasable 5 1 demo [1%nat] demo_pool 103 2).
  - exact demo_registry.
  - simpl. lia.
  - apply demo_owner. lia.
  - exact demo_object.
  - simpl. lia.
  - lia.
  - word_lia.
Defined.

(** ** More laws of the codec *)

Section CodecAlgebra.

Implicit Types (m : memory) (b f g : Z) (s : FrameState).

Lemma written_bit_high (B pos v k : Z) : 8 <= k -> Z.testbit (written B pos v) k = false.
Proof. intros Hk. unfold written, wrap8. apply Z.mod_pow2_bits_high. lia. Qed.

Lemma written_again (B pos v1 v2 : Z) :
  pos = 0 \/ pos = 2 \/ pos = 4 \/ pos = 6 ->
  0 <= v1 < 4 -> 0 <= v2 < 4 ->
  written (written B pos v1) pos v2 = written B pos v2.
Proof.
  intros Hpos Hv1 Hv2. apply Z.bits_inj'. intros k Hk.
  destruct (Z.lt_ge_cases k 8) as [Hlo | Hhi].
  - rewrite !written_bit by (assumption || lia).
    destruct ((pos <=? k) && (k <? pos + 2)); reflexivity.
  - rewrite !written_bit_high by assumption. reflexivity.
Qed.

Lemma written_swap (B p1 p2 v1 v2 : Z) :
  p1 = 0 \/ p1 = 2 \/ p1 = 4 \/ p1 = 6 ->
  p2 = 0 \/ p2 = 2 \/ p2 = 4 \/ p2 = 6 ->
  p1 <> p2 ->
  0 <= v1 < 4 -> 0 <= v2 < 4 ->
  written (written B p1 v1) p2 v2 = written (written B p2 v2) p1 v1.
Proof.
  intros H1 H2 Hne Hv1 Hv2. apply Z.bits_inj'. intros k Hk.
  destruct (Z.lt_ge_cases k 8) as [Hlo | Hhi].
  - rewrite !written_bit by (assumption || lia).
    destruct (Z.leb_spec p1 k), (Z.ltb_spec k (p1 + 2)),
             (Z.leb_spec p2 k), (Z.ltb_spec k (p2 + 2)); cbn [andb];
      try reflexivity; lia.
  - rewrite !written_bit_high by assumption. reflexivity.
Qed.

Lemma written_back (B pos : Z) (s : FrameState) :
  pos = 0 \/ pos = 2 \/ pos = 4 \/ pos = 6 ->
  0 <= B < 256 ->
  Z.b2z (Z.testbit B pos) + 2 * Z.b2z (Z.testbit B (pos + 1)) = encode s ->
  written B pos (encode s) = B.
Proof.
  intros Hpos HB Henc. apply Z.bits_inj'. intros k Hk.
  destruct (Z.lt_ge_cases k 8) as [Hlo | Hhi].
  - rewrite written_bit by (assumption || apply encode_range || lia).
    destruct (Z.leb_spec pos k), (Z.ltb_spec k (pos + 2)); cbn [andb];
      try reflexivity.
    assert (Hc : k = pos \/ k = pos + 1) by lia.
    rewrite <- Henc.
    destruct Hc as [-> | ->].
    + rewrite Z.sub_diag.
      destruct (Z.testbit B pos), (Z.testbit B (pos + 1)); reflexivity.
    + replace (pos + 1 - pos) with 1 by lia.
      destruct (Z.testbit B pos), (Z.testbit B (pos + 1)); reflexivity.
  - rewrite written_bit_high by assumption.
    symmetry. rewrite <- (Z.mod_small B (2 ^ 8)) by (change (2 ^ 8) with 256; lia).
    apply Z.mod_pow2_bits_high. lia.
Qed.

End CodecAlgebra.

(** X17.  [set_state] as an update of a two-bit field, byte for byte: a
    second write to the same frame leaves memory as the second write alone
    would (the field is cleared first); writes to two different frames
    commute; and writing back the state that [get_state] returned changes
    nothing, provided the byte holds a byte value and the state is not the
    reserved one. *)
Theorem set_state_algebra (m : memory) (b f : Z) (s1 s2 : FrameState) :
  (s2 <> Error ->
     forall a, set_state (set_state m b f s1) b f s2 a = set_state m b f s2 a)
  /\ (forall g, g <> f ->
        forall a, set_state (set_state m b f s1) b g s2 a
                  = set_state (set_state m b g s2) b f s1 a)
  /\ (0 <= m (b + f / 4) < 256 -> state_at m b f <> Error ->
        forall a, set_state m b f (state_at m b f) a = m a).
Proof.
  pose proof (frame_pos_cases f) as Hpf.
  split; [| split].
  - intros Hs2 a.
    destruct (FrameState_eqb s1 Error) eqn:Hs1.
    { destruct s1; try discriminate. reflexivity. }
    assert (Hs1' : s1 <> Error) by (intros ->; discriminate).
    rewrite (set_state_written (set_state m b f s1)) by assumption.
    rewrite (set_state_written m b f s2) by assumption.
    rewrite (set_state_written m b f s1) by assumption.
    rewrite store_same. unfold store.
    destruct (a =? b + f / 4); [| reflexivity].
    apply written_again; auto using encode_range.
  - intros g Hne a.
    pose proof (frame_pos_cases g) as Hpg.
    destruct (FrameState_eqb s1 Error) eqn:Hs1.
    { destruct s1; try discriminate. reflexivity. }
    destruct (FrameState_eqb s2 Error) eqn:Hs2.
    { destruct s2; try discriminate. reflexivity. }
    assert (Hs1' : s1 <> Error) by (intros ->; discriminate).
    assert (Hs2' : s2 <> Error) by (intros ->; discriminate).
    rewrite (set_state_written (set_state m b f s1)) by assumption.
    rewrite (set_state_written (set_state m b g s2)) by assumption.
    rewrite (set_state_written m b f s1) by assumption.
    rewrite (set_state_written m b g s2) by assumption.
    destruct (Z.eq_dec (g / 4) (f / 4)) as [Hq | Hq].
    + rewrite Hq, !store_same. unfold store.
      destruct (a =? b + f / 4); [| reflexivity].
      assert (Hm : g mod 4 <> f mod 4).
      { intros Hm. apply Hne.
        rewrite (Z.div_mod g 4), (Z.div_mod f 4) by lia. congruence. }
      symmetry. apply written_swap; auto using encode_range. lia.
    + rewrite (store_other m (b + f / 4) _ (b + g / 4)) by lia.
      rewrite (store_other m (b + g / 4) _ (b + f / 4)) by lia.
      unfold store.
      destruct (Z.eqb_spec a (b + g / 4)), (Z.eqb_spec a (b + f / 4));
        try reflexivity. lia.
  - intros HB Hs a.
    rewrite set_state_written by assumption. unfold store.
    destruct (Z.eqb_spec a (b + f / 4)) as [-> | Hne]; [| reflexivity].
    apply written_back; try assumption.
    rewrite <- field_bits. symmetry. apply state_at_encode.
Qed.

(** X14.  Sizing meets the constructor's precondition: a pool with at least
    one frame whose two-bit states fit in one frame, [n * 2 <= FRAME_SIZE * 8]
    as the [assert] of the constructor demands, needs exactly one info frame;
    an empty pool needs none. *)
Theorem needed_info_frames_single (FRAME_SIZE n : Z) :
  0 < FRAME_SIZE ->
  FRAME_SIZE * 16 <= 2 ^ 32 ->
  0 <= n ->
  n * 2 <= FRAME_SIZE * 8 ->
  needed_info_frames FRAME_SIZE n = (if n =? 0 then 0 else 1).
Proof.
  intros HF Hfit Hn Hpre.
  rewrite needed_info_frames_no_wrap by word_lia.
  destruct (Z.eqb_spec n 0) as [-> | Hne].
  - apply Z.div_small. lia.
  - symmetry. apply Z.div_unique with (r := n * 2 - 1); lia.
Qed.

Lemma needed_info_frames_single_witness :
  needed_info_frames 4096 16384 = 1.
Proof.
  apply (needed_info_frames_single 4096 16384); [lia | word_lia | lia | lia].
Defined.

(** ** Allocation, release, allocation *)

Section Reuse.

#[local] Opaque set_state state_at get_state.

(** The state after an allocation from a free run and the release of its
    head: the pool object and every frame state are what they were. *)
Lemma round_trip_state (fuel fuel' this : nat) (st : machine)
    (l : list nat) (p : ContFramePool) (n h : Z) :
  is_registry st l = true ->
  (length l <= fuel')%nat ->
  owner (objs st) l (h + base_frame_no p) = Some this ->
  objs st !! this = Some p ->
  pool_range_ok p ->
  no_error st p ->
  0 < nFreeFrames p < 2 ^ 32 ->
  1 <= n ->
  0 <= h ->
  h + n <= nframes p ->
  (forall i, 0 <= i < h -> frame_state st p i <> Free) ->
  (forall j, h <= j < h + n -> frame_state st p j = Free) ->
  (h + n < nframes p -> frame_state st p (h + n) <> Used) ->
  (Z.to_nat h < fuel)%nat ->
  exists st1 st2,
    get_frames fuel this n st = Done (h + base_frame_no p, st1)
    /\ release_frames fuel' (h + base_frame_no p) st1 = Done st2
    /\ objs st2 !! this = Some p
    /\ (forall i, state_at (mem st2) (bitmap p) i = state_at (mem st) (bitmap p) i).
Proof.
  intros Hreg Hfuel' Hown Hobj Hok Hclean Hfree Hn Hh Hfit Hfirst Hrun Hafter Hfuel.
  destruct (get_frames_run fuel this st p n h) as (m' & Hcall & Hhead & Hused & Hother);
    try assumption.
  unfold frame_state in *.
  destruct (is_registry_unpack _ _ Hreg) as (Hnd & Hhd & Htl & Hch).
  set (p1 := set_nFreeFrames (wrap (nFreeFrames p - n)) p) in *.
  set (o1 := <[this := p1]> (objs st)) in *.
  set (st1 := mkMachine m' o1 (head st) (tail st) (console st)) in *.
  assert (Hreg1 : is_registry st1 l = true).
  { unfold is_registry. cbn [objs head tail st1].
    rewrite !andb_true_iff, !bool_decide_eq_true. repeat split; try assumption.
    eapply chain_insert_links; try eassumption; reflexivity. }
  assert (Hown1 : owner o1 l (h + base_frame_no p) = Some this)
    by (unfold o1; erewrite owner_insert; try eassumption; reflexivity).
  assert (Hobj1 : objs st1 !! this = Some p1) by apply lookup_insert_eq.
  destruct (owner_Some _ _ _ _ Hown1) as (Hin & q & Hq & Hrange).
  assert (q = p1) by (cbn [objs st1] in Hobj1; congruence). subst q.
  assert (Hok1 : pool_range_ok p1) by exact Hok.
  destruct (release_at_effect st1 l this p1 (h + base_frame_no p)
              Hreg1 Hin Hobj1 Hok1 Hrange)
    as (m2 & j & o' & hd' & tl' & out' & Hrel & Hj & Hfreed & Hwas & Hrest
        & Hstop & _ & Hobj' & _).
  { cbn [mem st1 bitmap base_frame_no p1 set_nFreeFrames].
    replace (h + base_frame_no p - base_frame_no p) with h by lia. assumption. }
  cbn [mem st1 bitmap base_frame_no nframes nFreeFrames p1 set_nFreeFrames]
    in Hj, Hfreed, Hwas, Hrest, Hstop, Hobj'.
  replace (h + base_frame_no p - base_frame_no p) with h in * by lia.
  assert (Hjn : j = h + n).
  { destruct (Z.lt_trichotomy j (h + n)) as [Hlt | [Heq | Hgt]];
      [exfalso | assumption | exfalso].
    - apply Hstop; [lia |]. apply Hused. lia.
    - apply Hafter; [lia |]. rewrite <- Hother by lia. apply Hwas. lia. }
  subst j.
  exists st1. eexists. split; [exact Hcall |].
  pose proof (release_walk_chain l st1 None fuel' (h + base_frame_no p)) as Hwalk.
  destruct (is_registry_unpack _ _ Hreg1) as (_ & Hhd1 & _ & Hch1).
  specialize (Hwalk Hch1 Hfuel'). rewrite <- Hhd1 in Hwalk.
  unfold release_frames. rewrite Hwalk.
  change (objs st1) with o1. rewrite Hown1.
  change (o1 !! this) with (objs st1 !! this). rewrite Hobj1, Hrel.
  split; [reflexivity |]. cbn [objs mem]. split.
  - rewrite Hobj'. f_equal.
    replace (wrap (wrap (nFreeFrames p - n) + (h + n - h)))
      with (nFreeFrames p).
    + destruct p. reflexivity.
    + rewrite wrap_add_l.
      replace (nFreeFrames p - n + (h + n - h)) with (nFreeFrames p) by lia.
      symmetry. apply wrap_small. lia.
  - intros i.
    destruct (Z.lt_ge_cases i h) as [Hlo | Hhi];
      [rewrite Hrest by lia; apply Hother; lia |].
    destruct (Z.lt_ge_cases i (h + n)) as [Hin' | Hout];
      [rewrite Hfreed by lia; symmetry; apply Hrun; lia |].
    rewrite Hrest by lia. apply Hother. lia.
Qed.

End Reuse.

(** X16.  First fit returns to the same place.  Where the first Free frame
    of a registered pool begins a run of [n] Free frames and no Used frame
    follows the run, [get_frames n], the release of the frame it returned and
    [get_frames n] again return the same frame number both times. *)
Theorem get_frames_again_same_frame (fuel fuel' this : nat) (st : machine)
    (l : list nat) (p : ContFramePool) (n h : Z) :
  is_registry st l = true ->
  (length l <= fuel')%nat ->
  owner (objs st) l (h + base_frame_no p) = Some this ->
  objs st !! this = Some p ->
  pool_range_ok p ->
  no_error st p ->
  0 < nFreeFrames p < 2 ^ 32 ->
  1 <= n ->
  0 <= h ->
  h + n <= nframes p ->
  (forall i, 0 <= i < h -> frame_state st p i <> Free) ->
  (forall j, h <= j < h + n -> frame_state st p j = Free) ->
  (h + n < nframes p -> frame_state st p (h + n) <> Used) ->
  (Z.to_nat h < fuel)%nat ->
  exists st1 st2 st3,
    get_frames fuel this n st = Done (h + base_frame_no p, st1)
    /\ release_frames fuel' (h + base_frame_no p) st1 = Done st2
    /\ get_frames fuel this n st2 = Done (h + base_frame_no p, st3).
Proof.
  intros Hreg Hfuel' Hown Hobj Hok Hclean Hfree Hn Hh Hfit Hfirst Hrun Hafter Hfuel.
  destruct (round_trip_state fuel fuel' this st l p n h)
    as (st1 & st2 & Hcall & Hrel & Hobj2 & Hsame); try assumption.
  destruct (get_frames_run fuel this st2 p n h) as (m3 & Hcall3 & _);
    try assumption.
  - intros i Hi. unfold frame_state. rewrite Hsame. apply Hclean, Hi.
  - intros i Hi. unfold frame_state. rewrite Hsame. apply Hfirst, Hi.
  - intros i Hi. unfold frame_state. rewrite Hsame. apply Hrun, Hi.
  - exists st1, st2. eexists. repeat split; eassumption.
Qed.

Lemma get_frames_again_same_frame_witness :
  exists st1 st2 st3,
    get_frames 20 1 3 demo = Done (1 + base_frame_no demo_pool, st1)
    /\ release_frames 5 (1 + base_frame_no demo_pool) st1 = Done st2
    /\ get_frames 20 1 3 st2 = Done (1 + base_frame_no demo_pool, st3).
Proof.
  apply (get_frames_again_same_frame 20 5 1 demo [1%nat] demo_pool 3 1).
  - exact demo_registry.
  - simpl. lia.
  - apply demo_owner. simpl. lia.
  - exact demo_object.
  - exact demo_range_ok.
  - exact demo_no_error.
  - simpl. word_lia.
  - lia.
  - lia.
  - simpl. lia.
  - intros i Hi. assert (i = 0) by lia. subst i. rewrite demo_frames. discriminate.
  - intros j Hj. rewrite demo_frames.
    destruct (Z.eqb_spec j 0); [lia | reflexivity].
  - intros _. rewrite demo_frames. discriminate.
  - simpl. lia.
Defined.

(** X19.  Nothing protects the frame that holds the state array.  In a
    registered pool whose frame 0 is HoS, whose other frames are Free and
    whose counter is [nframes - 1] (a pool as constructed with info frame 0),
    [release_frames base_frame_no] succeeds: every frame of the pool is Free,
    the counter equals [nframes], and the pool is spliced out of the registry.
    A [get_frames 1] on the pool object then returns [base_frame_no], the
    frame of the state array itself. *)
Theorem info_frame_release_retires_pool (fuel fuel' : nat) (st : machine)
    (l : list nat) (t : nat) (p : ContFramePool) :
  is_registry st l = true ->
  (length l <= fuel)%nat ->
  owner (objs st) l (base_frame_no p) = Some t ->
  objs st !! t = Some p ->
  pool_range_ok p ->
  frame_state st p 0 = HoS ->
  (forall i, 1 <= i < nframes p -> frame_state st p i = Free) ->
  nFreeFrames p = nframes p - 1 ->
  (0 < fuel')%nat ->
  exists st' p' l1 l2 st'',
    release_frames fuel (base_frame_no p) st = Done st'
    /\ l = l1 ++ t :: l2
    /\ is_registry st' (l1 ++ l2) = true
    /\ objs st' !! t = Some p'
    /\ nFreeFrames p' = nframes p
    /\ (forall i, 0 <= i < nframes p -> frame_state st' p' i = Free)
    /\ get_frames fuel' t 1 st' = Done (base_frame_no p, st'').
Proof.
  intros Hreg Hfuel Hown Hobj Hok Hzero Hrest Hcount Hfuel'.
  destruct (is_registry_unpack _ _ Hreg) as (_ & Hhead & _ & Hch).
  pose proof (release_walk_chain l st None fuel (base_frame_no p) Hch Hfuel) as Hwalk.
  rewrite <- Hhead in Hwalk.
  unfold release_frames. rewrite Hwalk, Hown, Hobj. clear Hwalk.
  destruct (owner_Some _ _ _ _ Hown) as (Hin & q & Hq & Hrange).
  assert (q = p) by congruence. subst q.
  unfold frame_state in *.
  destruct (release_at_effect st l t p (base_frame_no p) Hreg Hin Hobj Hok Hrange)
    as (m2 & j & o' & hd' & tl' & out' & Hrun & Hj & Hfree & Hused & Hother
        & _ & _ & Hobj' & _ & Hfull & _).
  { rewrite Z.sub_diag. assumption. }
  rewrite Z.sub_diag in *.
  assert (Hj1 : j = 1).
  { destruct (Z.eq_dec j 1) as [-> | Hne]; [reflexivity | exfalso].
    assert (Hu : state_at (mem st) (bitmap p) 1 = Used) by (apply Hused; lia).
    rewrite Hrest in Hu by lia. discriminate. }
  subst j.
  pose proof Hok as (Hbase & Hnfr & Hfits).
  assert (Hnf : wrap (nFreeFrames p + (1 - 0)) = nframes p).
  { rewrite Hcount. replace (nframes p - 1 + (1 - 0)) with (nframes p) by lia.
    apply wrap_small. word_lia. }
  destruct (Hfull Hnf) as (l1 & l2 & Hl & Hreg').
  rewrite Hrun. rewrite Hnf in Hobj'.
  set (st' := mkMachine m2 o' hd' tl' out') in *.
  set (p' := set_nFreeFrames (nframes p) p) in *.
  assert (Hstates : forall i, 0 <= i < nframes p -> state_at m2 (bitmap p) i = Free).
  { intros i Hi. destruct (Z.eq_dec i 0) as [-> | Hne].
    - apply Hfree. lia.
    - rewrite Hother by lia. apply Hrest. lia. }
  destruct (get_frames_effect fuel' t st' p' 1 0) as (m3 & Hcall & _).
  - exact Hobj'.
  - cbn [nFreeFrames p' set_nFreeFrames]. lia.
  - lia.
  - lia.
  - word_lia.
  - intros i Hi. lia.
  - unfold frame_state. cbn [mem st' bitmap p' set_nFreeFrames].
    rewrite Hstates by lia. discriminate.
  - unfold frame_state. cbn [mem st' bitmap p' set_nFreeFrames].
    rewrite Hstates by lia. discriminate.
  - simpl. lia.
  - cbn [base_frame_no p' set_nFreeFrames] in Hcall.
    rewrite Z.add_0_l, (wrap_small (base_frame_no p)) in Hcall by word_lia.
    exists st', p', l1, l2. eexists.
    split; [reflexivity |]. split; [assumption |]. split; [assumption |].
    split; [exact Hobj' |]. split; [reflexivity |].
    split; [exact Hstates |]. exact Hcall.
Qed.

Lemma info_frame_release_retires_pool_witness :
  exists st' p' l1 l2 st'',
    release_frames 5 (base_frame_no demo_pool) demo = Done st'
    /\ [1%nat] = l1 ++ 1%nat :: l2
    /\ is_registry st' (l1 ++ l2) = true
    /\ objs st' !! 1%nat = Some p'
    /\ nFreeFrames p' = nframes demo_pool
    /\ (forall i, 0 <= i < nframes demo_pool -> frame_state st' p' i = Free)
    /\ get_frames 5 1 1 st' = Done (base_frame_no demo_pool, st'').
Proof.
  apply (info_frame_release_retires_pool 5 5 demo [1%nat] 1 demo_pool).
  - exact demo_registry.
  - simpl. lia.
  - apply demo_owner. simpl. lia.
  - exact demo_object.
  - exact demo_range_ok.
  - rewrite demo_frames. reflexivity.
  - intros i Hi. rewrite demo_frames. destruct (Z.eqb_spec i 0); [lia | reflexivity].
  - reflexivity.
  - lia.
Defined.

(** ** Witnesses for the lemmas on the free-run paths and on construction *)

Lemma check_freed_frames_silent_witness :
  check_freed_frames 5 500 3 demo = Done demo
  /\ check_freed_frames 5 101 3 demo = Done demo.
Proof.
  destruct (check_freed_frames_silent 5 demo [1%nat] 500 3 demo_registry)
    as [Hnone _]; [simpl; lia |].
  destruct (check_freed_frames_silent 5 demo [1%nat] 101 3 demo_registry)
    as [_ Hown]; [simpl; lia |].
  split.
  - apply Hnone. intros t p Ht Hp.
    apply list_elem_of_singleton in Ht. subst t.
    rewrite demo_object in Hp. injection Hp as <-. vm_compute. reflexivity.
  - apply (Hown 1%nat demo_pool).
    + apply demo_owner. lia.
    + exact demo_object.
    + simpl. lia.
    + lia.
    + simpl. word_lia.
    + intros i Hi. simpl in Hi. rewrite demo_frames.
      destruct (Z.eqb_spec i 0); [lia | reflexivity].
Defined.

Lemma get_frames_release_round_trip_witness :
  exists st1 st2 p2,
    get_frames 20 1 3 demo = Done (1 + base_frame_no demo_pool, st1)
    /\ release_frames 5 (1 + base_frame_no demo_pool) st1 = Done st2
    /\ objs st2 !! 1%nat = Some p2
    /\ nFreeFrames p2 = nFreeFrames demo_pool.
Proof.
  destruct (get_frames_release_round_trip 20 5 1 demo [1%nat] demo_pool 3 1)
    as (st1 & st2 & p2 & H1 & H2 & H3 & H4 & _).
  - exact demo_registry.
  - simpl. lia.
  - apply demo_owner. simpl. lia.
  - exact demo_object.
  - exact demo_range_ok.
  - exact demo_no_error.
  - simpl. word_lia.
  - lia.
  - lia.
  - simpl. lia.
  - intros i Hi. assert (i = 0) by lia. subst i. rewrite demo_frames. discriminate.
  - intros j Hj. rewrite demo_frames.
    destruct (Z.eqb_spec j 0); [lia | reflexivity].
  - intros _. rewrite demo_frames. discriminate.
  - simpl. lia.
  - exists st1, st2, p2. repeat split; assumption.
Defined.

Lemma demo_counts : free_frames demo demo_pool = nFreeFrames demo_pool.
Proof. vm_compute. reflexivity. Qed.

Lemma get_frames_keeps_count_witness :
  exists st' p',
    get_frames 20 1 3 demo = Done (1 + base_frame_no demo_pool, st')
    /\ objs st' !! 1%nat = Some p'
    /\ free_frames st' p' = nFreeFrames p'.
Proof.
  apply (get_frames_keeps_count 20 1 demo demo_pool 3 1).
  - exact demo_object.
  - exact demo_range_ok.
  - exact demo_no_error.
  - simpl. lia.
  - exact demo_counts.
  - lia.
  - lia.
  - simpl. lia.
  - intros i Hi. assert (i = 0) by lia. subst i. rewrite demo_frames. discriminate.
  - intros j Hj. rewrite demo_frames.
    destruct (Z.eqb_spec j 0); [lia | reflexivity].
  - simpl. lia.
Defined.

Lemma release_frames_keeps_count_witness :
  exists st' p',
    release_frames 5 100 demo = Done st'
    /\ objs st' !! 1%nat = Some p'
    /\ free_frames st' p' = nFreeFrames p'.
Proof.
  apply (release_frames_keeps_count 5 demo [1%nat] 100 1 demo_pool).
  - exact demo_registry.
  - simpl. lia.
  - apply demo_owner. lia.
  - exact demo_object.
  - exact demo_range_ok.
  - rewrite demo_frames. reflexivity.
  - exact demo_counts.
Defined.

Lemma ctor_appends_witness :
  exists st',
    ContFramePool_ctor 4096 2 raw0 200 10 0 demo = Done st'
    /\ is_registry st' ([1%nat] ++ [2%nat]) = true.
Proof.
  destruct (ctor_appends 4096 2 raw0 200 10 0 demo [1%nat])
    as (st' & Hrun & Hreg & _).
  - exact demo_registry.
  - intros Hin. apply list_elem_of_singleton in Hin. discriminate.
  - intros Hnil. discriminate.
  - vm_compute. discriminate.
  - exists st'. split; assumption.
Defined.

Lemma ctor_on_zeroed_memory_witness :
  exists st' p,
    ContFramePool_ctor 4096 1 raw0 100 10 0 boot = Done st'
    /\ objs st' !! 1%nat = Some p
    /\ frame_state st' p 0 = HoS
    /\ nFreeFrames p = wrap (10 - 1).
Proof.
  destruct (ctor_on_zeroed_memory 4096 1 raw0 100 10 boot)
    as (st' & p & Hrun & Hobj & _ & Hhos & _ & Hcount & _).
  - reflexivity.
  - reflexivity.
  - vm_compute. discriminate.
  - exists st', p. repeat split; assumption.
Defined.

(** ** A request for zero frames *)

Section ZeroFrames.

#[local] Opaque set_state state_at get_state.

Lemma wrap_eq_self_iff (j d : Z) :
  0 <= j < 2 ^ 32 -> 0 < d < 2 ^ 32 -> wrap (j + d) <> j.
Proof.
  intros Hj Hd Heq. unfold wrap in Heq.
  assert (H : (j + d) mod 2 ^ 32 = j mod 2 ^ 32)
    by (rewrite Heq; symmetry; apply Z.mod_small; assumption).
  change (2 ^ 32) with 4294967296 in *.
  Z.div_mod_to_equations. lia.
Qed.

(** The marking loop with the frame index wrapping around: as long as it
    makes fewer than [2 ^ 32] rounds it never comes back to a frame. *)
Lemma mark_used_around (k : nat) : forall (m : memory) (bm j nfree : Z) out m' nfree' out',
  0 <= j < 2 ^ 32 -> Z.of_nat k < 2 ^ 32 ->
  0 <= nfree < 2 ^ 32 ->
  mark_used k m bm j nfree out = (m', nfree', out') ->
  (forall d, 0 <= d < Z.of_nat k -> state_at m' bm (wrap (j + d)) = Used)
  /\ (forall i, (forall d, 0 <= d < Z.of_nat k -> i <> wrap (j + d)) ->
        state_at m' bm i = state_at m bm i)
  /\ nfree' = wrap (nfree - Z.of_nat k).
Proof.
  induction k as [| k IH]; intros m bm j nfree out m' nfree' out' Hj Hk Hn Hrun.
  - cbn [mark_used] in Hrun. injection Hrun as <- <- _.
    split; [intros d Hd; lia |]. split; [reflexivity |].
    rewrite Z.sub_0_r. symmetry. apply wrap_small. assumption.
  - rewrite mark_used_S in Hrun.
    apply IH in Hrun; [| apply wrap_range | lia | apply wrap_range].
    destruct Hrun as (Hused & Hother & Hcount).
    assert (Hshift : forall d, wrap (wrap (j + 1) + d) = wrap (j + (d + 1))).
    { intros d. rewrite wrap_add_l. f_equal. lia. }
    split; [| split].
    + intros d Hd. destruct (Z.eq_dec d 0) as [-> | Hne].
      * rewrite Z.add_0_r, (wrap_small j) by assumption.
        rewrite Hother.
        -- apply state_at_set_same. discriminate.
        -- intros d' Hd'. rewrite Hshift. intros Heq. symmetry in Heq.
           revert Heq. apply wrap_eq_self_iff; [assumption | lia].
      * replace d with ((d - 1) + 1) by lia. rewrite <- Hshift.
        apply Hused. lia.
    + intros i Hi. rewrite Hother.
      * apply state_at_set_other. specialize (Hi 0 ltac:(lia)).
        rewrite Z.add_0_r, (wrap_small j) in Hi by assumption. assumption.
      * intros d Hd. rewrite Hshift. apply Hi. lia.
    + rewrite Hcount, wrap_sub_l. f_equal. lia.
Qed.

End ZeroFrames.

(** X20.  [get_frames 0] is no empty request: the loop bound [_n_frames - 1]
    wraps around to [2 ^ 32 - 1].  Where [h] is the first frame that is not
    in use, the call returns [h + base_frame_no] with [h] HoS and with every
    other frame index below [2 ^ 32] Used, inside the pool and outside; the
    counter, taken down [2 ^ 32] times, is what it was. *)
Theorem get_frames_zero (fuel this : nat) (st : machine) (p : ContFramePool) (h : Z) :
  objs st !! this = Some p ->
  0 < nFreeFrames p < 2 ^ 32 ->
  0 <= h < 2 ^ 32 ->
  (forall i, 0 <= i < h -> frame_state st p i = Used \/ frame_state st p i = HoS) ->
  frame_state st p h <> Used -> frame_state st p h <> HoS ->
  (Z.to_nat h < fuel)%nat ->
  exists st' p',
    get_frames fuel this 0 st = Done (wrap (h + base_frame_no p), st')
    /\ objs st' !! this = Some p'
    /\ frame_state st' p' h = HoS
    /\ (forall i, 0 <= i < 2 ^ 32 -> i <> h -> frame_state st' p' i = Used)
    /\ nFreeFrames p' = nFreeFrames p.
Proof.
  intros Hobj Hfree Hh Hbusy Hu Hhos Hfuel.
  unfold frame_state in *.
  assert (Hscan : scan fuel (mem st) (bitmap p) 0 (console st)
                  = Some (h, console st ++ test_events (state_at (mem st) (bitmap p) h)))
    by (apply (scan_stops (Z.to_nat h)); try assumption; word_lia).
  unfold get_frames. rewrite Hobj.
  replace (0 <? nFreeFrames p) with true by (symmetry; apply Z.ltb_lt; lia).
  cbn [negb]. rewrite Hscan.
  assert (Hk : wrap (0 - 1) = 2 ^ 32 - 1) by reflexivity.
  rewrite Hk. clear Hk.
  set (k := Z.to_nat (2 ^ 32 - 1)).
  assert (Hkz : Z.of_nat k = 2 ^ 32 - 1) by (unfold k; apply Z2Nat.id; word_lia).
  clearbody k.
  destruct (mark_used k (set_state (mem st) (bitmap p) h HoS) (bitmap p)
              (wrap (h + 1)) (wrap (nFreeFrames p - 1))
              (console st ++ test_events (state_at (mem st) (bitmap p) h)))
    as [[m2 nfree] out] eqn:Hmark.
  apply mark_used_around in Hmark;
    [| apply wrap_range | word_lia | apply wrap_range].
  destruct Hmark as (Hused & Hother & Hcount).
  assert (Hshift : forall d, wrap (wrap (h + 1) + d) = wrap (h + (d + 1))).
  { intros d. rewrite wrap_add_l. f_equal. lia. }
  eexists. eexists. split; [reflexivity |].
  split; [cbn [objs]; apply lookup_insert_eq |].
  cbn [mem bitmap set_nFreeFrames nFreeFrames].
  split; [| split].
  - rewrite Hother.
    + apply state_at_set_same. discriminate.
    + intros d Hd. rewrite Hshift. intros Heq. symmetry in Heq.
      revert Heq. apply wrap_eq_self_iff; [assumption | word_lia].
  - intros i Hi Hne.
    destruct (Z.lt_ge_cases h i) as [Hgt | Hle].
    + replace i with (wrap (wrap (h + 1) + (i - h - 1))).
      * apply Hused. word_lia.
      * rewrite Hshift. replace (h + (i - h - 1 + 1)) with i by lia.
        apply wrap_small. assumption.
    + replace i with (wrap (wrap (h + 1) + (i - h - 1 + 2 ^ 32))).
      * apply Hused. word_lia.
      * rewrite Hshift. replace (h + (i - h - 1 + 2 ^ 32 + 1)) with (i + 1 * 2 ^ 32) by lia.
        unfold wrap. rewrite Z.mod_add by (change (2 ^ 32) with 4294967296; lia).
        apply Z.mod_small. assumption.
  - rewrite Hcount, wrap_sub_l, Hkz.
    replace (nFreeFrames p - 1 - (2 ^ 32 - 1)) with (nFreeFrames p + (-1) * 2 ^ 32) by lia.
    unfold wrap. rewrite Z.mod_add by (change (2 ^ 32) with 4294967296; lia).
    apply Z.mod_small. word_lia.
Qed.

Lemma get_frames_zero_witness :
  exists st', get_frames 20 1 0 demo = Done (wrap (1 + base_frame_no demo_pool), st').
Proof.
  destruct (get_frames_zero 20 1 demo demo_pool 1) as (st' & p' & Hcall & _).
  - exact demo_object.
  - simpl. word_lia.
  - word_lia.
  - intros i Hi. assert (i = 0) by lia. subst i. rewrite demo_frames. right. reflexivity.
  - rewrite demo_frames. discriminate.
  - rewrite demo_frames. discriminate.
  - simpl. lia.
  - exists st'. exact Hcall.
Defined.
